(** * db_scan: binding cursor rows to Go records

    A shallow embedding of [db_scan/db_scan.go].  The package walks its
    destination with Go's [reflect] package, so the embedding has three
    layers:

    - the Go data the program handles (types, values, a heap of
      allocated variables), in [Module reflect], together with the part
      of the [reflect] API the package calls;
    - the part of [strconv] the package calls ([ParseInt], [ParseUint]);
    - the package itself: [Scan], [ExtraDatasFromRows], [multiResults],
      [singleResult], [directSet], [valueConvert],
      [handleConvertMapSliceToField], [handleConvertTime].

    Go code either returns or panics; a function that loops on an
    external cursor may also run for ever.  All three are outcomes of
    the state monad [M] below. *)

From Stdlib Require Import ZArith Lia Ascii String.
From stdpp Require Import base option list strings gmap.

Set Warnings "-register-all".

(** ** Outcomes and the state monad *)

Inductive Res (A : Type) : Type :=
| Ok (a : A)            (* the call returned [a] *)
| Panic (msg : string)  (* the call panicked *)
| OutOfFuel.            (* the bound on the loops was reached *)
Arguments Ok {A} a.
Arguments Panic {A} msg.
Arguments OutOfFuel {A}.

Definition M (St A : Type) : Type := St -> Res A * St.

Definition ret {St A : Type} (a : A) : M St A := fun s => (Ok a, s).

Definition bind {St A B : Type} (m : M St A) (k : A -> M St B) : M St B :=
  fun s =>
    match m s with
    | (Ok a, s') => k a s'
    | (Panic msg, s') => (Panic msg, s')
    | (OutOfFuel, s') => (OutOfFuel, s')
    end.

Definition panic {St A : Type} (msg : string) : M St A := fun s => (Panic msg, s).

Definition lift {St A : Type} (r : Res A) : M St A := fun s => (r, s).

Notation "x <- c1 ;; c2" := (bind c1 (fun x => c2))
  (at level 62, c1 at next level, right associativity, only parsing).
Notation "c1 ;;; c2" := (bind c1 (fun _ => c2))
  (at level 62, right associativity, only parsing).

(** ** The Go runtime the package is linked against

    What the package takes from outside the repository and what is not
    fixed by the language: the width of [int], [uint] and [uintptr], the
    two float conversions, [strconv.ParseFloat(s, 64)], the method set of
    [time.Time] and [time.Time.Format].  A float is carried as its
    IEEE-754 bit pattern. *)

Module time.
(** [time.Time] is a struct of three words. *)
Record Time : Type := mkTime { wall : Z; ext : Z; loc : option string }.
Definition zero : Time := mkTime 0 0 None.
End time.

Class GoRuntime : Type := {
  IntSize : Z;                                 (* strconv.IntSize *)
  float64_of_float32 : Z -> Z;                 (* float64(x) for x float32 *)
  float32_of_float64 : Z -> Z;                 (* float32(x) for x float64 *)
  ParseFloat64 : string -> option Z;           (* strconv.ParseFloat(s, 64), None on error *)
  time_Format : time.Time -> string -> string; (* t.Format(layout) *)
  time_methods : list string                   (* the method set of time.Time *)
}.

(** ** Go data and the reflect package *)

Module reflect.

(** [reflect.Kind], in the order of its [iota] declaration. *)
Inductive Kind : Type :=
| Invalid | Bool
| Int | Int8 | Int16 | Int32 | Int64
| Uint | Uint8 | Uint16 | Uint32 | Uint64 | Uintptr
| Float32 | Float64 | Complex64 | Complex128
| Array | Chan | Func | Interface | Map | Ptr | Slice | String | Struct
| UnsafePointer.

(** The number of a kind: [Kind] is a [uint] in Go and the package
    compares kinds with [<=] and [>=]. *)
Definition code (k : Kind) : N :=
  match k with
  | Invalid => 0 | Bool => 1
  | Int => 2 | Int8 => 3 | Int16 => 4 | Int32 => 5 | Int64 => 6
  | Uint => 7 | Uint8 => 8 | Uint16 => 9 | Uint32 => 10 | Uint64 => 11
  | Uintptr => 12
  | Float32 => 13 | Float64 => 14 | Complex64 => 15 | Complex128 => 16
  | Array => 17 | Chan => 18 | Func => 19 | Interface => 20 | Map => 21
  | Ptr => 22 | Slice => 23 | String => 24 | Struct => 25
  | UnsafePointer => 26
  end%N.

Definition kind_eqb (a b : Kind) : bool := (code a =? code b)%N.

(** A struct tag, as the key/value pairs of its conventional format. *)
Abbreviation StructTag := (list (string * string)).

Fixpoint Lookup (tag : StructTag) (key : string) : option string :=
  match tag with
  | [] => None
  | (k, v) :: rest => if String.eqb k key then Some v else Lookup rest key
  end.

(** Go types.  [TBasic k] is the predeclared type of a basic kind [k]
    ([bool], [int64], [string], ...); [TNamed] is a defined type with
    its method names; [TTime] is [time.Time].  Arrays, maps, channels
    and functions are not in this universe. *)
Inductive Typ : Type :=
| TBasic (k : Kind)
| TPtr (elem : Typ)
| TSlice (elem : Typ)
| TStruct (fields : list StructField)
| TInterface (methods : list string)
| TNamed (name : string) (methods : list string) (under : Typ)
| TTime
with StructField : Type :=
| mkField (Name : string) (Exported : bool) (Type_ : Typ) (Tag : StructTag).

Definition fieldName (f : StructField) : string := let 'mkField n _ _ _ := f in n.
Definition fieldExported (f : StructField) : bool := let 'mkField _ e _ _ := f in e.
Definition fieldType (f : StructField) : Typ := let 'mkField _ _ t _ := f in t.
Definition fieldTag (f : StructField) : StructTag := let 'mkField _ _ _ t := f in t.

Abbreviation loc := nat.

(** Go values.  Integers are carried as [Z] within the range of their
    type, floats as bit patterns, a slice as the sequence of its
    elements ([None] is the nil slice), a pointer as the address of an
    allocated variable, an interface value as its dynamic type and
    value. *)
Inductive val : Type :=
| VBool (b : bool)
| VInt (z : Z)
| VUint (z : Z)
| VFloat32 (bits : Z)
| VFloat64 (bits : Z)
| VComplex (re im : Z)
| VString (s : string)
| VPtr (p : option loc)
| VSlice (s : option (list val))
| VStruct (fs : list val)
| VIface (i : option (Typ * val))
| VTime (t : time.Time).

(** A value of type [interface{}]. *)
Abbreviation iface := (option (Typ * val)).

Fixpoint underlying (t : Typ) : Typ :=
  match t with
  | TNamed _ _ u => underlying u
  | _ => t
  end.

(** [Type.Kind()] *)
Fixpoint kindOf (t : Typ) : Kind :=
  match t with
  | TBasic k => k
  | TPtr _ => Ptr
  | TSlice _ => Slice
  | TStruct _ => Struct
  | TInterface _ => Interface
  | TNamed _ _ u => kindOf u
  | TTime => Struct
  end.

(** The three unexported fields of [time.Time]. *)
Definition timeFields : list StructField :=
  [ mkField "wall" false (TBasic Uint64) [];
    mkField "ext" false (TBasic Int64) [];
    mkField "loc" false (TPtr (TNamed "time.Location" [] (TStruct []))) [] ].

Definition structFields (t : Typ) : option (list StructField) :=
  match underlying t with
  | TStruct fs => Some fs
  | TTime => Some timeFields
  | _ => None
  end.

(** Identity of types. *)
Definition tag_eqb (a b : StructTag) : bool :=
  bool_decide (a = b).

Definition names_eqb (a b : list string) : bool := bool_decide (a = b).

Fixpoint typ_eqb (a b : Typ) : bool :=
  match a, b with
  | TBasic k, TBasic k' => kind_eqb k k'
  | TPtr e, TPtr e' => typ_eqb e e'
  | TSlice e, TSlice e' => typ_eqb e e'
  | TStruct fs, TStruct fs' =>
      (fix go (l l' : list StructField) : bool :=
         match l, l' with
         | [], [] => true
         | f :: r, f' :: r' => field_eqb f f' && go r r'
         | _, _ => false
         end) fs fs'
  | TInterface ms, TInterface ms' => names_eqb ms ms'
  | TNamed n ms u, TNamed n' ms' u' =>
      String.eqb n n' && names_eqb ms ms' && typ_eqb u u'
  | TTime, TTime => true
  | _, _ => false
  end
with field_eqb (f g : StructField) : bool :=
  match f, g with
  | mkField n e t tg, mkField n' e' t' tg' =>
      String.eqb n n' && Bool.eqb e e' && typ_eqb t t' && tag_eqb tg tg'
  end.

(** A defined (named) type: predeclared types are named too. *)
Definition hasName (t : Typ) : bool :=
  match t with
  | TBasic _ | TNamed _ _ _ | TTime => true
  | _ => false
  end.

(** The method set of a type, by method name.  The method set of a
    pointer to a defined type contains that of the type. *)
Definition methodSet `{GoRuntime} (t : Typ) : list string :=
  match t with
  | TNamed _ ms u =>
      match underlying u with TInterface ims => ims ++ ms | _ => ms end
  | TInterface ms => ms
  | TTime => time_methods
  | TPtr (TNamed _ ms _) => ms
  | TPtr TTime => time_methods
  | _ => []
  end.

Definition ifaceMethods (t : Typ) : list string :=
  match underlying t with
  | TInterface ms => ms
  | _ => []
  end.

(** [implements T V]: [T] is an interface type and [V] has its methods. *)
Definition implements `{GoRuntime} (T V : Typ) : bool :=
  kind_eqb (kindOf T) Interface
  && forallb (fun m => existsb (String.eqb m) (methodSet V)) (ifaceMethods T).

Definition directlyAssignable (T V : Typ) : bool :=
  typ_eqb T V
  || (negb (hasName T && hasName V)
      && kind_eqb (kindOf T) (kindOf V)
      && typ_eqb (underlying T) (underlying V)).

(** [V.AssignableTo(T)] *)
Definition AssignableTo `{GoRuntime} (V T : Typ) : bool :=
  directlyAssignable T V || implements T V.

(** The zero value of a type. *)
Definition zeroBasic (k : Kind) : val :=
  match k with
  | Bool => VBool false
  | Int | Int8 | Int16 | Int32 | Int64 => VInt 0
  | Uint | Uint8 | Uint16 | Uint32 | Uint64 | Uintptr => VUint 0
  | Float32 => VFloat32 0
  | Float64 => VFloat64 0
  | Complex64 | Complex128 => VComplex 0 0
  | String => VString ""
  | _ => VPtr None
  end.

Fixpoint zero (t : Typ) : val :=
  match t with
  | TBasic k => zeroBasic k
  | TPtr _ => VPtr None
  | TSlice _ => VSlice None
  | TStruct fs => VStruct (map (fun f => match f with mkField _ _ ft _ => zero ft end) fs)
  | TInterface _ => VIface None
  | TNamed _ _ u => zero u
  | TTime => VTime time.zero
  end.

(** *** The heap

    Every allocated variable has an address; a place is a variable or
    a field inside one, reached by a path of field indices. *)
Abbreviation Heap := (list val).
Abbreviation place := (loc * list nat)%type.

Fixpoint vget (v : val) (path : list nat) : option val :=
  match path with
  | [] => Some v
  | i :: rest =>
      match v with
      | VStruct fs => match fs !! i with Some f => vget f rest | None => None end
      | _ => None
      end
  end.

Fixpoint vset (v : val) (path : list nat) (x : val) : option val :=
  match path with
  | [] => Some x
  | i :: rest =>
      match v with
      | VStruct fs =>
          match fs !! i with
          | Some f =>
              match vset f rest x with
              | Some f' => Some (VStruct (<[i := f']> fs))
              | None => None
              end
          | None => None
          end
      | _ => None
      end
  end.

Definition load (p : place) (h : Heap) : option val :=
  match h !! p.1 with
  | Some v => vget v p.2
  | None => None
  end.

Definition store (p : place) (x : val) (h : Heap) : option Heap :=
  match h !! p.1 with
  | Some v =>
      match vset v p.2 x with
      | Some v' => Some (<[p.1 := v']> h)
      | None => None
      end
  | None => None
  end.

Definition read (p : place) : M Heap val :=
  fun h =>
    match load p h with
    | Some v => (Ok v, h)
    | None => (Panic "invalid memory address", h)
    end.

Definition write (p : place) (x : val) : M Heap unit :=
  fun h =>
    match store p x h with
    | Some h' => (Ok tt, h')
    | None => (Panic "invalid memory address", h)
    end.

(** *** [reflect.Value]

    The zero Value, a Value holding a copy of some data (what
    [ValueOf] returns: not addressable), or a Value standing for a
    variable (what [Elem] of a pointer and [Field] of such a Value
    return: addressable); [ro] is set when the variable was reached
    through an unexported field. *)
Inductive Value : Type :=
| Zero
| Val (t : Typ) (v : val)
| Var (t : Typ) (p : place) (ro : bool).

(** [reflect.TypeOf] *)
Definition TypeOf (i : iface) : option Typ :=
  match i with
  | Some (t, _) => Some t
  | None => None
  end.

(** [reflect.ValueOf] *)
Definition ValueOf (i : iface) : Value :=
  match i with
  | Some (t, v) => Val t v
  | None => Zero
  end.

(** [Type.Kind()] on a possibly nil [reflect.Type]. *)
Definition TypeKind (t : option Typ) : Res Kind :=
  match t with
  | Some t => Ok (kindOf t)
  | None => Panic "invalid memory address or nil pointer dereference"
  end.

(** [Type.Elem()] *)
Definition TypeElem (t : option Typ) : Res Typ :=
  match t with
  | Some t =>
      match underlying t with
      | TPtr e | TSlice e => Ok e
      | _ => Panic "reflect: Elem of invalid type"
      end
  | None => Panic "invalid memory address or nil pointer dereference"
  end.

(** [Type.Field(i)] *)
Definition TypeField (t : Typ) (i : nat) : Res StructField :=
  match structFields t with
  | Some fs =>
      match fs !! i with
      | Some f => Ok f
      | None => Panic "reflect: Field index out of bounds"
      end
  | None => Panic "reflect: Field of non-struct type"
  end.

(** [Value.Type()] *)
Definition Type_ (v : Value) : Res Typ :=
  match v with
  | Zero => Panic "reflect: call of reflect.Value.Type on zero Value"
  | Val t _ | Var t _ _ => Ok t
  end.

(** The data a Value stands for. *)
Definition dataOf (v : Value) : M Heap (Typ * val) :=
  match v with
  | Zero => panic "reflect: call on zero Value"
  | Val t x => ret (t, x)
  | Var t p _ => x <- read p ;; ret (t, x)
  end.

Definition nilable (k : Kind) : bool :=
  match k with
  | Chan | Func | Map | Ptr | UnsafePointer | Interface | Slice => true
  | _ => false
  end.

Definition isNilVal (x : val) : bool :=
  match x with
  | VPtr None | VSlice None | VIface None => true
  | _ => false
  end.

(** [Value.IsNil()]: panics unless the kind is one that has a nil. *)
Definition IsNil (v : Value) : M Heap bool :=
  match v with
  | Zero => panic "reflect: call of reflect.Value.IsNil on zero Value"
  | _ =>
      d <- dataOf v ;;
      if nilable (kindOf d.1) then ret (isNilVal d.2)
      else panic "reflect: call of reflect.Value.IsNil on a Value that has no nil"
  end.

Definition isRO (v : Value) : bool :=
  match v with
  | Var _ _ ro => ro
  | _ => false
  end.

(** [Value.Elem()] *)
Definition Elem (v : Value) : M Heap Value :=
  match v with
  | Zero => panic "reflect: call of reflect.Value.Elem on zero Value"
  | _ =>
      d <- dataOf v ;;
      match kindOf d.1 with
      | Ptr =>
          match d.2, underlying d.1 with
          | VPtr (Some l), TPtr e => ret (Var e (l, []) (isRO v))
          | _, _ => ret Zero
          end
      | Interface =>
          match d.2 with
          | VIface (Some (t, x)) => ret (Val t x)
          | _ => ret Zero
          end
      | _ => panic "reflect: call of reflect.Value.Elem on a Value that is no pointer or interface"
      end
  end.

(** [Value.CanSet()] *)
Definition CanSet (v : Value) : bool :=
  match v with
  | Var _ _ ro => negb ro
  | _ => false
  end.

(** [Value.NumField()] *)
Definition NumField (v : Value) : Res nat :=
  match v with
  | Zero => Panic "reflect: call of reflect.Value.NumField on zero Value"
  | Val t _ | Var t _ _ =>
      match structFields t with
      | Some fs => Ok (length fs)
      | None => Panic "reflect: call of reflect.Value.NumField on non-struct Value"
      end
  end.

(** [Value.Field(i)] *)
Definition Field (v : Value) (i : nat) : Res Value :=
  match v with
  | Zero => Panic "reflect: call of reflect.Value.Field on zero Value"
  | Val t x =>
      match structFields t with
      | Some fs =>
          match fs !! i, vget x [i] with
          | Some f, Some y => Ok (Val (fieldType f) y)
          | _, _ => Panic "reflect: Field index out of range"
          end
      | None => Panic "reflect: call of reflect.Value.Field on non-struct Value"
      end
  | Var t p ro =>
      match structFields t with
      | Some fs =>
          match fs !! i with
          | Some f => Ok (Var (fieldType f) (p.1, p.2 ++ [i]) (ro || negb (fieldExported f)))
          | None => Panic "reflect: Field index out of range"
          end
      | None => Panic "reflect: call of reflect.Value.Field on non-struct Value"
      end
  end.

(** [reflect.New(t)]: a pointer to a fresh zero variable of type [t]. *)
Definition New (t : Typ) : M Heap Value :=
  fun h => (Ok (Val (TPtr t) (VPtr (Some (length h)))), h ++ [zero t]).

(** [Value.Interface()] *)
Definition Interface_ (v : Value) : M Heap iface :=
  if isRO v then panic "reflect.Value.Interface: value obtained using unexported field"
  else
    d <- dataOf v ;;
    match kindOf d.1, d.2 with
    | Interface, VIface i => ret i
    | _, _ => ret (Some d)
    end.

(** What [Set] stores in a variable of type [t] for data [d]: the data
    itself, boxed when [t] is an interface type and [d] is not one. *)
Definition boxFor (t : Typ) (d : Typ * val) : val :=
  match kindOf t, kindOf d.1 with
  | Interface, Interface => d.2
  | Interface, _ => VIface (Some d)
  | _, _ => d.2
  end.

(** [v.Set(x)] *)
Definition SetValue `{GoRuntime} (v x : Value) : M Heap unit :=
  match v with
  | Var t p false =>
      if isRO x then panic "reflect.Value.Set using value obtained using unexported field"
      else
        d <- dataOf x ;;
        if AssignableTo d.1 t then write p (boxFor t d)
        else panic "reflect.Set: value is not assignable to type"
  | _ => panic "reflect.Value.Set using unaddressable value"
  end.

Definition wrapU (bits z : Z) : Z := (z mod 2 ^ bits)%Z.
Definition wrapS (bits z : Z) : Z :=
  ((z + 2 ^ (bits - 1)) mod 2 ^ bits - 2 ^ (bits - 1))%Z.

(** The width of an integer kind. *)
Definition bitsOf `{GoRuntime} (k : Kind) : Z :=
  match k with
  | Int8 | Uint8 => 8
  | Int16 | Uint16 => 16
  | Int32 | Uint32 => 32
  | Int64 | Uint64 => 64
  | _ => IntSize
  end%Z.

(** [v.SetInt(x)], [x] an int64: stored at the width of the kind. *)
Definition SetInt `{GoRuntime} (v : Value) (x : Z) : M Heap unit :=
  match v with
  | Var t p false =>
      match kindOf t with
      | Int | Int8 | Int16 | Int32 | Int64 => write p (VInt (wrapS (bitsOf (kindOf t)) x))
      | _ => panic "reflect: call of reflect.Value.SetInt on a Value that is no int"
      end
  | _ => panic "reflect.Value.SetInt using unaddressable value"
  end.

(** [v.SetUint(x)], [x] a uint64. *)
Definition SetUint `{GoRuntime} (v : Value) (x : Z) : M Heap unit :=
  match v with
  | Var t p false =>
      match kindOf t with
      | Uint | Uint8 | Uint16 | Uint32 | Uint64 | Uintptr =>
          write p (VUint (wrapU (bitsOf (kindOf t)) x))
      | _ => panic "reflect: call of reflect.Value.SetUint on a Value that is no uint"
      end
  | _ => panic "reflect.Value.SetUint using unaddressable value"
  end.

(** [v.SetFloat(x)], [x] a float64. *)
Definition SetFloat `{GoRuntime} (v : Value) (x : Z) : M Heap unit :=
  match v with
  | Var t p false =>
      match kindOf t with
      | Float32 => write p (VFloat32 (float32_of_float64 x))
      | Float64 => write p (VFloat64 x)
      | _ => panic "reflect: call of reflect.Value.SetFloat on a Value that is no float"
      end
  | _ => panic "reflect.Value.SetFloat using unaddressable value"
  end.

(** [v.SetString(x)] *)
Definition SetString (v : Value) (x : string) : M Heap unit :=
  match v with
  | Var t p false =>
      match kindOf t with
      | String => write p (VString x)
      | _ => panic "reflect: call of reflect.Value.SetString on a Value that is no string"
      end
  | _ => panic "reflect.Value.SetString using unaddressable value"
  end.

(** [reflect.MakeSlice(t, len, cap)] *)
Definition MakeSlice (t : Typ) (len cap : nat) : M Heap Value :=
  match underlying t with
  | TSlice e =>
      if (cap <? len)%nat then panic "reflect.MakeSlice: len > cap"
      else ret (Val t (VSlice (Some (replicate len (zero e)))))
  | _ => panic "reflect.MakeSlice of non-slice type"
  end.

(** [reflect.Append(s, x)] *)
Definition Append `{GoRuntime} (s x : Value) : M Heap Value :=
  ds <- dataOf s ;;
  match underlying ds.1 with
  | TSlice e =>
      if isRO x then panic "reflect.Append using value obtained using unexported field"
      else
        dx <- dataOf x ;;
        if AssignableTo dx.1 e then
          let old := match ds.2 with VSlice (Some l) => l | _ => [] end in
          ret (Val ds.1 (VSlice (Some (old ++ [boxFor e dx]))))
        else panic "reflect.Append: value is not assignable to type"
  | _ => panic "reflect: call of reflect.Append on non-slice Value"
  end.

End reflect.

(** ** The part of strconv the package calls *)

Module strconv.

Definition maxUint64 : Z := 2 ^ 64 - 1.

(** [lower(c)]: [c | ('x' - 'X')] *)
Definition lower (c : N) : N := N.lor c 32.

(** The digit a byte stands for, as the [switch] of [ParseUint] computes
    it; [None] is its [default] case. *)
Definition digitOf (c : N) : option N :=
  if (48 <=? c)%N && (c <=? 57)%N then Some (c - 48)%N
  else if (97 <=? lower c)%N && (lower c <=? 122)%N then Some (lower c - 97 + 10)%N
  else None.

(** The loop of [ParseUint(s, 10, 64)] over the bytes of [s], [n] the
    number read so far.  [None] stands for both errors of the function,
    [ErrSyntax] and [ErrRange]. *)
Fixpoint parseUintLoop (cs : list ascii) (n : Z) : option Z :=
  match cs with
  | [] => Some n
  | c :: rest =>
      match digitOf (N_of_ascii c) with
      | None => None
      | Some d =>
          if (10 <=? d)%N then None
          else if (maxUint64 / 10 + 1 <=? n)%Z then None
          else
            let n10 := (n * 10)%Z in
            let n1 := ((n10 + Z.of_N d) mod 2 ^ 64)%Z in
            if (n1 <? n10)%Z || (maxUint64 <? n1)%Z then None
            else parseUintLoop rest n1
      end
  end.

(** [strconv.ParseUint(s, 10, 64)] *)
Definition ParseUint (s : string) : option Z :=
  if String.eqb s "" then None
  else parseUintLoop (list_ascii_of_string s) 0.

(** [strconv.ParseInt(s, 10, 64)] *)
Definition ParseInt (s : string) : option Z :=
  match s with
  | EmptyString => None
  | String.String c rest =>
      let neg := Ascii.eqb c "-" in
      let s' := if Ascii.eqb c "+" || neg then rest else s in
      match ParseUint s' with
      | None => None
      | Some un =>
          let cutoff := (2 ^ 63)%Z in
          if negb neg && (cutoff <=? un)%Z then None
          else if neg && (cutoff <? un)%Z then None
          else
            let n := reflect.wrapS 64 un in
            Some (if neg then reflect.wrapS 64 (- n) else n)
      end
  end.

End strconv.

(** ** Package db_scan *)

Inductive error : Type :=
| ErrTargetNotSettable
| ErrConvertValue
| ErrUnSupportTypeConvert
| ErrSliceToString
| ErrEmptyResult
| ErrForeign (msg : string).  (* an error made outside the package, by the cursor *)

Definition DefaultTagName : string := "pg".
Definition DefaultTimeFormat : string := "2006-01-02 15:04:05".

(** A row as [ExtraDatasFromRows] builds it: [map[string]interface{}]. *)
Abbreviation Row := (gmap string reflect.iface).

(** The interface [IRows]: a cursor is a state, a method takes the state
    and gives its results and the next state.  [rows_Scan] is given the
    current contents of the slots it is passed pointers to and gives
    what it stored in them, from the first slot on. *)
Class IRows (R : Type) : Type := {
  rows_Close : R -> option error * R;
  rows_Columns : R -> (list string * option error) * R;
  rows_Next : R -> bool * R;
  rows_Scan : list reflect.iface -> R -> (list reflect.iface * option error) * R
}.

Definition getObjectType (obj : reflect.iface) : option reflect.Typ :=
  reflect.TypeOf obj.

Definition getObjectValue (obj : reflect.iface) : reflect.Value :=
  reflect.ValueOf obj.

Definition getPtrObjectValue (obj : reflect.iface) : M reflect.Heap reflect.Value :=
  reflect.Elem (reflect.ValueOf obj).

Definition getPtrObjectType (obj : reflect.iface) : Res reflect.Typ :=
  reflect.TypeElem (reflect.TypeOf obj).

Definition isFloat (k : reflect.Kind) : bool :=
  reflect.kind_eqb k reflect.Float32 || reflect.kind_eqb k reflect.Float64.

Definition isSignedInteger (k : reflect.Kind) : bool :=
  (reflect.code reflect.Int <=? reflect.code k)%N
  && (reflect.code k <=? reflect.code reflect.Int64)%N.

Definition isUnsignedInteger (k : reflect.Kind) : bool :=
  (reflect.code reflect.Uint <=? reflect.code k)%N
  && (reflect.code k <=? reflect.code reflect.Uintptr)%N.

Definition isInteger (k : reflect.Kind) : bool :=
  isSignedInteger k || isUnsignedInteger k.

(** The type switch [case time.Time]. *)
Definition asTime (i : reflect.iface) : option time.Time :=
  match i with
  | Some (reflect.TTime, reflect.VTime t) => Some t
  | _ => None
  end.

(** The type assertions [x.(int64)], [x.(float32)], [x.(float64)]: they
    panic on any other dynamic type. *)
Definition assertInt64 (i : reflect.iface) : Res Z :=
  match i with
  | Some (reflect.TBasic reflect.Int64, reflect.VInt z) => Ok z
  | _ => Panic "interface conversion: interface {} is not int64"
  end.

Definition assertFloat32 (i : reflect.iface) : Res Z :=
  match i with
  | Some (reflect.TBasic reflect.Float32, reflect.VFloat32 b) => Ok b
  | _ => Panic "interface conversion: interface {} is not float32"
  end.

Definition assertFloat64 (i : reflect.iface) : Res Z :=
  match i with
  | Some (reflect.TBasic reflect.Float64, reflect.VFloat64 b) => Ok b
  | _ => Panic "interface conversion: interface {} is not float64"
  end.

(** The type assertion [x.([]byte)] in its two-result form. *)
Definition assertBytes (i : reflect.iface) : option (list reflect.val) :=
  match i with
  | Some (reflect.TSlice (reflect.TBasic reflect.Uint8), reflect.VSlice s) =>
      Some (match s with Some l => l | None => [] end)
  | _ => None
  end.

Definition byteOf (v : reflect.val) : ascii :=
  match v with
  | reflect.VUint z => ascii_of_N (Z.to_N z)
  | _ => Ascii.zero
  end.

(** [string(b)] for [b []byte]: the bytes themselves. *)
Definition stringOfBytes (l : list reflect.val) : string :=
  string_of_list_ascii (map byteOf l).

Section Package.
Context `{RT : GoRuntime}.

Definition handleConvertTime (assertT : time.Time) (mvt : reflect.Typ)
    (valueI : reflect.Value) : M reflect.Heap (option error) :=
  t <- lift (reflect.Type_ valueI) ;;
  if reflect.kind_eqb (reflect.kindOf t) reflect.String then
    let str := time_Format assertT DefaultTimeFormat in
    reflect.SetString valueI str ;;;
    ret None
  else ret (Some ErrConvertValue).

Definition handleConvertMapSliceToField (mapValue : reflect.iface)
    (rTargetValPtr : reflect.Value) : M reflect.Heap (option error) :=
  t <- lift (reflect.Type_ rTargetValPtr) ;;
  let rTargetValKind := reflect.kindOf t in
  match assertBytes mapValue with
  | None => ret (Some ErrSliceToString)
  | Some mapValueSlice =>
      let mapValueStr := stringOfBytes mapValueSlice in
      if reflect.kind_eqb rTargetValKind reflect.String then
        reflect.SetString rTargetValPtr mapValueStr ;;;
        ret None
      else if isSignedInteger rTargetValKind then
        match strconv.ParseInt mapValueStr with
        | None => ret (Some ErrConvertValue)
        | Some intVal => reflect.SetInt rTargetValPtr intVal ;;; ret None
        end
      else if isUnsignedInteger rTargetValKind then
        match strconv.ParseUint mapValueStr with
        | None => ret (Some ErrConvertValue)
        | Some uintVal => reflect.SetUint rTargetValPtr uintVal ;;; ret None
        end
      else if isFloat rTargetValKind then
        match ParseFloat64 mapValueStr with
        | None => ret (Some ErrConvertValue)
        | Some floatVal => reflect.SetFloat rTargetValPtr floatVal ;;; ret None
        end
      else ret (Some ErrUnSupportTypeConvert)
  end.

Definition directSet (sourceVal : reflect.iface) (rTargetVal : reflect.Value)
    : M reflect.Heap bool :=
  match reflect.TypeOf sourceVal with
  | None => ret true
  | Some sourceType =>
      targetType <- lift (reflect.Type_ rTargetVal) ;;
      if reflect.AssignableTo sourceType targetType then
        reflect.SetValue rTargetVal (reflect.ValueOf sourceVal) ;;;
        ret true
      else ret false
  end.

Definition valueConvert (sourceVal : reflect.iface) (rTargetVal : reflect.Value)
    : M reflect.Heap (option error) :=
  match reflect.TypeOf sourceVal with
  | None => ret None
  | Some sourceType =>
      targetType <- lift (reflect.Type_ rTargetVal) ;;
      done <- directSet sourceVal rTargetVal ;;
      if done then ret None
      else
        match asTime sourceVal with
        | Some assertT => handleConvertTime assertT sourceType rTargetVal
        | None =>
            match reflect.kindOf sourceType with
            | reflect.Slice => handleConvertMapSliceToField sourceVal rTargetVal
            | reflect.Int64 =>
                if isSignedInteger (reflect.kindOf targetType) then
                  x <- lift (assertInt64 sourceVal) ;;
                  reflect.SetInt rTargetVal x ;;;
                  ret None
                else if isUnsignedInteger (reflect.kindOf targetType) then
                  x <- lift (assertInt64 sourceVal) ;;
                  reflect.SetUint rTargetVal (reflect.wrapU 64 x) ;;;
                  ret None
                else ret None
            | reflect.Float32 =>
                if isFloat (reflect.kindOf targetType) then
                  x <- lift (assertFloat32 sourceVal) ;;
                  reflect.SetFloat rTargetVal (float64_of_float32 x) ;;;
                  ret None
                else ret None
            | reflect.Float64 =>
                if isFloat (reflect.kindOf targetType) then
                  x <- lift (assertFloat64 sourceVal) ;;
                  reflect.SetFloat rTargetVal x ;;;
                  ret None
                else ret None
            | _ => ret (Some ErrConvertValue)
            end
        end
  end.

(** The body of the loop over the fields of [singleResult], for the
    field indices [idxs] still to visit. *)
Fixpoint fieldLoop (result : Row) (typeObj : reflect.Typ) (valueObj : reflect.Value)
    (idxs : list nat) : M reflect.Heap (option error) :=
  match idxs with
  | [] => ret None
  | i :: rest =>
      fieldTypeI <- lift (reflect.TypeField typeObj i) ;;
      valueI <- lift (reflect.Field valueObj i) ;;
      if negb (reflect.CanSet valueI) then fieldLoop result typeObj valueObj rest
      else
        match reflect.Lookup (reflect.fieldTag fieldTypeI) DefaultTagName with
        | None => fieldLoop result typeObj valueObj rest
        | Some tagName =>
            if String.eqb tagName "" then fieldLoop result typeObj valueObj rest
            else
              match result !! tagName with
              | None => fieldLoop result typeObj valueObj rest
              | Some mapValue =>
                  err <- valueConvert mapValue valueI ;;
                  match err with
                  | Some e => ret (Some e)
                  | None => fieldLoop result typeObj valueObj rest
                  end
              end
        end
  end.

(** [singleResult], with a bound [depth] on the nesting of its calls. *)
Fixpoint singleResultRec (depth : nat) (result : Row) (target : reflect.iface)
    : M reflect.Heap (option error) :=
  match depth with
  | O => lift OutOfFuel
  | S depth' =>
      valueObj <- getPtrObjectValue target ;;
      if negb (reflect.CanSet valueObj) then ret (Some ErrTargetNotSettable)
      else
        typeObj <- lift (getPtrObjectType target) ;;
        let kind := reflect.kindOf typeObj in
        if reflect.kind_eqb kind reflect.Ptr then
          elemT <- lift (reflect.TypeElem (Some typeObj)) ;;
          targetInstance <- reflect.New elemT ;;
          ti <- reflect.Interface_ targetInstance ;;
          err <- singleResultRec depth' result ti ;;
          match err with
          | None => reflect.SetValue valueObj targetInstance ;;; ret err
          | Some _ => ret err
          end
        else
          n <- lift (reflect.NumField valueObj) ;;
          fieldLoop result typeObj valueObj (seq 0 n)
  end.

(** The number of pointer types a type is nested in: [singleResult]
    calls itself once for each. *)
Fixpoint ptrDepth (t : reflect.Typ) : nat :=
  match t with
  | reflect.TPtr e => S (ptrDepth e)
  | reflect.TNamed _ _ u => ptrDepth u
  | _ => O
  end.

Definition depthOf (target : reflect.iface) : nat :=
  match target with
  | Some (t, _) => ptrDepth t
  | None => O
  end.

Definition singleResult (result : Row) (target : reflect.iface)
    : M reflect.Heap (option error) :=
  singleResultRec (S (depthOf target)) result target.

(** The loop of [multiResults] over the rows still to bind: it gives the
    error it returns with, or the slice built. *)
Fixpoint multiLoop (typeObj : reflect.Typ) (arr : list Row) (valueSliceObj : reflect.Value)
    : M reflect.Heap (error + reflect.Value) :=
  match arr with
  | [] => ret (inr valueSliceObj)
  | row :: rest =>
      elemT <- lift (reflect.TypeElem (Some typeObj)) ;;
      target <- reflect.New elemT ;;
      ti <- reflect.Interface_ target ;;
      err <- singleResult row ti ;;
      match err with
      | Some e => ret (inl e)
      | None =>
          el <- reflect.Elem target ;;
          valueSliceObj' <- reflect.Append valueSliceObj el ;;
          multiLoop typeObj rest valueSliceObj'
      end
  end.

Definition multiResults (arr : list Row) (target : reflect.iface)
    : M reflect.Heap (option error) :=
  valueObj <- getPtrObjectValue target ;;
  if negb (reflect.CanSet valueObj) then ret (Some ErrTargetNotSettable)
  else
    let length := length arr in
    vt <- lift (reflect.Type_ valueObj) ;;
    valueSliceObj <- reflect.MakeSlice vt 0 length ;;
    typeObj <- lift (reflect.Type_ valueSliceObj) ;;
    r <- multiLoop typeObj arr valueSliceObj ;;
    match r with
    | inl e => ret (Some e)
    | inr valueSliceObj' =>
        reflect.SetValue valueObj valueSliceObj' ;;;
        ret None
    end.

End Package.

Section Cursor.
Context `{RT : GoRuntime} {R : Type} `{IR : IRows R}.

(** What a call of [rows.Scan(values...)] leaves in the slots. *)
Fixpoint fill (slots new : list reflect.iface) : list reflect.iface :=
  match slots, new with
  | _ :: ss, n :: ns => n :: fill ss ns
  | ss, [] => ss
  | [], _ => []
  end.

(** [mp[name] = *values[idx]] for every column, in order. *)
Definition rowMap (columns : list string) (values : list reflect.iface) : Row :=
  foldl (fun mp '(name, v) => <[name := v]> mp) ∅ (zip columns values).

(** The loop [for rows.Next()] of [ExtraDatasFromRows]. *)
Fixpoint extraLoop (fuel : nat) (columns : list string) (values : list reflect.iface)
    (result : list Row) : M R (list Row * option error) :=
  match fuel with
  | O => lift OutOfFuel
  | S fuel' =>
      fun rows =>
        let '(more, rows1) := rows_Next rows in
        if more then
          let '((new, err), rows2) := rows_Scan values rows1 in
          match err with
          | Some e => (Ok ([], Some e), rows2)
          | None =>
              let values' := fill values new in
              extraLoop fuel' columns values' (result ++ [rowMap columns values']) rows2
          end
        else (Ok (result, None), rows1)
  end.

(** [ExtraDatasFromRows]; a nil slice of rows is the empty list. *)
Definition ExtraDatasFromRows (fuel : nat) : M R (list Row * option error) :=
  fun rows =>
    let '((columns, err), rows1) := rows_Columns rows in
    match err with
    | Some e => (Ok ([], Some e), rows1)
    | None =>
        let length := length columns in
        let values := replicate length (None : reflect.iface) in
        extraLoop fuel columns values [] rows1
    end.

Definition onHeap {A : Type} (m : M reflect.Heap A) : M (R * reflect.Heap) A :=
  fun s => let '(r, h) := m s.2 in (r, (s.1, h)).

Definition onRows {A : Type} (m : M R A) : M (R * reflect.Heap) A :=
  fun s => let '(r, rows) := m s.1 in (r, (rows, s.2)).

(** [Scan]: the state is the cursor and the heap. *)
Definition Scan (fuel : nat) (target : reflect.iface) : M (R * reflect.Heap) (option error) :=
  match target with
  | None => ret (Some ErrTargetNotSettable)
  | Some _ =>
      isnil <- onHeap (reflect.IsNil (getObjectValue target)) ;;
      if isnil then ret (Some ErrTargetNotSettable)
      else
        k <- lift (reflect.TypeKind (getObjectType target)) ;;
        if negb (reflect.kind_eqb k reflect.Ptr) then ret (Some ErrTargetNotSettable)
        else
          de <- onRows (ExtraDatasFromRows fuel) ;;
          let '(datas, err) := de in
          match err with
          | Some e => ret (Some e)
          | None =>
              t <- lift (getPtrObjectType target) ;;
              match reflect.kindOf t with
              | reflect.Slice =>
                  match datas with
                  | [] => ret None
                  | _ => onHeap (multiResults datas target)
                  end
              | _ =>
                  match datas with
                  | [] => ret (Some ErrEmptyResult)
                  | first :: _ => onHeap (singleResult first target)
                  end
              end
          end
  end.

End Cursor.

(** ** A runtime and a cursor to run the package on *)

(** A 64-bit platform.  The float conversions, [ParseFloat] and [Format]
    are stand-ins: the examples below only need them to be functions. *)
Definition sampleRuntime : GoRuntime := {|
  IntSize := 64;
  float64_of_float32 := fun b => b;
  float32_of_float64 := fun b => b;
  ParseFloat64 := fun _ => None;
  time_Format := fun _ layout => layout;
  time_methods := ["Format"; "String"; "Unix"]
|}.

(** A cursor over rows held in memory, which counts the calls made to it.
    Each pending row is what [Scan] stores for it and the error it
    returns. *)
Record ListRows : Type := mkListRows {
  lr_columns : list string * option error;
  lr_pending : list (list reflect.iface * option error);
  lr_current : list reflect.iface * option error;
  lr_calls : nat
}.

#[global] Instance ListRows_IRows : IRows ListRows := {|
  rows_Close := fun r =>
    (None, mkListRows (lr_columns r) (lr_pending r) (lr_current r) (S (lr_calls r)));
  rows_Columns := fun r =>
    (lr_columns r, mkListRows (lr_columns r) (lr_pending r) (lr_current r) (S (lr_calls r)));
  rows_Next := fun r =>
    match lr_pending r with
    | [] => (false, mkListRows (lr_columns r) [] (lr_current r) (S (lr_calls r)))
    | row :: rest => (true, mkListRows (lr_columns r) rest row (S (lr_calls r)))
    end;
  rows_Scan := fun _ r =>
    (lr_current r, mkListRows (lr_columns r) (lr_pending r) (lr_current r) (S (lr_calls r)))
|}.

Definition int64T : reflect.Typ := reflect.TBasic reflect.Int64.
Definition stringT : reflect.Typ := reflect.TBasic reflect.String.
Definition bytesT : reflect.Typ := reflect.TSlice (reflect.TBasic reflect.Uint8).
Definition emptyInterfaceT : reflect.Typ := reflect.TInterface [].

(** The raw values a cursor yields. *)
Definition rawInt64 (z : Z) : reflect.iface := Some (int64T, reflect.VInt z).
Definition rawFloat32 (b : Z) : reflect.iface :=
  Some (reflect.TBasic reflect.Float32, reflect.VFloat32 b).
Definition rawFloat64 (b : Z) : reflect.iface :=
  Some (reflect.TBasic reflect.Float64, reflect.VFloat64 b).
Definition rawTime (t : time.Time) : reflect.iface := Some (reflect.TTime, reflect.VTime t).
Definition rawBytes (s : string) : reflect.iface :=
  Some (bytesT,
        reflect.VSlice (Some (map (fun c => reflect.VUint (Z.of_N (N_of_ascii c)))
                                  (list_ascii_of_string s)))).

(** [struct { Id int64 `pg:"id"`; Name string `pg:"name"`; Note string }] *)
Definition userT : reflect.Typ :=
  reflect.TStruct
    [ reflect.mkField "Id" true int64T [("pg", "id")];
      reflect.mkField "Name" true stringT [("pg", "name")];
      reflect.mkField "Note" true stringT [] ].

(** A pointer to the variable at address [l], of type [*t]. *)
Definition ptrTo (t : reflect.Typ) (l : reflect.loc) : reflect.iface :=
  Some (reflect.TPtr t, reflect.VPtr (Some l)).

(** Two rows of a table of users, and a cursor over them. *)
Definition sampleRows : ListRows :=
  mkListRows (["id"; "name"], None)
    [ ([rawInt64 1; rawBytes "Alice"], None); ([rawInt64 2; rawBytes "Bob"], None) ]
    ([], None) 0.

Definition aliceRow : Row := <["name" := rawBytes "Alice"]> (<["id" := rawInt64 1]> ∅).
Definition bobRow : Row := <["name" := rawBytes "Bob"]> (<["id" := rawInt64 2]> ∅).

(** A row whose [id] is no number. *)
Definition badRow : Row := <["name" := rawBytes "Eve"]> (<["id" := rawBytes "x"]> ∅).

(** A [userT] record. *)
Definition user (id : Z) (name note : string) : reflect.val :=
  reflect.VStruct [reflect.VInt id; reflect.VString name; reflect.VString note].

(** [n] levels of pointer around [t]. *)
Fixpoint ptrN (n : nat) (t : reflect.Typ) : reflect.Typ :=
  match n with
  | O => t
  | S k => reflect.TPtr (ptrN k t)
  end.

(** The pointers that [n] nested calls of [singleResult] store on their
    way back: the variable at [l] is made to point to the variable at
    [a], that one to the one at [a + 1], and so on. *)
Fixpoint linkChain (l a : reflect.loc) (n : nat) (h : reflect.Heap) : reflect.Heap :=
  match n with
  | O => h
  | S k => <[l := reflect.VPtr (Some a)]> (linkChain a (S a) k h)
  end.

(** The address reached from the variable at [l] through [n] pointers. *)
Fixpoint follow (n : nat) (l : reflect.loc) (h : reflect.Heap) : option reflect.loc :=
  match n with
  | O => Some l
  | S k =>
      match h !! l with
      | Some (reflect.VPtr (Some a)) => follow k a h
      | _ => None
      end
  end.

(** The variable a destination points to. *)
Definition targetLoc (target : reflect.iface) : option reflect.loc :=
  match target with
  | Some (_, reflect.VPtr (Some l)) => Some l
  | _ => None
  end.

(** One turn of the loop of [multiResults]: a new element is allocated
    and the row is bound into it. *)
Definition bindElement `{RT : GoRuntime} (typeObj : reflect.Typ) (row : Row)
    : M reflect.Heap (option error) :=
  elemT <- lift (reflect.TypeElem (Some typeObj)) ;;
  target <- reflect.New elemT ;;
  ti <- reflect.Interface_ target ;;
  singleResult row ti.

(** The resolution of indirection as section 4.2 of the specification
    words it, to compare [singleResult] with: at each level, a location
    that holds no value is given a fresh zero instance, which is written
    back before descending; a location that holds a value is descended
    into. *)
Fixpoint singleResultBySpec `{RT : GoRuntime} (depth : nat) (result : Row)
    (target : reflect.iface) : M reflect.Heap (option error) :=
  match depth with
  | O => lift OutOfFuel
  | S depth' =>
      valueObj <- getPtrObjectValue target ;;
      if negb (reflect.CanSet valueObj) then ret (Some ErrTargetNotSettable)
      else
        typeObj <- lift (getPtrObjectType target) ;;
        if reflect.kind_eqb (reflect.kindOf typeObj) reflect.Ptr then
          cur <- reflect.dataOf valueObj ;;
          match cur.2 with
          | reflect.VPtr (Some l) =>
              singleResultBySpec depth' result (Some (typeObj, reflect.VPtr (Some l)))
          | _ =>
              elemT <- lift (reflect.TypeElem (Some typeObj)) ;;
              targetInstance <- reflect.New elemT ;;
              reflect.SetValue valueObj targetInstance ;;;
              ti <- reflect.Interface_ targetInstance ;;
              singleResultBySpec depth' result ti
          end
        else
          n <- lift (reflect.NumField valueObj) ;;
          fieldLoop result typeObj valueObj (seq 0 n)
  end.

(** [stores v h h']: going from [h] to [h'] took at most one store, into
    the place [v] stands for. *)
Definition stores (v : reflect.Value) (h h' : reflect.Heap) : Prop :=
  h' = h \/ exists t p ro x, v = reflect.Var t p ro /\ reflect.store p x h = Some h'.

(** What [SetFloat] stores in a field of kind [k]. *)
Definition floatFor `{RT : GoRuntime} (k : reflect.Kind) (x : Z) : reflect.val :=
  if reflect.kind_eqb k reflect.Float32 then reflect.VFloat32 (float32_of_float64 x)
  else reflect.VFloat64 x.

(** The raw value is an int64 and the field is not of an integer kind,
    or the raw value is a float32 or a float64 and the field is not of a
    float kind. *)
Definition numericMismatch (sT T : reflect.Typ) : bool :=
  match sT with
  | reflect.TBasic reflect.Int64 => negb (isInteger (reflect.kindOf T))
  | reflect.TBasic reflect.Float32 | reflect.TBasic reflect.Float64 =>
      negb (isFloat (reflect.kindOf T))
  | _ => false
  end.

(** Field [i] of [T] carries no binding: it has no [pg] tag, or an
    empty one. *)
Definition unbound (T : reflect.Typ) (i : nat) : Prop :=
  forall f, reflect.TypeField T i = Ok f ->
    reflect.Lookup (reflect.fieldTag f) DefaultTagName = None
    \/ reflect.Lookup (reflect.fieldTag f) DefaultTagName = Some "".

(** Field [i] of [T] is not bound by [row]: it is unexported, or has no
    [pg] tag or an empty one, or its column is absent from the row, or
    the column holds nil. *)
Definition inert (T : reflect.Typ) (row : Row) (i : nat) : Prop :=
  forall f, reflect.TypeField T i = Ok f ->
    reflect.fieldExported f = false
    \/ match reflect.Lookup (reflect.fieldTag f) DefaultTagName with
       | None => True
       | Some name => name = "" \/ row !! name = None \/ row !! name = Some None
       end.

(** What a conversion does, whatever heap it runs on: it returns or
    panics without storing, or it stores one value into its target and
    returns nil. *)
Inductive effect : Type :=
| Returns (r : Res (option error))
| Stores (x : reflect.val).

Definition runEffect (c : effect) (p : reflect.place) : M reflect.Heap (option error) :=
  match c with
  | Returns r => lift r
  | Stores x => reflect.write p x ;;; ret None
  end.

(** The rows [ExtraDatasFromRows] builds when the calls of [rows.Scan]
    store [pending], one list of values per row, into slots that hold
    [slots] before the first call. *)
Fixpoint extracted (columns : list string) (slots : list reflect.iface)
    (pending : list (list reflect.iface)) : list Row :=
  match pending with
  | [] => []
  | new :: rest =>
      let slots' := fill slots new in
      rowMap columns slots' :: extracted columns slots' rest
  end.

(** The three errors of the converter. *)
Definition conversionError (e : error) : Prop :=
  e = ErrConvertValue \/ e = ErrUnSupportTypeConvert \/ e = ErrSliceToString.

(** A computation that never reaches the bound on the loops. *)
Definition noFuel {St A : Type} (m : M St A) : Prop :=
  forall s, (m s).1 <> OutOfFuel.

(** Field [i] of the record that the variable at [l] leads to through
    [n] pointers: what the caller reads as the field of a destination
    [n] pointers deep. *)
Definition fieldThrough (n : nat) (l : reflect.loc) (i : nat) (h : reflect.Heap)
    : option reflect.val :=
  match follow n l h with
  | Some d => reflect.load (d, [i]) h
  | None => None
  end.

(** * Properties *)

(** ** Kinds and types *)

Lemma code_inj (a b : reflect.Kind) : reflect.code a = reflect.code b -> a = b.
Proof. destruct a, b; simpl; intros E; first [reflexivity | discriminate E]. Qed.

Lemma kind_eqb_eq (a b : reflect.Kind) : reflect.kind_eqb a b = true <-> a = b.
Proof.
  unfold reflect.kind_eqb. rewrite N.eqb_eq. split.
  - apply code_inj.
  - intros ->. reflexivity.
Qed.

Lemma kind_eqb_neq (a b : reflect.Kind) : reflect.kind_eqb a b = false <-> a <> b.
Proof.
  rewrite <- kind_eqb_eq. destruct (reflect.kind_eqb a b); split; congruence.
Qed.

Lemma kind_eqb_refl (a : reflect.Kind) : reflect.kind_eqb a a = true.
Proof. apply kind_eqb_eq. reflexivity. Qed.

Lemma kindOf_underlying (t : reflect.Typ) :
  reflect.kindOf (reflect.underlying t) = reflect.kindOf t.
Proof. induction t; simpl; auto. Qed.

Lemma typ_eqb_kind (a : reflect.Typ) :
  forall b, reflect.typ_eqb a b = true -> reflect.kindOf a = reflect.kindOf b.
Proof.
  induction a as [k|e IH|e IH|fs|ms|n ms u IH|]; intros [k'|e'|e'|fs'|ms'|n' ms' u'|];
    simpl; intros E; try discriminate E; try reflexivity.
  - apply kind_eqb_eq; exact E.
  - apply IH. apply andb_true_iff in E. apply E.
Qed.

Lemma typ_eqb_refl : forall t : reflect.Typ, reflect.typ_eqb t t = true.
Proof.
  fix IH 1. intros [k|e|e|fs|ms|n ms u|]; simpl.
  - apply kind_eqb_refl.
  - apply IH.
  - apply IH.
  - induction fs as [|[n e t tg] r IHr]; [reflexivity|].
    simpl. rewrite String.eqb_refl, Bool.eqb_reflx, (IH t). simpl.
    unfold reflect.tag_eqb. rewrite bool_decide_eq_true_2 by reflexivity.
    exact IHr.
  - unfold reflect.names_eqb. apply bool_decide_eq_true_2. reflexivity.
  - rewrite String.eqb_refl, (IH u). unfold reflect.names_eqb.
    rewrite bool_decide_eq_true_2 by reflexivity. reflexivity.
  - reflexivity.
Qed.

(** ** The heap *)

Lemma vset_is_Some (path : list nat) :
  forall v x, is_Some (reflect.vget v path) -> is_Some (reflect.vset v path x).
Proof.
  induction path as [|i rest IH]; intros v x Hv; simpl in *.
  - eauto.
  - destruct v; try (destruct Hv as [? Hv]; discriminate Hv).
    destruct (fs !! i) as [f|] eqn:Ef; [|destruct Hv as [? Hv]; discriminate Hv].
    destruct (IH f x Hv) as [f' ->]. eauto.
Qed.

Lemma store_is_Some (p : reflect.place) (x : reflect.val) (h : reflect.Heap) :
  is_Some (reflect.load p h) -> is_Some (reflect.store p x h).
Proof.
  unfold reflect.load, reflect.store. destruct (h !! p.1) as [v|]; intros Hv.
  - destruct (vset_is_Some p.2 v x Hv) as [v' ->]. eauto.
  - destruct Hv as [? Hv]; discriminate Hv.
Qed.

Lemma store_length (p : reflect.place) (x : reflect.val) (h h' : reflect.Heap) :
  reflect.store p x h = Some h' -> length h' = length h.
Proof.
  unfold reflect.store. destruct (h !! p.1); [|discriminate].
  destruct (reflect.vset _ _ _); [|discriminate].
  intros [= <-]. apply length_insert.
Qed.

Lemma store_lookup_ne (p : reflect.place) (x : reflect.val) (h h' : reflect.Heap) (l : reflect.loc) :
  reflect.store p x h = Some h' -> l <> p.1 -> h' !! l = h !! l.
Proof.
  unfold reflect.store. destruct (h !! p.1); [|discriminate].
  destruct (reflect.vset _ _ _); [|discriminate].
  intros [= <-] Hne. apply list_lookup_insert_ne. congruence.
Qed.

Lemma store_root (l : reflect.loc) (x v : reflect.val) (h : reflect.Heap) :
  h !! l = Some v -> reflect.store (l, []) x h = Some (<[l := x]> h).
Proof. unfold reflect.store. simpl. intros ->. reflexivity. Qed.

(** A store into one field leaves the other fields of the variable as
    they were. *)
Lemma store_load_other_field (l : reflect.loc) (i j : nat) (x : reflect.val)
    (h h' : reflect.Heap) :
  reflect.store (l, [j]) x h = Some h' -> i <> j ->
  reflect.load (l, [i]) h' = reflect.load (l, [i]) h.
Proof.
  unfold reflect.store, reflect.load. simpl.
  destruct (h !! l) as [v|] eqn:Hl; [|discriminate].
  destruct v; try discriminate.
  destruct (fs !! j) as [y|] eqn:Hj; [|discriminate].
  intros [= <-] Hne.
  rewrite list_lookup_insert_eq by (eapply lookup_lt_Some; eauto).
  rewrite list_lookup_insert_ne by congruence. reflexivity.
Qed.

(** ** What the setters of reflect store *)

Lemma write_stores t p ro x h r h' :
  reflect.write p x h = (r, h') -> stores (reflect.Var t p ro) h h'.
Proof.
  unfold reflect.write. destruct (reflect.store p x h) eqn:E; intros [= <- <-].
  - right. eauto 6.
  - left. reflexivity.
Qed.

Lemma bind_ret_inv {St A B : Type} (m : M St A) (b : B) (s s' : St) (r : Res B) :
  bind m (fun _ => ret b) s = (r, s') -> exists r0, m s = (r0, s').
Proof.
  unfold bind, ret. destruct (m s) as [[a|msg|] s1]; intros [= <- <-]; eauto.
Qed.

Section Setters.
Context `{RT : GoRuntime}.

Lemma AssignableTo_kind (V T : reflect.Typ) :
  reflect.AssignableTo V T = true ->
  reflect.kindOf T = reflect.kindOf V \/ reflect.kindOf T = reflect.Interface.
Proof.
  unfold reflect.AssignableTo, reflect.directlyAssignable, reflect.implements.
  rewrite !orb_true_iff, !andb_true_iff.
  intros [[E|[[_ E] _]]|[E _]].
  - left. apply typ_eqb_kind. exact E.
  - left. apply kind_eqb_eq. exact E.
  - right. apply kind_eqb_eq. exact E.
Qed.

Lemma AssignableTo_refl (T : reflect.Typ) : reflect.AssignableTo T T = true.
Proof.
  unfold reflect.AssignableTo, reflect.directlyAssignable.
  rewrite typ_eqb_refl. reflexivity.
Qed.

Lemma SetString_stores v s h r h' :
  reflect.SetString v s h = (r, h') -> stores v h h'.
Proof.
  destruct v as [| |t p [|]]; simpl; try (intros [= <- <-]; left; reflexivity).
  destruct (reflect.kindOf t); try (intros [= <- <-]; left; reflexivity).
  apply write_stores.
Qed.

Lemma SetInt_stores v x h r h' :
  reflect.SetInt v x h = (r, h') -> stores v h h'.
Proof.
  destruct v as [| |t p [|]]; simpl; try (intros [= <- <-]; left; reflexivity).
  destruct (reflect.kindOf t); try (intros [= <- <-]; left; reflexivity);
    apply write_stores.
Qed.

Lemma SetUint_stores v x h r h' :
  reflect.SetUint v x h = (r, h') -> stores v h h'.
Proof.
  destruct v as [| |t p [|]]; simpl; try (intros [= <- <-]; left; reflexivity).
  destruct (reflect.kindOf t); try (intros [= <- <-]; left; reflexivity);
    apply write_stores.
Qed.

Lemma SetFloat_stores v x h r h' :
  reflect.SetFloat v x h = (r, h') -> stores v h h'.
Proof.
  destruct v as [| |t p [|]]; simpl; try (intros [= <- <-]; left; reflexivity).
  destruct (reflect.kindOf t); try (intros [= <- <-]; left; reflexivity);
    apply write_stores.
Qed.

Lemma dataOf_heap v h r h' : reflect.dataOf v h = (r, h') -> h' = h.
Proof.
  destruct v as [|t x|t p ro]; simpl; unfold panic, ret, bind, reflect.read.
  - intros [= <- <-]. reflexivity.
  - intros [= <- <-]. reflexivity.
  - destruct (reflect.load p h); intros [= <- <-]; reflexivity.
Qed.

Lemma SetValue_stores v x h r h' :
  reflect.SetValue v x h = (r, h') -> stores v h h'.
Proof.
  destruct v as [| |t p [|]]; simpl; try (intros [= <- <-]; left; reflexivity).
  destruct (reflect.isRO x); [intros [= <- <-]; left; reflexivity|].
  unfold bind. destruct (reflect.dataOf x h) as [[d|msg|] h1] eqn:E;
    apply dataOf_heap in E; subst h1; try (intros [= <- <-]; left; reflexivity).
  destruct (reflect.AssignableTo d.1 t); [|intros [= <- <-]; left; reflexivity].
  apply write_stores.
Qed.

End Setters.

(** ** The value converter *)

Lemma bind_lift_Ok {St A B : Type} (a : A) (k : A -> M St B) (s : St) :
  bind (lift (Ok a)) k s = k a s.
Proof. reflexivity. Qed.

Lemma bind_ret {St A B : Type} (a : A) (k : A -> M St B) (s : St) :
  bind (ret a) k s = k a s.
Proof. reflexivity. Qed.

Lemma bind_eq {St A B : Type} (m : M St A) (k : A -> M St B) (s : St) :
  bind m k s =
  match m s with
  | (Ok a, s') => k a s'
  | (Panic msg, s') => (Panic msg, s')
  | (OutOfFuel, s') => (OutOfFuel, s')
  end.
Proof. reflexivity. Qed.

Section Converter.
Context `{RT : GoRuntime}.

Lemma directSet_Var sT sv T p h :
  directSet (Some (sT, sv)) (reflect.Var T p false) h =
  if reflect.AssignableTo sT T then
    match reflect.store p (reflect.boxFor T (sT, sv)) h with
    | Some h' => (Ok true, h')
    | None => (Panic "invalid memory address", h)
    end
  else (Ok false, h).
Proof.
  unfold directSet, reflect.SetValue, bind, ret, lift, reflect.write. simpl.
  destruct (reflect.AssignableTo sT T) eqn:HA; simpl; rewrite ?HA; [|reflexivity].
  destruct (reflect.store _ _ _); reflexivity.
Qed.

Lemma valueConvert_direct sT sv T p h h' :
  reflect.AssignableTo sT T = true ->
  reflect.store p (reflect.boxFor T (sT, sv)) h = Some h' ->
  valueConvert (Some (sT, sv)) (reflect.Var T p false) h = (Ok None, h').
Proof.
  intros HA HS. unfold valueConvert. cbn [reflect.TypeOf reflect.Type_].
  rewrite bind_lift_Ok, bind_eq, directSet_Var, HA, HS. reflexivity.
Qed.

Lemma valueConvert_indirect_int64 z T p h :
  reflect.AssignableTo int64T T = false ->
  valueConvert (rawInt64 z) (reflect.Var T p false) h =
  if isSignedInteger (reflect.kindOf T) then
    (reflect.SetInt (reflect.Var T p false) z ;;; ret None) h
  else if isUnsignedInteger (reflect.kindOf T) then
    (reflect.SetUint (reflect.Var T p false) (reflect.wrapU 64 z) ;;; ret None) h
  else (Ok None, h).
Proof.
  intros HA. unfold valueConvert, rawInt64. cbn [reflect.TypeOf reflect.Type_].
  rewrite bind_lift_Ok, bind_eq, directSet_Var, HA.
  cbn [asTime int64T reflect.kindOf assertInt64]. rewrite ?bind_lift_Ok.
  destruct (isSignedInteger _); [reflexivity|].
  destruct (isUnsignedInteger _); reflexivity.
Qed.

Lemma valueConvert_indirect_float32 b T p h :
  reflect.AssignableTo (reflect.TBasic reflect.Float32) T = false ->
  valueConvert (rawFloat32 b) (reflect.Var T p false) h =
  if isFloat (reflect.kindOf T) then
    (reflect.SetFloat (reflect.Var T p false) (float64_of_float32 b) ;;; ret None) h
  else (Ok None, h).
Proof.
  intros HA. unfold valueConvert, rawFloat32. cbn [reflect.TypeOf reflect.Type_].
  rewrite bind_lift_Ok, bind_eq, directSet_Var, HA.
  cbn [asTime reflect.kindOf assertFloat32]. rewrite ?bind_lift_Ok.
  destruct (isFloat _); reflexivity.
Qed.

Lemma valueConvert_indirect_float64 b T p h :
  reflect.AssignableTo (reflect.TBasic reflect.Float64) T = false ->
  valueConvert (rawFloat64 b) (reflect.Var T p false) h =
  if isFloat (reflect.kindOf T) then
    (reflect.SetFloat (reflect.Var T p false) b ;;; ret None) h
  else (Ok None, h).
Proof.
  intros HA. unfold valueConvert, rawFloat64. cbn [reflect.TypeOf reflect.Type_].
  rewrite bind_lift_Ok, bind_eq, directSet_Var, HA.
  cbn [asTime reflect.kindOf assertFloat64]. rewrite ?bind_lift_Ok.
  destruct (isFloat _); reflexivity.
Qed.

Lemma valueConvert_indirect_time t T p h :
  reflect.AssignableTo reflect.TTime T = false ->
  valueConvert (rawTime t) (reflect.Var T p false) h =
  handleConvertTime t reflect.TTime (reflect.Var T p false) h.
Proof.
  intros HA. unfold valueConvert, rawTime. cbn [reflect.TypeOf reflect.Type_].
  rewrite bind_lift_Ok, bind_eq, directSet_Var, HA. reflexivity.
Qed.

Lemma valueConvert_indirect_bytes s T p h :
  reflect.AssignableTo bytesT T = false ->
  valueConvert (rawBytes s) (reflect.Var T p false) h =
  handleConvertMapSliceToField (rawBytes s) (reflect.Var T p false) h.
Proof.
  intros HA. unfold valueConvert, rawBytes. cbn [reflect.TypeOf reflect.Type_].
  rewrite bind_lift_Ok, bind_eq, directSet_Var, HA. reflexivity.
Qed.

Lemma not_assignable_by_kind (V T : reflect.Typ) :
  reflect.kindOf T <> reflect.kindOf V -> reflect.kindOf T <> reflect.Interface ->
  reflect.AssignableTo V T = false.
Proof.
  intros H1 H2. destruct (reflect.AssignableTo V T) eqn:E; [|reflexivity].
  destruct (AssignableTo_kind _ _ E); contradiction.
Qed.

Lemma SetUint_ok T p x h h' :
  isUnsignedInteger (reflect.kindOf T) = true ->
  reflect.store p (reflect.VUint (reflect.wrapU (reflect.bitsOf (reflect.kindOf T)) x)) h = Some h' ->
  (reflect.SetUint (reflect.Var T p false) x ;;; ret None) h = (Ok (@None error), h').
Proof.
  intros HK HS. unfold reflect.SetUint.
  destruct (reflect.kindOf T); try discriminate HK;
    rewrite bind_eq; unfold reflect.write; rewrite HS; reflexivity.
Qed.

Lemma SetInt_ok T p x h h' :
  isSignedInteger (reflect.kindOf T) = true ->
  reflect.store p (reflect.VInt (reflect.wrapS (reflect.bitsOf (reflect.kindOf T)) x)) h = Some h' ->
  (reflect.SetInt (reflect.Var T p false) x ;;; ret None) h = (Ok (@None error), h').
Proof.
  intros HK HS. unfold reflect.SetInt.
  destruct (reflect.kindOf T); try discriminate HK;
    rewrite bind_eq; unfold reflect.write; rewrite HS; reflexivity.
Qed.

Lemma SetFloat_ok T p x h h' :
  isFloat (reflect.kindOf T) = true ->
  reflect.store p (floatFor (reflect.kindOf T) x) h = Some h' ->
  (reflect.SetFloat (reflect.Var T p false) x ;;; ret None) h = (Ok (@None error), h').
Proof.
  intros HK HS. unfold reflect.SetFloat.
  destruct (reflect.kindOf T); try discriminate HK;
    rewrite bind_eq; unfold reflect.write; cbv [floatFor reflect.kind_eqb reflect.code N.eqb Pos.eqb] in HS;
    rewrite HS; reflexivity.
Qed.

Lemma SetString_ok T p x h h' :
  reflect.kindOf T = reflect.String ->
  reflect.store p (reflect.VString x) h = Some h' ->
  (reflect.SetString (reflect.Var T p false) x ;;; ret None) h = (Ok (@None error), h').
Proof.
  intros HK HS. unfold reflect.SetString. rewrite HK, bind_eq.
  unfold reflect.write. rewrite HS. reflexivity.
Qed.

Lemma stringOfBytes_bytes (s : string) :
  stringOfBytes (map (fun c => reflect.VUint (Z.of_N (N_of_ascii c))) (list_ascii_of_string s)) = s.
Proof.
  unfold stringOfBytes. rewrite map_map.
  rewrite (map_ext _ (fun c => c)).
  - rewrite map_id. apply string_of_list_ascii_of_string.
  - intros c. simpl. rewrite N2Z.id. apply ascii_N_embedding.
Qed.

Lemma handleConvertMapSliceToField_bytes s T p h :
  handleConvertMapSliceToField (rawBytes s) (reflect.Var T p false) h =
  (let k := reflect.kindOf T in
   if reflect.kind_eqb k reflect.String then
     reflect.SetString (reflect.Var T p false) s ;;; ret None
   else if isSignedInteger k then
     match strconv.ParseInt s with
     | None => ret (Some ErrConvertValue)
     | Some intVal => reflect.SetInt (reflect.Var T p false) intVal ;;; ret None
     end
   else if isUnsignedInteger k then
     match strconv.ParseUint s with
     | None => ret (Some ErrConvertValue)
     | Some uintVal => reflect.SetUint (reflect.Var T p false) uintVal ;;; ret None
     end
   else if isFloat k then
     match ParseFloat64 s with
     | None => ret (Some ErrConvertValue)
     | Some floatVal => reflect.SetFloat (reflect.Var T p false) floatVal ;;; ret None
     end
   else ret (Some ErrUnSupportTypeConvert)) h.
Proof.
  unfold handleConvertMapSliceToField, rawBytes.
  cbn [reflect.Type_ assertBytes bytesT]. rewrite bind_lift_Ok.
  rewrite stringOfBytes_bytes. reflexivity.
Qed.

End Converter.

Section MismatchedFamilies.
Context `{RT : GoRuntime}.

Lemma not_integer_split (k : reflect.Kind) :
  isInteger k = false -> isSignedInteger k = false /\ isUnsignedInteger k = false.
Proof. unfold isInteger. apply orb_false_iff. Qed.

Lemma valueConvert_mismatch sT sv T p h :
  numericMismatch sT T = true ->
  reflect.AssignableTo sT T = false ->
  valueConvert (Some (sT, sv)) (reflect.Var T p false) h = (Ok None, h).
Proof.
  intros HM HA. unfold valueConvert. cbn [reflect.TypeOf reflect.Type_].
  rewrite bind_lift_Ok, bind_eq, directSet_Var, HA.
  destruct sT as [k| | | | | |]; try discriminate HM.
  destruct k; try discriminate HM; cbn [asTime reflect.kindOf];
    cbn [numericMismatch] in HM; apply negb_true_iff in HM.
  - destruct (not_integer_split _ HM) as [-> ->]. reflexivity.
  - rewrite HM. reflexivity.
  - rewrite HM. reflexivity.
Qed.

Lemma numericMismatch_iface sT T :
  numericMismatch sT T = true -> reflect.AssignableTo sT T = true ->
  reflect.kindOf T = reflect.Interface /\ reflect.kindOf sT <> reflect.Interface.
Proof.
  intros HM HA. destruct (AssignableTo_kind _ _ HA) as [E|E].
  - exfalso. destruct sT as [k| | | | | |]; try discriminate HM.
    destruct k; try discriminate HM; cbn [numericMismatch] in HM;
      simpl in E; rewrite E in HM; discriminate HM.
  - split; [exact E|].
    destruct sT as [k| | | | | |]; try discriminate HM.
    destruct k; try discriminate HM; simpl; discriminate.
Qed.

Lemma boxFor_iface T d :
  reflect.kindOf T = reflect.Interface -> reflect.kindOf d.1 <> reflect.Interface ->
  reflect.boxFor T d = reflect.VIface (Some d).
Proof.
  intros E N. unfold reflect.boxFor. rewrite E.
  destruct (reflect.kindOf d.1); try reflexivity. contradiction.
Qed.

End MismatchedFamilies.

(** C1, as the code has it.  An int64 raw value bound to a field that is
    not of an integer kind, or a float32 or float64 raw value bound to a
    field that is not of a float kind, is never converted: when the raw
    value is directly assignable to the type of the field, which is then
    an interface type, it is stored as it is and the conversion
    succeeds; otherwise the heap, and so the field, is left as it was. *)
Theorem C1_mismatched_family_not_converted `{RT : GoRuntime}
    (sT : reflect.Typ) (sv : reflect.val) (T : reflect.Typ) (p : reflect.place)
    (h : reflect.Heap) :
  numericMismatch sT T = true ->
  (reflect.AssignableTo sT T = true ->
     reflect.kindOf T = reflect.Interface /\
     forall h', reflect.store p (reflect.VIface (Some (sT, sv))) h = Some h' ->
       valueConvert (Some (sT, sv)) (reflect.Var T p false) h = (Ok None, h'))
  /\ (reflect.AssignableTo sT T = false ->
        (valueConvert (Some (sT, sv)) (reflect.Var T p false) h).2 = h).
Proof.
  intros HM. split; intros HA.
  - destruct (numericMismatch_iface _ _ HM HA) as [HK HN]. split; [exact HK|].
    intros h' HS. apply valueConvert_direct; [exact HA|].
    rewrite boxFor_iface; auto.
  - rewrite valueConvert_mismatch; auto.
Qed.

Lemma C1_mismatched_family_witness :
  valueConvert (RT := sampleRuntime) (rawInt64 5)
    (reflect.Var emptyInterfaceT (0, []) false) [reflect.VIface None]
  = (Ok None, [reflect.VIface (Some (int64T, reflect.VInt 5))])
  /\ (valueConvert (RT := sampleRuntime) (rawInt64 5)
        (reflect.Var (reflect.TBasic reflect.Bool) (0, []) false) [reflect.VBool true]).2
     = [reflect.VBool true].
Proof.
  split.
  - apply (proj1 (C1_mismatched_family_not_converted (RT := sampleRuntime)
                    int64T (reflect.VInt 5) emptyInterfaceT (0, [])
                    [reflect.VIface None] eq_refl) eq_refl).
    reflexivity.
  - apply (proj2 (C1_mismatched_family_not_converted (RT := sampleRuntime)
                    int64T (reflect.VInt 5) (reflect.TBasic reflect.Bool) (0, [])
                    [reflect.VBool true] eq_refl) eq_refl).
Defined.

(** C1 as stated fails: an int64 raw value bound to a field of type
    [interface{}], whose kind is not an integer kind, is stored and the
    conversion succeeds. *)
Lemma C1_counterexample :
  isInteger (reflect.kindOf emptyInterfaceT) = false
  /\ valueConvert (RT := sampleRuntime) (rawInt64 5)
       (reflect.Var emptyInterfaceT (0, []) false) [reflect.VIface None]
     = (Ok None, [reflect.VIface (Some (int64T, reflect.VInt 5))]).
Proof. split; reflexivity. Qed.

(** C10, as the code has it.  An int64 raw value [z] bound to a field of
    an unsigned-integer kind is stored as [z] modulo 2^64 cut to the
    width of the field, without error; for a field 64 bits wide that is
    [z] modulo 2^64. *)
Theorem C10_int64_into_unsigned_field `{RT : GoRuntime}
    (z : Z) (T : reflect.Typ) (p : reflect.place) (h : reflect.Heap) :
  isUnsignedInteger (reflect.kindOf T) = true ->
  (forall h',
     reflect.store p
       (reflect.VUint ((z mod 2 ^ 64) mod 2 ^ reflect.bitsOf (reflect.kindOf T))%Z) h = Some h' ->
     valueConvert (rawInt64 z) (reflect.Var T p false) h = (Ok None, h'))
  /\ (reflect.bitsOf (reflect.kindOf T) = 64%Z ->
      ((z mod 2 ^ 64) mod 2 ^ reflect.bitsOf (reflect.kindOf T) = z mod 2 ^ 64)%Z).
Proof.
  intros HK. split.
  - intros h' HS. rewrite valueConvert_indirect_int64.
    + replace (isSignedInteger (reflect.kindOf T)) with false
        by (destruct (reflect.kindOf T); try discriminate HK; reflexivity).
      rewrite HK. apply SetUint_ok; assumption.
    + apply not_assignable_by_kind;
        destruct (reflect.kindOf T); try discriminate HK; discriminate.
  - intros ->. apply Z.mod_mod. lia.
Qed.

Lemma C10_int64_into_unsigned_witness :
  valueConvert (RT := sampleRuntime) (rawInt64 (-1))
    (reflect.Var (reflect.TBasic reflect.Uint64) (0, []) false) [reflect.VUint 0]
  = (Ok None, [reflect.VUint 18446744073709551615]).
Proof.
  apply (proj1 (C10_int64_into_unsigned_field (RT := sampleRuntime) (-1)
                  (reflect.TBasic reflect.Uint64) (0, []) [reflect.VUint 0] eq_refl)).
  reflexivity.
Defined.

(** C10 as stated fails: bound to a [uint8] field, the raw value -1 is
    stored as 255, which is not -1 modulo 2^64. *)
Lemma C10_counterexample :
  isUnsignedInteger (reflect.kindOf (reflect.TBasic reflect.Uint8)) = true
  /\ valueConvert (RT := sampleRuntime) (rawInt64 (-1))
       (reflect.Var (reflect.TBasic reflect.Uint8) (0, []) false) [reflect.VUint 0]
     = (Ok None, [reflect.VUint 255])
  /\ reflect.VUint 255 <> reflect.VUint ((-1) mod 2 ^ 64).
Proof. split; [reflexivity|]. split; [reflexivity|]. discriminate. Qed.

(** C2, as the code has it.  A timestamp raw value bound to a field of
    kind string is formatted with the layout "2006-01-02 15:04:05" and
    the string is stored; bound to a field of another kind it fails with
    [ErrConvertValue] and stores nothing, unless [time.Time] is directly
    assignable to the type of the field (the field is a [time.Time] or
    an interface that [time.Time] implements): then the timestamp is
    stored as it is and the conversion succeeds. *)
Theorem C2_timestamp_conversion `{RT : GoRuntime}
    (t : time.Time) (T : reflect.Typ) (p : reflect.place) (h : reflect.Heap) :
  DefaultTimeFormat = "2006-01-02 15:04:05"
  /\ (reflect.kindOf T = reflect.String ->
      forall h', reflect.store p (reflect.VString (time_Format t DefaultTimeFormat)) h = Some h' ->
        valueConvert (rawTime t) (reflect.Var T p false) h = (Ok None, h'))
  /\ (reflect.kindOf T <> reflect.String ->
      reflect.AssignableTo reflect.TTime T = false ->
      valueConvert (rawTime t) (reflect.Var T p false) h = (Ok (Some ErrConvertValue), h))
  /\ (reflect.AssignableTo reflect.TTime T = true ->
      reflect.kindOf T <> reflect.String /\
      forall h', reflect.store p (reflect.boxFor T (reflect.TTime, reflect.VTime t)) h = Some h' ->
        valueConvert (rawTime t) (reflect.Var T p false) h = (Ok None, h')).
Proof.
  split; [reflexivity|]. split; [|split].
  - intros HK h' HS. rewrite valueConvert_indirect_time.
    + unfold handleConvertTime. cbn [reflect.Type_]. rewrite bind_lift_Ok, HK.
      cbn [reflect.kind_eqb reflect.code N.eqb Pos.eqb].
      apply SetString_ok; assumption.
    + apply not_assignable_by_kind; rewrite HK; discriminate.
  - intros HK HA. rewrite valueConvert_indirect_time by exact HA.
    unfold handleConvertTime. cbn [reflect.Type_]. rewrite bind_lift_Ok.
    apply kind_eqb_neq in HK. rewrite HK. reflexivity.
  - intros HA. split.
    + destruct (AssignableTo_kind _ _ HA) as [E|E]; rewrite E; discriminate.
    + intros h' HS. apply valueConvert_direct; assumption.
Qed.

Lemma C2_timestamp_witness :
  valueConvert (RT := sampleRuntime) (rawTime (time.mkTime 0 63082281600 None))
    (reflect.Var stringT (0, [1]) false) [reflect.VStruct [reflect.VInt 7; reflect.VString ""]]
  = (Ok None,
     [reflect.VStruct
        [reflect.VInt 7;
         reflect.VString (time_Format (GoRuntime := sampleRuntime)
                            (time.mkTime 0 63082281600 None) "2006-01-02 15:04:05")]])
  /\ valueConvert (RT := sampleRuntime) (rawTime (time.mkTime 0 63082281600 None))
       (reflect.Var int64T (0, [0]) false) [reflect.VStruct [reflect.VInt 7; reflect.VString ""]]
     = (Ok (Some ErrConvertValue), [reflect.VStruct [reflect.VInt 7; reflect.VString ""]])
  /\ valueConvert (RT := sampleRuntime) (rawTime (time.mkTime 0 63082281600 None))
       (reflect.Var reflect.TTime (0, []) false) [reflect.VTime time.zero]
     = (Ok None, [reflect.VTime (time.mkTime 0 63082281600 None)]).
Proof.
  pose proof (C2_timestamp_conversion (RT := sampleRuntime)
                (time.mkTime 0 63082281600 None) stringT (0, [1])
                [reflect.VStruct [reflect.VInt 7; reflect.VString ""]]) as H1.
  pose proof (C2_timestamp_conversion (RT := sampleRuntime)
                (time.mkTime 0 63082281600 None) int64T (0, [0])
                [reflect.VStruct [reflect.VInt 7; reflect.VString ""]]) as H2.
  pose proof (C2_timestamp_conversion (RT := sampleRuntime)
                (time.mkTime 0 63082281600 None) reflect.TTime (0, [])
                [reflect.VTime time.zero]) as H3.
  split; [|split].
  - apply (proj1 (proj2 H1)); reflexivity.
  - apply (proj1 (proj2 (proj2 H2))); [discriminate | reflexivity].
  - apply (proj2 (proj2 (proj2 H3))); reflexivity.
Defined.

(** C2 as stated fails: a timestamp bound to a field of type
    [time.Time], which is not textual, is stored and the conversion
    succeeds. *)
Lemma C2_counterexample :
  reflect.kindOf reflect.TTime <> reflect.String
  /\ valueConvert (RT := sampleRuntime) (rawTime (time.mkTime 0 63082281600 None))
       (reflect.Var reflect.TTime (0, []) false) [reflect.VTime time.zero]
     = (Ok None, [reflect.VTime (time.mkTime 0 63082281600 None)]).
Proof. split; [discriminate | reflexivity]. Qed.

Section BytesCases.
Context `{RT : GoRuntime}.

Lemma bytes_not_assignable T :
  (reflect.kindOf T = reflect.String \/ isInteger (reflect.kindOf T) = true
   \/ isFloat (reflect.kindOf T) = true) ->
  reflect.AssignableTo bytesT T = false.
Proof.
  intros H. apply not_assignable_by_kind; simpl;
    destruct (reflect.kindOf T); try discriminate;
    destruct H as [H|[H|H]]; discriminate H.
Qed.

(** The conversion of a byte sequence never panics on a field that
    exists. *)
Lemma valueConvert_bytes_returns s T p h :
  is_Some (reflect.load p h) ->
  exists e h', valueConvert (rawBytes s) (reflect.Var T p false) h = (Ok e, h').
Proof.
  intros HL.
  assert (HS : forall x, exists h', reflect.store p x h = Some h')
    by (intros x; destruct (store_is_Some p x h HL) as [h' E]; eauto).
  destruct (reflect.AssignableTo bytesT T) eqn:HA.
  - destruct (HS (reflect.boxFor T (bytesT,
        reflect.VSlice (Some (map (fun c => reflect.VUint (Z.of_N (N_of_ascii c)))
                                  (list_ascii_of_string s)))))) as [h' E].
    exists None, h'. apply valueConvert_direct; assumption.
  - rewrite valueConvert_indirect_bytes by exact HA.
    rewrite handleConvertMapSliceToField_bytes. cbv zeta.
    destruct (reflect.kind_eqb (reflect.kindOf T) reflect.String) eqn:K1.
    { apply kind_eqb_eq in K1. destruct (HS (reflect.VString s)) as [h' E].
      exists None, h'. apply SetString_ok; assumption. }
    destruct (isSignedInteger (reflect.kindOf T)) eqn:K2.
    { destruct (strconv.ParseInt s) as [n|]; [|eexists _, _; reflexivity].
      destruct (HS (reflect.VInt (reflect.wrapS (reflect.bitsOf (reflect.kindOf T)) n))) as [h' E].
      exists None, h'. apply SetInt_ok; assumption. }
    destruct (isUnsignedInteger (reflect.kindOf T)) eqn:K3.
    { destruct (strconv.ParseUint s) as [n|]; [|eexists _, _; reflexivity].
      destruct (HS (reflect.VUint (reflect.wrapU (reflect.bitsOf (reflect.kindOf T)) n))) as [h' E].
      exists None, h'. apply SetUint_ok; assumption. }
    destruct (isFloat (reflect.kindOf T)) eqn:K4.
    { destruct (ParseFloat64 s) as [f|]; [|eexists _, _; reflexivity].
      destruct (HS (floatFor (reflect.kindOf T) f)) as [h' E].
      exists None, h'. apply SetFloat_ok; assumption. }
    eexists _, _; reflexivity.
Qed.

End BytesCases.

(** C7, as the code has it.  A byte-sequence raw value with bytes [s],
    bound to a field of type [T]:
    - kind string: [s] is stored as the string;
    - a signed (unsigned) integer kind: [s] is parsed in base 10 as an
      int64 (uint64) and stored at the width of the field; a parse
      failure gives [ErrConvertValue] and stores nothing;
    - a float kind: [s] is parsed as a float64 and stored, likewise;
    - any other kind: [ErrUnSupportTypeConvert], unless a [[]byte] is
      directly assignable to [T] (a [[]byte] or [interface{}] field):
      then it is stored as it is and the conversion succeeds;
    - there is no panic when the field exists;
    - the bytes "42" parse to 42. *)
Theorem C7_byte_sequence_conversion `{RT : GoRuntime}
    (s : string) (T : reflect.Typ) (p : reflect.place) (h : reflect.Heap) :
  let k := reflect.kindOf T in
  let convert := valueConvert (rawBytes s) (reflect.Var T p false) h in
  (k = reflect.String ->
     forall h', reflect.store p (reflect.VString s) h = Some h' -> convert = (Ok None, h'))
  /\ (isSignedInteger k = true ->
      match strconv.ParseInt s with
      | Some n =>
          forall h', reflect.store p (reflect.VInt (reflect.wrapS (reflect.bitsOf k) n)) h = Some h' ->
            convert = (Ok None, h')
      | None => convert = (Ok (Some ErrConvertValue), h)
      end)
  /\ (isUnsignedInteger k = true ->
      match strconv.ParseUint s with
      | Some n =>
          forall h', reflect.store p (reflect.VUint (reflect.wrapU (reflect.bitsOf k) n)) h = Some h' ->
            convert = (Ok None, h')
      | None => convert = (Ok (Some ErrConvertValue), h)
      end)
  /\ (isFloat k = true ->
      match ParseFloat64 s with
      | Some f =>
          forall h', reflect.store p (floatFor k f) h = Some h' -> convert = (Ok None, h')
      | None => convert = (Ok (Some ErrConvertValue), h)
      end)
  /\ (k <> reflect.String -> isInteger k = false -> isFloat k = false ->
      if reflect.AssignableTo bytesT T then
        forall d h', rawBytes s = Some d -> reflect.store p (reflect.boxFor T d) h = Some h' ->
          convert = (Ok None, h')
      else convert = (Ok (Some ErrUnSupportTypeConvert), h))
  /\ (is_Some (reflect.load p h) -> exists e h', convert = (Ok e, h'))
  /\ strconv.ParseInt "42" = Some 42%Z.
Proof.
  intros k convert. subst convert.
  repeat apply conj.
  - intros HK h' HS. rewrite valueConvert_indirect_bytes by (apply bytes_not_assignable; auto).
    rewrite handleConvertMapSliceToField_bytes. cbv zeta. fold k. rewrite HK.
    cbn [reflect.kind_eqb reflect.code N.eqb Pos.eqb].
    apply SetString_ok; assumption.
  - intros HK.
    assert (HI : isInteger k = true) by (unfold isInteger; rewrite HK; reflexivity).
    rewrite valueConvert_indirect_bytes by (apply bytes_not_assignable; auto).
    rewrite handleConvertMapSliceToField_bytes. cbv zeta. fold k.
    replace (reflect.kind_eqb k reflect.String) with false
      by (destruct k; try discriminate HK; reflexivity).
    rewrite HK. destruct (strconv.ParseInt s) as [n|]; [|reflexivity].
    intros h' HS. apply SetInt_ok; assumption.
  - intros HK.
    assert (HI : isInteger k = true)
      by (unfold isInteger; rewrite HK; apply orb_true_r).
    rewrite valueConvert_indirect_bytes by (apply bytes_not_assignable; auto).
    rewrite handleConvertMapSliceToField_bytes. cbv zeta. fold k.
    replace (reflect.kind_eqb k reflect.String) with false
      by (destruct k; try discriminate HK; reflexivity).
    replace (isSignedInteger k) with false
      by (destruct k; try discriminate HK; reflexivity).
    rewrite HK. destruct (strconv.ParseUint s) as [n|]; [|reflexivity].
    intros h' HS. apply SetUint_ok; assumption.
  - intros HK.
    rewrite valueConvert_indirect_bytes by (apply bytes_not_assignable; auto).
    rewrite handleConvertMapSliceToField_bytes. cbv zeta. fold k.
    replace (reflect.kind_eqb k reflect.String) with false
      by (destruct k; try discriminate HK; reflexivity).
    replace (isSignedInteger k) with false
      by (destruct k; try discriminate HK; reflexivity).
    replace (isUnsignedInteger k) with false
      by (destruct k; try discriminate HK; reflexivity).
    rewrite HK. destruct (ParseFloat64 s) as [f|]; [|reflexivity].
    intros h' HS. apply SetFloat_ok; assumption.
  - intros HS HI HF. destruct (reflect.AssignableTo bytesT T) eqn:HA.
    + intros d h' [= <-] HSt. apply valueConvert_direct; assumption.
    + rewrite valueConvert_indirect_bytes by exact HA.
      rewrite handleConvertMapSliceToField_bytes. cbv zeta. fold k.
      apply kind_eqb_neq in HS. rewrite HS.
      destruct (not_integer_split _ HI) as [-> ->]. rewrite HF. reflexivity.
  - apply valueConvert_bytes_returns.
  - reflexivity.
Qed.

Lemma C7_byte_sequence_witness :
  valueConvert (RT := sampleRuntime) (rawBytes "42")
    (reflect.Var int64T (0, [0]) false) [user 0 "" ""]
  = (Ok None, [user 42 "" ""])
  /\ valueConvert (RT := sampleRuntime) (rawBytes "4x2")
       (reflect.Var int64T (0, [0]) false) [user 0 "" ""]
     = (Ok (Some ErrConvertValue), [user 0 "" ""])
  /\ valueConvert (RT := sampleRuntime) (rawBytes "42")
       (reflect.Var stringT (0, [1]) false) [user 0 "" ""]
     = (Ok None, [user 0 "42" ""])
  /\ valueConvert (RT := sampleRuntime) (rawBytes "42")
       (reflect.Var (reflect.TBasic reflect.Bool) (0, []) false) [reflect.VBool false]
     = (Ok (Some ErrUnSupportTypeConvert), [reflect.VBool false]).
Proof.
  pose proof (C7_byte_sequence_conversion (RT := sampleRuntime) "42" int64T (0, [0])
                [user 0 "" ""]) as H1.
  pose proof (C7_byte_sequence_conversion (RT := sampleRuntime) "4x2" int64T (0, [0])
                [user 0 "" ""]) as H2.
  pose proof (C7_byte_sequence_conversion (RT := sampleRuntime) "42" stringT (0, [1])
                [user 0 "" ""]) as H3.
  pose proof (C7_byte_sequence_conversion (RT := sampleRuntime) "42"
                (reflect.TBasic reflect.Bool) (0, []) [reflect.VBool false]) as H4.
  cbv zeta in H1, H2, H3, H4.
  split; [|split; [|split]].
  - pose proof (proj1 (proj2 H1) eq_refl) as H.
    replace (strconv.ParseInt "42") with (Some 42%Z) in H by (vm_compute; reflexivity).
    apply H. vm_compute. reflexivity.
  - pose proof (proj1 (proj2 H2) eq_refl) as H.
    replace (strconv.ParseInt "4x2") with (@None Z) in H by (vm_compute; reflexivity).
    exact H.
  - apply (proj1 H3 eq_refl). vm_compute. reflexivity.
  - apply (proj1 (proj2 (proj2 (proj2 (proj2 H4))))); [discriminate | reflexivity | reflexivity].
Defined.

(** C7 as stated fails for "any other destination kind": bound to a
    field of type [[]byte], of kind slice, a byte sequence is stored
    and the conversion succeeds. *)
Lemma C7_counterexample :
  reflect.kindOf bytesT = reflect.Slice
  /\ valueConvert (RT := sampleRuntime) (rawBytes "42")
       (reflect.Var bytesT (0, []) false) [reflect.VSlice None]
     = (Ok None, [reflect.VSlice (Some [reflect.VUint 52; reflect.VUint 50])]).
Proof. split; reflexivity. Qed.

(** ** Scan *)

Section ScanFacts.
Context `{RT : GoRuntime} {R : Type} `{IR : IRows R}.

Lemma Scan_nil_interface fuel (rows : R) h :
  Scan fuel None (rows, h) = (Ok (Some ErrTargetNotSettable), (rows, h)).
Proof. reflexivity. Qed.


(** A destination of a kind that has no nil (a struct, a number, a
    string passed by value) makes [Scan] panic, in [IsNil]. *)
Lemma Scan_panics_on_value fuel (rows : R) t v h :
  reflect.nilable (reflect.kindOf t) = false ->
  Scan fuel (Some (t, v)) (rows, h)
  = (Panic "reflect: call of reflect.Value.IsNil on a Value that has no nil", (rows, h)).
Proof.
  intros HN. unfold Scan, getObjectValue. cbn [reflect.ValueOf].
  rewrite bind_eq. unfold onHeap, reflect.IsNil, reflect.dataOf.
  rewrite bind_ret. cbn [fst snd]. rewrite HN. reflexivity.
Qed.

(** [Scan] on a pointer that is not nil: the rows are extracted, then
    bound. *)
Lemma Scan_pointer fuel (rows : R) PT T l h :
  reflect.underlying PT = reflect.TPtr T ->
  Scan fuel (Some (PT, reflect.VPtr (Some l))) (rows, h) =
  match ExtraDatasFromRows fuel rows with
  | (Ok (datas, Some e), rows') => (Ok (Some e), (rows', h))
  | (Ok (datas, None), rows') =>
      match reflect.kindOf T with
      | reflect.Slice =>
          match datas with
          | [] => (Ok None, (rows', h))
          | _ => onHeap (multiResults datas (Some (PT, reflect.VPtr (Some l)))) (rows', h)
          end
      | _ =>
          match datas with
          | [] => (Ok (Some ErrEmptyResult), (rows', h))
          | first :: _ => onHeap (singleResult first (Some (PT, reflect.VPtr (Some l)))) (rows', h)
          end
      end
  | (Panic msg, rows') => (Panic msg, (rows', h))
  | (OutOfFuel, rows') => (OutOfFuel, (rows', h))
  end.
Proof.
  intros HU.
  assert (HK : reflect.kindOf PT = reflect.Ptr)
    by (rewrite <- kindOf_underlying, HU; reflexivity).
  unfold Scan, getObjectValue, getObjectType, getPtrObjectType.
  cbn [reflect.ValueOf reflect.TypeOf reflect.TypeKind reflect.TypeElem].
  rewrite bind_eq. unfold onHeap at 1, reflect.IsNil, reflect.dataOf.
  rewrite bind_ret. cbn [fst snd]. rewrite HK. cbn [reflect.nilable reflect.isNilVal ret].
  rewrite bind_lift_Ok. cbn [reflect.kind_eqb reflect.code N.eqb Pos.eqb negb].
  rewrite bind_eq. unfold onRows at 1. cbn [fst snd].
  destruct (ExtraDatasFromRows fuel rows) as [[[datas [e|]]|msg|] rows']; try reflexivity.
  rewrite HU, bind_lift_Ok.
  destruct (reflect.kindOf T); destruct datas; reflexivity.
Qed.

End ScanFacts.

(** C3, at a destination the code gets wrong.  [Scan] called with a
    record passed by value, which is no pointer, does not return
    [ErrTargetNotSettable]: it panics inside [Value.IsNil], which the
    guard calls before it compares the kind with [reflect.Ptr].  The
    cursor is not touched. *)
Theorem C3_scan_of_a_record_value_panics :
  Scan (RT := sampleRuntime) 10 (Some (userT, user 0 "" "")) (sampleRows, [])
  = (Panic "reflect: call of reflect.Value.IsNil on a Value that has no nil", (sampleRows, [])).
Proof. reflexivity. Qed.

(** C6.  When the destination is a pointer to a slice and the rows
    extracted are none, [Scan] returns nil and the heap, and with it the
    destination slice, is as it was. *)
Theorem C6_empty_rows_leave_slice `{RT : GoRuntime} {R : Type} `{IR : IRows R}
    (fuel : nat) (rows rows' : R) (PT T : reflect.Typ) (l : reflect.loc) (h : reflect.Heap) :
  reflect.underlying PT = reflect.TPtr T ->
  reflect.kindOf T = reflect.Slice ->
  ExtraDatasFromRows fuel rows = (Ok ([], None), rows') ->
  Scan fuel (Some (PT, reflect.VPtr (Some l))) (rows, h) = (Ok None, (rows', h)).
Proof.
  intros HU HK HE. rewrite (Scan_pointer _ _ _ _ _ _ HU), HE, HK. reflexivity.
Qed.

Lemma C6_empty_rows_witness :
  Scan (RT := sampleRuntime) 3 (ptrTo (reflect.TSlice userT) 0)
    (mkListRows (["id"; "name"], None) [] ([], None) 0,
     [reflect.VSlice (Some [user 9 "Zoe" "kept"])])
  = (Ok None,
     (mkListRows (["id"; "name"], None) [] ([], None) 2,
      [reflect.VSlice (Some [user 9 "Zoe" "kept"])])).
Proof.
  apply (C6_empty_rows_leave_slice (RT := sampleRuntime) 3
           (mkListRows (["id"; "name"], None) [] ([], None) 0)
           (mkListRows (["id"; "name"], None) [] ([], None) 2)
           (reflect.TPtr (reflect.TSlice userT)) (reflect.TSlice userT) 0
           [reflect.VSlice (Some [user 9 "Zoe" "kept"])]);
    reflexivity.
Defined.

(** C9.  When the destination is a pointer to something that is no
    slice and the rows extracted are [first :: rest], [Scan] does what
    [singleResult first] does on the destination, returns what it
    returns, and does nothing with [rest]. *)
Theorem C9_scan_binds_first_row `{RT : GoRuntime} {R : Type} `{IR : IRows R}
    (fuel : nat) (rows rows' : R) (PT T : reflect.Typ) (l : reflect.loc) (h : reflect.Heap)
    (first : Row) (rest : list Row) :
  reflect.underlying PT = reflect.TPtr T ->
  reflect.kindOf T <> reflect.Slice ->
  ExtraDatasFromRows fuel rows = (Ok (first :: rest, None), rows') ->
  Scan fuel (Some (PT, reflect.VPtr (Some l))) (rows, h) =
  (let '(r, h') := singleResult first (Some (PT, reflect.VPtr (Some l))) h in (r, (rows', h'))).
Proof.
  intros HU HK HE. rewrite (Scan_pointer _ _ _ _ _ _ HU), HE.
  destruct (reflect.kindOf T); try reflexivity. contradiction.
Qed.

Lemma C9_scan_binds_first_row_witness :
  Scan (RT := sampleRuntime) 5 (ptrTo userT 0) (sampleRows, [user 0 "" "kept"])
  = (Ok None,
     (mkListRows (["id"; "name"], None) [] ([rawInt64 2; rawBytes "Bob"], None) 6,
      [user 1 "Alice" "kept"])).
Proof.
  apply (C9_scan_binds_first_row (RT := sampleRuntime) 5 sampleRows
           (mkListRows (["id"; "name"], None) [] ([rawInt64 2; rawBytes "Bob"], None) 6)
           (reflect.TPtr userT) userT 0 [user 0 "" "kept"] aliceRow [bobRow]).
  - reflexivity.
  - discriminate.
  - vm_compute. reflexivity.
Defined.

(** ** What a binding writes *)

Lemma bind_inv {St A B : Type} (m : M St A) (k : A -> M St B) (s s' : St) (r : Res B) :
  bind m k s = (r, s') ->
  (exists a s1, m s = (Ok a, s1) /\ k a s1 = (r, s'))
  \/ (exists r0, m s = (r0, s') /\ (forall a, r0 <> Ok a) /\ (forall b, r <> Ok b)).
Proof.
  unfold bind. destruct (m s) as [[a|msg|] s1]; intros E.
  - left. eauto.
  - right. injection E as <- <-. eexists. split; [reflexivity|]. split; discriminate.
  - right. injection E as <- <-. eexists. split; [reflexivity|]. split; discriminate.
Qed.

Lemma lift_inv {St A : Type} (x : Res A) (s s' : St) (r : Res A) :
  lift x s = (r, s') -> r = x /\ s' = s.
Proof. unfold lift. intros [= <- <-]. auto. Qed.

Lemma ret_inv {St A : Type} (a : A) (s s' : St) (r : Res A) :
  ret a s = (r, s') -> r = Ok a /\ s' = s.
Proof. unfold ret. intros [= <- <-]. auto. Qed.

(** Take a hypothesis [bind (lift x) k s = (r, s')] apart. *)
Ltac lift_case H :=
  let a := fresh "a" in let s1 := fresh "h1" in let r0 := fresh "r0" in
  let E := fresh "E" in let N := fresh "N" in let N' := fresh "N" in
  apply bind_inv in H; destruct H as [(a & s1 & E & H)|(r0 & E & N & N')];
  apply lift_inv in E; destruct E as [E ->].

Section Writes.
Context `{RT : GoRuntime}.

Lemma stores_refl v h : stores v h h.
Proof. left. reflexivity. Qed.

Lemma then_ret_stores {A : Type} (m : M reflect.Heap unit) (a : A) v h r h' :
  (forall r0 h0, m h = (r0, h0) -> stores v h h0) ->
  bind m (fun _ => ret a) h = (r, h') -> stores v h h'.
Proof. intros Hm H. apply bind_ret_inv in H. destruct H as [r0 H]. eauto. Qed.

Lemma handleConvertTime_stores t mvt v h r h' :
  handleConvertTime t mvt v h = (r, h') -> stores v h h'.
Proof.
  unfold handleConvertTime. intros H. lift_case H; [|apply stores_refl].
  destruct (reflect.kind_eqb _ _).
  - revert H. apply then_ret_stores. intros r0 h0. apply SetString_stores.
  - apply ret_inv in H. destruct H as [_ ->]. apply stores_refl.
Qed.

Lemma handleConvertMapSliceToField_stores src v h r h' :
  handleConvertMapSliceToField src v h = (r, h') -> stores v h h'.
Proof.
  unfold handleConvertMapSliceToField. intros H. lift_case H; [|apply stores_refl].
  destruct (assertBytes src) as [bs|];
    [|apply ret_inv in H; destruct H as [_ ->]; apply stores_refl].
  destruct (reflect.kind_eqb _ _).
  { revert H. apply then_ret_stores. intros r0 h0. apply SetString_stores. }
  destruct (isSignedInteger _).
  { destruct (strconv.ParseInt _);
      [|apply ret_inv in H; destruct H as [_ ->]; apply stores_refl].
    revert H. apply then_ret_stores. intros r0 h0. apply SetInt_stores. }
  destruct (isUnsignedInteger _).
  { destruct (strconv.ParseUint _);
      [|apply ret_inv in H; destruct H as [_ ->]; apply stores_refl].
    revert H. apply then_ret_stores. intros r0 h0. apply SetUint_stores. }
  destruct (isFloat _).
  { destruct (ParseFloat64 _);
      [|apply ret_inv in H; destruct H as [_ ->]; apply stores_refl].
    revert H. apply then_ret_stores. intros r0 h0. apply SetFloat_stores. }
  apply ret_inv in H. destruct H as [_ ->]. apply stores_refl.
Qed.

Lemma directSet_stores src v h r h' :
  directSet src v h = (r, h') -> stores v h h' /\ (r = Ok false -> h' = h).
Proof.
  unfold directSet. intros H.
  destruct (reflect.TypeOf src) as [sT|].
  { lift_case H; [|split; [apply stores_refl|reflexivity]].
    destruct (reflect.AssignableTo sT a).
    - split.
      + revert H. apply then_ret_stores. intros r0 h0. apply SetValue_stores.
      + intros ->. apply bind_inv in H.
        destruct H as [(u & s1 & E' & H)|(r0 & E' & N & N')].
        * apply ret_inv in H. destruct H as [H _]. discriminate H.
        * exfalso. apply (N' false). reflexivity.
    - apply ret_inv in H. destruct H as [_ ->]. split; [apply stores_refl|reflexivity]. }
  apply ret_inv in H. destruct H as [_ ->]. split; [apply stores_refl|reflexivity].
Qed.

(** [valueConvert] makes at most one store, into its target. *)
Lemma valueConvert_stores src v h r h' :
  valueConvert src v h = (r, h') -> stores v h h'.
Proof.
  unfold valueConvert. intros H.
  destruct (reflect.TypeOf src) as [sT|];
    [|apply ret_inv in H; destruct H as [_ ->]; apply stores_refl].
  lift_case H; [|apply stores_refl].
  apply bind_inv in H. destruct H as [(done & h1 & E' & H)|(r0 & E' & N & N')].
  2:{ apply directSet_stores in E'. apply E'. }
  apply directSet_stores in E'. destruct E' as [E1 E2].
  destruct done.
  { apply ret_inv in H. destruct H as [_ ->]. exact E1. }
  specialize (E2 eq_refl). subst h1.
  destruct (asTime src) as [t|]; [apply handleConvertTime_stores in H; exact H|].
  destruct (reflect.kindOf sT);
    try (apply ret_inv in H; destruct H as [_ ->]; apply stores_refl);
    try (apply handleConvertMapSliceToField_stores in H; exact H).
  - destruct (isSignedInteger _).
    { lift_case H; [|apply stores_refl].
      revert H. apply then_ret_stores. intros r1 h0. apply SetInt_stores. }
    destruct (isUnsignedInteger _).
    { lift_case H; [|apply stores_refl].
      revert H. apply then_ret_stores. intros r1 h0. apply SetUint_stores. }
    apply ret_inv in H. destruct H as [_ ->]. apply stores_refl.
  - destruct (isFloat _).
    { lift_case H; [|apply stores_refl].
      revert H. apply then_ret_stores. intros r1 h0. apply SetFloat_stores. }
    apply ret_inv in H. destruct H as [_ ->]. apply stores_refl.
  - destruct (isFloat _).
    { lift_case H; [|apply stores_refl].
      revert H. apply then_ret_stores. intros r1 h0. apply SetFloat_stores. }
    apply ret_inv in H. destruct H as [_ ->]. apply stores_refl.
Qed.

End Writes.

(** ** The record binder *)

Section Binder.
Context `{RT : GoRuntime}.

Lemma getPtrObjectValue_ptr PT T l h :
  reflect.underlying PT = reflect.TPtr T ->
  getPtrObjectValue (Some (PT, reflect.VPtr (Some l))) h = (Ok (reflect.Var T (l, []) false), h).
Proof.
  intros HU.
  assert (HK : reflect.kindOf PT = reflect.Ptr)
    by (rewrite <- kindOf_underlying, HU; reflexivity).
  unfold getPtrObjectValue, reflect.Elem. cbn [reflect.ValueOf reflect.dataOf].
  rewrite bind_ret. cbn [fst snd]. rewrite HK, HU. reflexivity.
Qed.

(** A destination that can be set is a variable, the one the destination
    points to; taking it reads the heap only. *)
Lemma getPtrObjectValue_inv target h r h' :
  getPtrObjectValue target h = (r, h') ->
  h' = h /\
  forall v, r = Ok v -> reflect.CanSet v = true ->
    exists e l, v = reflect.Var e (l, []) false /\ targetLoc target = Some l.
Proof.
  unfold getPtrObjectValue, reflect.Elem.
  destruct target as [[t x]|]; cbn [reflect.ValueOf reflect.dataOf].
  2:{ intros [= <- <-]. split; [reflexivity|discriminate]. }
  rewrite bind_ret. cbn [fst snd reflect.isRO].
  destruct (reflect.kindOf t);
    try (intros [= <- <-]; split; [reflexivity|discriminate]).
  - destruct x as [| | | | | | |[a|]| | |[[t' x']|]|];
      try (intros [= <- <-]; split; [reflexivity|intros v [= <-] HC; discriminate HC]).
  - destruct x as [| | | | | | |[a|]| | | |];
      try (intros [= <- <-]; split; [reflexivity|intros v [= <-] HC; discriminate HC]).
    destruct (reflect.underlying t);
      intros [= <- <-]; (split; [reflexivity|intros v [= <-] HC; try discriminate HC]).
    simpl. eauto.
Qed.

Lemma Field_Var T l i v :
  reflect.Field (reflect.Var T (l, []) false) i = Ok v ->
  exists ft ro, v = reflect.Var ft (l, [i]) ro.
Proof.
  unfold reflect.Field. destruct (reflect.structFields T) as [fs|]; [|discriminate].
  destruct (fs !! i); [|discriminate]. intros [= <-]. simpl. eauto.
Qed.

(** The loop over the fields stores into the fields of the record only,
    and only into those that carry a binding. *)
Lemma fieldLoop_frame row T e l idxs :
  forall h r h',
  fieldLoop row T (reflect.Var e (l, []) false) idxs h = (r, h') ->
  length h' = length h
  /\ (forall l', l' <> l -> h' !! l' = h !! l')
  /\ (forall i, unbound T i \/ i ∉ idxs -> reflect.load (l, [i]) h' = reflect.load (l, [i]) h).
Proof.
  induction idxs as [|j rest IH]; intros h r h' H.
  - apply ret_inv in H. destruct H as [_ ->]. auto.
  - cbn [fieldLoop] in H.
    assert (Hskip : forall h0 r0 h0', 
               fieldLoop row T (reflect.Var e (l, []) false) rest h0 = (r0, h0') ->
               length h0' = length h0
               /\ (forall l', l' <> l -> h0' !! l' = h0 !! l')
               /\ (forall i, unbound T i \/ i ∉ j :: rest ->
                     reflect.load (l, [i]) h0' = reflect.load (l, [i]) h0)).
    { intros h0 r0 h0' H0. destruct (IH _ _ _ H0) as (A & B & C).
      split; [exact A|]. split; [exact B|]. intros i [Hi|Hi]; apply C; auto.
      right. intros Hin. apply Hi. right. exact Hin. }
    lift_case H; [|auto]. rename a into f.
    lift_case H; [|auto]. rename a into valueI.
    symmetry in E0. destruct (Field_Var _ _ _ _ E0) as (ft & ro & ->).
    destruct (negb (reflect.CanSet (reflect.Var ft (l, [j]) ro))); [eauto|].
    destruct (reflect.Lookup (reflect.fieldTag f) DefaultTagName) as [tagName|] eqn:HT;
      [|eauto].
    destruct (String.eqb tagName "") eqn:HE; [eauto|].
    destruct (row !! tagName) as [mapValue|]; [|eauto].
    assert (Hj : forall i, unbound T i \/ i ∉ j :: rest -> i <> j).
    { intros i [Hi|Hi] ->.
      - destruct (Hi f (eq_sym E)) as [Hn|Hn]; rewrite Hn in HT; [discriminate|].
        injection HT as <-. discriminate HE.
      - apply Hi. left. }
    assert (Hconv : forall r1 h2,
               valueConvert mapValue (reflect.Var ft (l, [j]) ro) h = (r1, h2) ->
               length h2 = length h
               /\ (forall l', l' <> l -> h2 !! l' = h !! l')
               /\ (forall i, unbound T i \/ i ∉ j :: rest ->
                     reflect.load (l, [i]) h2 = reflect.load (l, [i]) h)).
    { intros r1 h2 Hc. apply valueConvert_stores in Hc.
      destruct Hc as [->|(t0 & p0 & ro0 & x & [= <- <- <-] & Hst)]; [auto|].
      split; [eapply store_length; eauto|].
      split; [intros l' Hl'; eapply store_lookup_ne; eauto|].
      intros i Hi. eapply store_load_other_field; eauto. }
    apply bind_inv in H. destruct H as [(err & h2 & Ec & H)|(r0 & Ec & _ & _)];
      [|eapply Hconv; eauto].
    destruct (Hconv _ _ Ec) as (A1 & B1 & C1).
    destruct err as [e0|].
    + apply ret_inv in H. destruct H as [_ ->]. auto.
    + destruct (Hskip _ _ _ H) as (A2 & B2 & C2).
      split; [congruence|]. split.
      * intros l' Hl'. rewrite B2, B1; auto.
      * intros i Hi. rewrite C2, C1; auto.
Qed.

End Binder.

Section BinderCalls.
Context `{RT : GoRuntime}.

(** [singleResult] on a pointer to something that is no pointer. *)
Lemma singleResultRec_record d row PT T l h :
  reflect.underlying PT = reflect.TPtr T ->
  reflect.kindOf T <> reflect.Ptr ->
  singleResultRec (S d) row (Some (PT, reflect.VPtr (Some l))) h =
  (n <- lift (reflect.NumField (reflect.Var T (l, []) false)) ;;
   fieldLoop row T (reflect.Var T (l, []) false) (seq 0 n)) h.
Proof.
  intros HU HK. cbn [singleResultRec].
  rewrite bind_eq, (getPtrObjectValue_ptr _ _ _ _ HU). cbn [reflect.CanSet negb].
  unfold getPtrObjectType. cbn [reflect.TypeOf reflect.TypeElem]. rewrite HU, bind_lift_Ok.
  apply kind_eqb_neq in HK. rewrite HK. reflexivity.
Qed.

(** [singleResult] on a pointer to a pointer. *)
Lemma singleResultRec_pointer d row PT T E l h :
  reflect.underlying PT = reflect.TPtr T ->
  reflect.underlying T = reflect.TPtr E ->
  singleResultRec (S d) row (Some (PT, reflect.VPtr (Some l))) h =
  match singleResultRec d row (ptrTo E (length h)) (h ++ [reflect.zero E]) with
  | (Ok None, h1) =>
      (reflect.SetValue (reflect.Var T (l, []) false)
         (reflect.Val (reflect.TPtr E) (reflect.VPtr (Some (length h)))) ;;; ret None) h1
  | (r, h1) => (r, h1)
  end.
Proof.
  intros HU HT.
  assert (HK : reflect.kindOf T = reflect.Ptr)
    by (rewrite <- kindOf_underlying, HT; reflexivity).
  cbn [singleResultRec].
  rewrite bind_eq, (getPtrObjectValue_ptr _ _ _ _ HU). cbn [reflect.CanSet negb].
  unfold getPtrObjectType. cbn [reflect.TypeOf reflect.TypeElem]. rewrite HU, bind_lift_Ok.
  rewrite HK. cbn [reflect.kind_eqb reflect.code N.eqb Pos.eqb].
  rewrite HT, bind_lift_Ok.
  rewrite bind_eq. unfold reflect.New at 1.
  rewrite bind_eq. unfold reflect.Interface_ at 1.
  cbn [reflect.isRO reflect.dataOf]. rewrite bind_ret. cbn [fst snd reflect.kindOf ret].
  rewrite bind_eq. unfold ptrTo.
  destruct (singleResultRec d row _ _) as [[[e|]|msg|] h1]; reflexivity.
Qed.

Lemma lookup_app_old (h ext : reflect.Heap) (l : nat) :
  l < length h -> (h ++ ext) !! l = h !! l.
Proof. intros Hl. apply lookup_app_l. exact Hl. Qed.

(** [singleResult] writes into the variable its destination points to
    and into variables it allocates itself, and nowhere else. *)
Lemma singleResultRec_frame d :
  forall row target h r h',
  singleResultRec d row target h = (r, h') ->
  length h <= length h'
  /\ forall l', l' < length h -> targetLoc target <> Some l' -> h' !! l' = h !! l'.
Proof.
  induction d as [|d IH]; intros row target h r h' H.
  - apply lift_inv in H. destruct H as [_ ->]. auto.
  - cbn [singleResultRec] in H.
    apply bind_inv in H. destruct H as [(valueObj & h1 & Ev & H)|(r0 & Ev & _ & _)];
      apply getPtrObjectValue_inv in Ev; destruct Ev as [-> Hv]; [|auto].
    destruct (reflect.CanSet valueObj) eqn:HC; cbn [negb] in H.
    2:{ apply ret_inv in H. destruct H as [_ ->]. auto. }
    destruct (Hv _ eq_refl HC) as (e & l & -> & HL).
    lift_case H; [|auto]. rename a into typeObj.
    destruct (reflect.kind_eqb (reflect.kindOf typeObj) reflect.Ptr).
    + lift_case H; [|auto]. rename a into elemT.
      apply bind_inv in H. destruct H as [(inst & h1 & En & H)|(r0 & En & N & _)].
      2:{ exfalso. unfold reflect.New in En. injection En as <- _. eapply N. reflexivity. }
      unfold reflect.New in En. injection En as <- <-.
      apply bind_inv in H. destruct H as [(ti & h2 & Ei & H)|(r0 & Ei & N & _)].
      2:{ exfalso. unfold reflect.Interface_ in Ei. cbn in Ei. injection Ei as <- _.
          eapply N. reflexivity. }
      unfold reflect.Interface_ in Ei. cbn in Ei. injection Ei as <- <-.
      assert (Hrec : forall r1 h3,
                 singleResultRec d row
                   (Some (reflect.TPtr elemT, reflect.VPtr (Some (length h)))) (h ++ [reflect.zero elemT])
                 = (r1, h3) ->
                 length h <= length h3
                 /\ forall l', l' < length h -> h3 !! l' = h !! l').
      { intros r1 h3 Hr. destruct (IH _ _ _ _ _ Hr) as [A B].
        rewrite length_app in A. simpl in A. split; [lia|].
        intros l' Hl'. rewrite B.
        - apply lookup_app_old. exact Hl'.
        - rewrite length_app. simpl. lia.
        - simpl. intros [= <-]. lia. }
      apply bind_inv in H. destruct H as [(err & h3 & Er & H)|(r0 & Er & _ & _)].
      2:{ destruct (Hrec _ _ Er) as [A B]. auto. }
      destruct (Hrec _ _ Er) as [A B].
      destruct err as [e0|].
      * apply ret_inv in H. destruct H as [_ ->]. auto.
      * apply bind_ret_inv in H. destruct H as [r0 H].
        apply SetValue_stores in H.
        destruct H as [->|(t0 & p0 & ro0 & x & [= <- <- <-] & Hst)]; [auto|].
        split; [rewrite (store_length _ _ _ _ Hst); exact A|].
        intros l' Hl' Hne. rewrite (store_lookup_ne _ _ _ _ l' Hst) by (simpl; congruence).
        auto.
    + lift_case H; [|auto].
      apply fieldLoop_frame in H. destruct H as (A & B & _).
      split; [lia|]. intros l' Hl' Hne. apply B. congruence.
Qed.

Lemma singleResult_frame row target h r h' :
  singleResult row target h = (r, h') ->
  length h <= length h'
  /\ forall l', l' < length h -> targetLoc target <> Some l' -> h' !! l' = h !! l'.
Proof. apply singleResultRec_frame. Qed.

End BinderCalls.

(** ** Pointers to pointers *)

Lemma linkChain_length n : forall l a h, length (linkChain l a n h) = length h.
Proof.
  induction n as [|k IH]; intros l a h; simpl; [reflexivity|].
  rewrite length_insert. apply IH.
Qed.

(** [linkChain l a n] writes the variables at [l], [a], ..., [a + n - 2]. *)
Lemma linkChain_lookup_other n :
  forall l a h x, x <> l -> x < a \/ a + n <= S x ->
  linkChain l a n h !! x = h !! x.
Proof.
  induction n as [|k IH]; intros l a h x Hl Hx; simpl; [reflexivity|].
  rewrite list_lookup_insert_ne by congruence.
  destruct k as [|k']; [reflexivity|].
  apply IH; lia.
Qed.

Lemma linkChain_lookup_head k l a h :
  l < length h -> linkChain l a (S k) h !! l = Some (reflect.VPtr (Some a)).
Proof.
  intros Hl. simpl. apply list_lookup_insert_eq. rewrite linkChain_length. exact Hl.
Qed.

Lemma linkChain_lookup_chain k :
  forall l a h i, l < a -> a + k <= length h -> i < k ->
  linkChain l a (S k) h !! (a + i) = Some (reflect.VPtr (Some (a + i + 1))).
Proof.
  induction k as [|k IH]; intros l a h i Hl Ha Hi; [lia|].
  cbn [linkChain]. rewrite list_lookup_insert_ne by lia.
  destruct i as [|i'].
  - rewrite Nat.add_0_r. replace (a + 1) with (S a) by lia.
    apply (linkChain_lookup_head k a (S a) h). lia.
  - replace (a + S i') with (S a + i') by lia.
    replace (S a + i' + 1) with (S a + i' + 1) by lia.
    apply (IH a (S a) h i'); lia.
Qed.

Lemma follow_chain k :
  forall a h,
  (forall i, i < k -> h !! (a + i) = Some (reflect.VPtr (Some (a + i + 1)))) ->
  follow k a h = Some (a + k).
Proof.
  induction k as [|k IH]; intros a h H; simpl.
  - f_equal. lia.
  - pose proof (H 0 ltac:(lia)) as H0. rewrite Nat.add_0_r in H0. rewrite H0.
    replace (a + S k) with (a + 1 + k) by lia. apply IH.
    intros i Hi. replace (a + 1 + i) with (a + S i) by lia.
    rewrite (H (S i)) by lia. reflexivity.
Qed.

(** After [linkChain], the variable at [l] leads through [S k] pointers
    to the variable at [a + k]. *)
Lemma follow_linkChain k l a h :
  l < a -> a + k < length h ->
  follow (S k) l (linkChain l a (S k) h) = Some (a + k).
Proof.
  intros Hl Ha. cbn [follow]. rewrite linkChain_lookup_head by lia.
  apply follow_chain. intros i Hi. apply linkChain_lookup_chain; lia.
Qed.

Section Indirection.
Context `{RT : GoRuntime}.

Lemma ptrDepth_ptrN n S : ptrDepth (ptrN n S) = n + ptrDepth S.
Proof. induction n as [|k IH]; simpl; [reflexivity|]. rewrite IH. reflexivity. Qed.

Lemma ptrDepth_not_pointer S : reflect.kindOf S <> reflect.Ptr -> ptrDepth S = 0.
Proof. induction S; simpl; intros H; auto. contradiction. Qed.

Lemma SetValue_link T l a h v :
  h !! l = Some v ->
  (reflect.SetValue (reflect.Var (reflect.TPtr T) (l, []) false)
     (reflect.Val (reflect.TPtr T) (reflect.VPtr (Some a))) ;;; ret (@None error)) h
  = (Ok None, <[l := reflect.VPtr (Some a)]> h).
Proof.
  intros Hl. rewrite bind_eq. unfold reflect.SetValue.
  cbn [reflect.isRO reflect.dataOf]. rewrite bind_ret. cbn [fst snd].
  rewrite AssignableTo_refl. unfold reflect.write, reflect.boxFor.
  cbn [reflect.kindOf fst snd]. rewrite (store_root _ _ _ _ Hl). reflexivity.
Qed.

(** Binding through [S k] levels of pointer: the [S k] variables are
    allocated, the record is bound in the last one, and the pointers
    are stored on the way back if the binding succeeded. *)
Lemma singleResultRec_chain k :
  forall d row S l h,
  reflect.kindOf S <> reflect.Ptr ->
  l < length h ->
  singleResultRec (Datatypes.S k + Datatypes.S d) row (ptrTo (ptrN (Datatypes.S k) S) l) h =
  match singleResultRec (Datatypes.S d) row (ptrTo S (length h + k))
          (h ++ replicate k (reflect.VPtr None) ++ [reflect.zero S]) with
  | (Ok None, h1) => (Ok None, linkChain l (length h) (Datatypes.S k) h1)
  | (r, h1) => (r, h1)
  end.
Proof.
  induction k as [|k IH]; intros d row S l h HK Hl.
  - cbn [Nat.add ptrN]. unfold ptrTo at 1.
    rewrite (singleResultRec_pointer _ _ _ (reflect.TPtr S) S) by reflexivity.
    rewrite Nat.add_0_r. cbn [replicate app].
    destruct (singleResultRec (Datatypes.S d) row (ptrTo S (length h)) (h ++ [reflect.zero S]))
      as [[[e|]|msg|] h1] eqn:Er; try reflexivity.
    apply singleResultRec_frame in Er. destruct Er as [A _].
    rewrite length_app in A. simpl in A.
    destruct (lookup_lt_is_Some_2 h1 l ltac:(lia)) as [v Hv].
    rewrite (SetValue_link _ _ _ _ _ Hv). reflexivity.
  - change (Datatypes.S (Datatypes.S k) + Datatypes.S d)
      with (Datatypes.S (Datatypes.S k + Datatypes.S d)).
    change (ptrN (Datatypes.S (Datatypes.S k)) S) with (reflect.TPtr (ptrN (Datatypes.S k) S)).
    unfold ptrTo at 1.
    rewrite (singleResultRec_pointer _ _ _ (reflect.TPtr (ptrN (Datatypes.S k) S))
               (ptrN (Datatypes.S k) S)) by reflexivity.
    rewrite (IH d row S (length h) (h ++ [reflect.zero (ptrN (Datatypes.S k) S)]) HK)
      by (rewrite length_app; simpl; lia).
    cbn [ptrN reflect.zero]. rewrite length_app. cbn [length].
    replace (length h + 1 + k) with (length h + Datatypes.S k) by lia.
    replace ((h ++ [reflect.VPtr None]) ++ replicate k (reflect.VPtr None) ++ [reflect.zero S])
      with (h ++ replicate (Datatypes.S k) (reflect.VPtr None) ++ [reflect.zero S])
      by (rewrite <- app_assoc; reflexivity).
    destruct (singleResultRec (Datatypes.S d) row (ptrTo S (length h + Datatypes.S k))
                (h ++ replicate (Datatypes.S k) (reflect.VPtr None) ++ [reflect.zero S]))
      as [[[e|]|msg|] h1] eqn:Er; try reflexivity.
    apply singleResultRec_frame in Er. destruct Er as [A _].
    rewrite length_app in A.
    assert (Hl1 : l < length (linkChain (length h) (length h + 1) (Datatypes.S k) h1))
      by (rewrite linkChain_length; lia).
    destruct (lookup_lt_is_Some_2 _ l Hl1) as [v Hv].
    change (reflect.TPtr (ptrN k S)) with (ptrN (Datatypes.S k) S).
    rewrite (SetValue_link _ _ _ _ _ Hv).
    replace (length h + 1) with (Datatypes.S (length h)) by lia. reflexivity.
Qed.

End Indirection.

(** C4, as the code has it.  For a destination behind [S k] levels of
    pointer above a type [S] that is no pointer, [singleResult]
    allocates a fresh zero variable at every level, whether or not the
    location already holds a value, binds the row into the fresh [S] at
    the end exactly as it binds a destination that points to it
    directly, and stores each pointer only after the binding below it
    has succeeded: on success the destination leads through the fresh
    variables to the record bound; otherwise no pointer is stored and
    every variable that existed, the destination among them, is as it
    was. *)
Theorem C4_pointer_indirection `{RT : GoRuntime}
    (k : nat) (row : Row) (S : reflect.Typ) (l : reflect.loc) (h : reflect.Heap) :
  reflect.kindOf S <> reflect.Ptr ->
  l < length h ->
  let a := length h in
  let direct :=
    singleResult row (ptrTo S (a + k)) (h ++ replicate k (reflect.VPtr None) ++ [reflect.zero S]) in
  let linked := linkChain l a (Datatypes.S k) direct.2 in
  singleResult row (ptrTo (ptrN (Datatypes.S k) S) l) h
  = match direct.1 with
    | Ok None => (Ok None, linked)
    | r => (r, direct.2)
    end
  /\ (forall l', l' < a -> direct.2 !! l' = h !! l')
  /\ follow (Datatypes.S k) l linked = Some (a + k)
  /\ linked !! (a + k) = direct.2 !! (a + k)
  /\ (forall l', l' < a -> l' <> l -> linked !! l' = h !! l').
Proof.
  intros HK Hl a direct linked.
  assert (HD : direct = singleResultRec 2 row (ptrTo S (a + k))
                          (h ++ replicate k (reflect.VPtr None) ++ [reflect.zero S])).
  { subst direct. unfold singleResult, ptrTo, depthOf. cbn [ptrDepth].
    rewrite (ptrDepth_not_pointer _ HK). reflexivity. }
  assert (HF : length (h ++ replicate k (reflect.VPtr None) ++ [reflect.zero S]) <= length direct.2
               /\ forall l', l' < a -> direct.2 !! l' = h !! l').
  { destruct (singleResult_frame row (ptrTo S (a + k))
                (h ++ replicate k (reflect.VPtr None) ++ [reflect.zero S]) direct.1 direct.2)
      as [A B]; [subst direct; apply surjective_pairing|].
    split; [exact A|]. intros l' Hl'. rewrite B.
    - apply lookup_app_old. exact Hl'.
    - rewrite length_app. subst a. lia.
    - simpl. intros [= E]. subst a. lia. }
  destruct HF as [HLen HOld].
  rewrite !length_app, length_replicate in HLen. cbn [length] in HLen.
  split; [|split; [exact HOld|split; [|split]]].
  - unfold singleResult, ptrTo at 1, depthOf. cbn [ptrDepth].
    rewrite ptrDepth_ptrN, (ptrDepth_not_pointer _ HK).
    replace (Datatypes.S (Datatypes.S (Datatypes.S k + 0))) with (Datatypes.S k + 2) by lia.
    rewrite (singleResultRec_chain k 1 row S l h HK Hl).
    fold a. rewrite <- HD. destruct direct as [[[e|]|msg|] h1]; reflexivity.
  - subst linked. apply follow_linkChain; subst a; lia.
  - subst linked. apply linkChain_lookup_other; subst a; lia.
  - intros l' Hl' Hne. subst linked. rewrite linkChain_lookup_other by (auto; lia).
    apply HOld. exact Hl'.
Qed.

Lemma C4_pointer_indirection_witness :
  singleResult (RT := sampleRuntime) aliceRow (ptrTo (reflect.TPtr (reflect.TPtr userT)) 0)
    [reflect.VPtr None]
  = (Ok None, [reflect.VPtr (Some 1); reflect.VPtr (Some 2); user 1 "Alice" ""]).
Proof.
  change (reflect.TPtr (reflect.TPtr userT)) with (ptrN 2 userT).
  rewrite (proj1 (C4_pointer_indirection (RT := sampleRuntime) 1 aliceRow userT 0
                    [reflect.VPtr None] ltac:(discriminate) ltac:(simpl; lia))).
  vm_compute. reflexivity.
Defined.

(** C4 as stated fails.  First, a pointer is not written back before
    descending: when the row does not bind, the destination's pointer,
    nil before the call, is still nil after it, where the resolution
    worded by the specification leaves it set.  Second, a location that
    holds a value is not descended into: the record it points to is left
    alone and a fresh one is put in its place, so that a field without
    binding reads as zero through the destination. *)
Lemma C4_counterexample :
  (singleResult (RT := sampleRuntime) badRow (ptrTo (reflect.TPtr userT) 0)
     [reflect.VPtr None]).2 !! 0 = Some (reflect.VPtr None)
  /\ (singleResultBySpec (RT := sampleRuntime) 3 badRow (ptrTo (reflect.TPtr userT) 0)
        [reflect.VPtr None]).2 !! 0 = Some (reflect.VPtr (Some 1))
  /\ singleResult (RT := sampleRuntime) aliceRow (ptrTo (reflect.TPtr userT) 0)
       [reflect.VPtr (Some 1); user 7 "old" "kept"]
     = (Ok None, [reflect.VPtr (Some 2); user 7 "old" "kept"; user 1 "Alice" ""])
  /\ singleResultBySpec (RT := sampleRuntime) 3 aliceRow (ptrTo (reflect.TPtr userT) 0)
       [reflect.VPtr (Some 1); user 7 "old" "kept"]
     = (Ok None, [reflect.VPtr (Some 1); user 1 "Alice" "kept"]).
Proof. repeat split; vm_compute; reflexivity. Qed.

(** ** The collection binder *)

Section Collection.
Context `{RT : GoRuntime}.

Lemma Elem_heap v h r h' : reflect.Elem v h = (r, h') -> h' = h.
Proof.
  unfold reflect.Elem. destruct v as [|t x|t p ro].
  - intros [= <- <-]. reflexivity.
  - cbn [reflect.dataOf]. rewrite bind_ret. cbn [fst snd].
    destruct (reflect.kindOf t); try (intros [= <- <-]; reflexivity).
    + destruct x as [| | | | | | | | | |[[t' x']|]|]; intros [= <- <-]; reflexivity.
    + destruct x as [| | | | | | |[a|]| | | |]; try (intros [= <- <-]; reflexivity).
      destruct (reflect.underlying t); intros [= <- <-]; reflexivity.
  - intros H. apply bind_inv in H. destruct H as [(d & h1 & E & H)|(r0 & E & _ & _)];
      apply dataOf_heap in E; subst; [|reflexivity].
    destruct (reflect.kindOf d.1); try (injection H as <- <-; reflexivity).
    + destruct d.2 as [| | | | | | | | | |[[t' x']|]|]; injection H as <- <-; reflexivity.
    + destruct d.2 as [| | | | | | |[a|]| | | |]; try (injection H as <- <-; reflexivity).
      destruct (reflect.underlying d.1); injection H as <- <-; reflexivity.
Qed.

Lemma Append_heap s x h r h' : reflect.Append s x h = (r, h') -> h' = h.
Proof.
  unfold reflect.Append. intros H.
  apply bind_inv in H. destruct H as [(ds & h1 & E & H)|(r0 & E & _ & _)];
    apply dataOf_heap in E; subst; [|reflexivity].
  destruct (reflect.underlying ds.1); try (injection H as <- <-; reflexivity).
  destruct (reflect.isRO x); [injection H as <- <-; reflexivity|].
  apply bind_inv in H. destruct H as [(dx & h1 & E & H)|(r0 & E & _ & _)];
    apply dataOf_heap in E; subst; [|reflexivity].
  destruct (reflect.AssignableTo dx.1 _); injection H as <- <-; reflexivity.
Qed.

Lemma bindElement_eq T row h :
  bindElement T row h =
  match reflect.TypeElem (Some T) with
  | Ok elemT => singleResult row (ptrTo elemT (length h)) (h ++ [reflect.zero elemT])
  | Panic msg => (Panic msg, h)
  | OutOfFuel => (OutOfFuel, h)
  end.
Proof.
  unfold bindElement. destruct (reflect.TypeElem (Some T)) as [elemT|msg|]; reflexivity.
Qed.

Lemma multiLoop_cons T row rest s h :
  multiLoop T (row :: rest) s h =
  match reflect.TypeElem (Some T) with
  | Ok elemT =>
      match singleResult row (ptrTo elemT (length h)) (h ++ [reflect.zero elemT]) with
      | (Ok (Some e), h2) => (Ok (inl e), h2)
      | (Ok None, h2) =>
          (el <- reflect.Elem (reflect.Val (reflect.TPtr elemT) (reflect.VPtr (Some (length h)))) ;;
           s' <- reflect.Append s el ;;
           multiLoop T rest s') h2
      | (Panic msg, h2) => (Panic msg, h2)
      | (OutOfFuel, h2) => (OutOfFuel, h2)
      end
  | Panic msg => (Panic msg, h)
  | OutOfFuel => (OutOfFuel, h)
  end.
Proof.
  cbn [multiLoop]. destruct (reflect.TypeElem (Some T)) as [elemT|msg|];
    [|reflexivity|reflexivity].
  rewrite bind_lift_Ok, bind_eq. unfold reflect.New at 1.
  rewrite bind_eq. unfold reflect.Interface_ at 1.
  cbn [reflect.isRO reflect.dataOf]. rewrite bind_ret. cbn [fst snd reflect.kindOf ret].
  rewrite bind_eq. unfold ptrTo.
  destruct (singleResult row _ _) as [[[e|]|msg|] h2]; reflexivity.
Qed.

(** A turn of the loop allocates and leaves what exists as it was. *)
Lemma bindElement_frame T row h r h' :
  bindElement T row h = (r, h') ->
  length h <= length h' /\ forall l', l' < length h -> h' !! l' = h !! l'.
Proof.
  rewrite bindElement_eq. destruct (reflect.TypeElem (Some T)) as [elemT|msg|];
    try (intros [= <- <-]; auto).
  intros H. apply singleResult_frame in H. destruct H as [A B].
  rewrite length_app in A, B. simpl in A, B. split; [lia|].
  intros l' Hl'. rewrite B by (simpl; try lia; intros [= <-]; lia).
  apply lookup_app_old. exact Hl'.
Qed.

Lemma multiLoop_frame T arr :
  forall s h r h',
  multiLoop T arr s h = (r, h') ->
  length h <= length h' /\ forall l', l' < length h -> h' !! l' = h !! l'.
Proof.
  induction arr as [|row rest IH]; intros s h r h' H.
  - apply ret_inv in H. destruct H as [_ ->]. auto.
  - rewrite multiLoop_cons in H.
    pose proof (bindElement_frame T row h) as HB. rewrite bindElement_eq in HB.
    destruct (reflect.TypeElem (Some T)) as [elemT|msg|];
      try (injection H as <- <-; auto).
    destruct (singleResult row _ _) as [[[e|]|msg|] h2];
      specialize (HB _ _ eq_refl); destruct HB as [A B];
      try (injection H as <- <-; auto).
    apply bind_inv in H. destruct H as [(el & h3 & E & H)|(r0 & E & _ & _)];
      apply Elem_heap in E; subst; [|auto].
    apply bind_inv in H. destruct H as [(s' & h3 & E & H)|(r0 & E & _ & _)];
      apply Append_heap in E; subst; [|auto].
    destruct (IH _ _ _ _ H) as [A' B']. split; [lia|].
    intros l' Hl'. rewrite B' by lia. auto.
Qed.

Lemma multiLoop_app T pre :
  forall rest s h,
  multiLoop T (pre ++ rest) s h =
  match multiLoop T pre s h with
  | (Ok (inr s'), h1) => multiLoop T rest s' h1
  | (r, h1) => (r, h1)
  end.
Proof.
  induction pre as [|row pre IH]; intros rest s h; [reflexivity|].
  rewrite <- app_comm_cons, !multiLoop_cons.
  destruct (reflect.TypeElem (Some T)) as [elemT|msg|]; try reflexivity.
  destruct (singleResult row _ _) as [[[e|]|msg|] h2]; try reflexivity.
  rewrite !bind_eq. destruct (reflect.Elem _ h2) as [[el|msg|] h3]; try reflexivity.
  rewrite !bind_eq. destruct (reflect.Append s el h3) as [[s'|msg|] h4]; try reflexivity.
  apply IH.
Qed.

Lemma multiResults_eq arr PT T e l h :
  reflect.underlying PT = reflect.TPtr T ->
  reflect.underlying T = reflect.TSlice e ->
  multiResults arr (Some (PT, reflect.VPtr (Some l))) h =
  match multiLoop T arr (reflect.Val T (reflect.VSlice (Some []))) h with
  | (Ok (inl err), h1) => (Ok (Some err), h1)
  | (Ok (inr s), h1) => (reflect.SetValue (reflect.Var T (l, []) false) s ;;; ret None) h1
  | (Panic msg, h1) => (Panic msg, h1)
  | (OutOfFuel, h1) => (OutOfFuel, h1)
  end.
Proof.
  intros HU HT. unfold multiResults.
  rewrite bind_eq, (getPtrObjectValue_ptr _ _ _ _ HU). cbn [reflect.CanSet negb reflect.Type_].
  rewrite bind_lift_Ok, bind_eq. unfold reflect.MakeSlice at 1. rewrite HT.
  cbn [Nat.ltb Nat.leb replicate ret reflect.Type_]. rewrite bind_lift_Ok, bind_eq.
  destruct (multiLoop T arr _ h) as [[[err|s]|msg|] h1]; reflexivity.
Qed.

(** Unless [multiResults] returns nil, every variable that existed, the
    destination slice among them, is as it was. *)
Lemma multiResults_failure_leaves_heap arr PT T e l h r h' :
  reflect.underlying PT = reflect.TPtr T ->
  reflect.underlying T = reflect.TSlice e ->
  multiResults arr (Some (PT, reflect.VPtr (Some l))) h = (r, h') ->
  r <> Ok None ->
  forall l', l' < length h -> h' !! l' = h !! l'.
Proof.
  intros HU HT H Hr. rewrite (multiResults_eq _ _ _ _ _ _ HU HT) in H.
  destruct (multiLoop T arr _ h) as [[[err|s]|msg|] h1] eqn:EL;
    apply multiLoop_frame in EL; destruct EL as [A B];
    try (injection H as <- <-; exact B).
  apply bind_inv in H. destruct H as [(u & h2 & E & H)|(r0 & E & N & _)].
  - apply ret_inv in H. destruct H as [-> _]. contradiction.
  - unfold reflect.SetValue in E.
    destruct (reflect.isRO s); [injection E as <- <-; exact B|].
    apply bind_inv in E. destruct E as [(d & h2 & E & H)|(r1 & E & _ & _)];
      apply dataOf_heap in E; subst; [|exact B].
    destruct (reflect.AssignableTo d.1 T); [|injection H as <- <-; exact B].
    unfold reflect.write in H. destruct (reflect.store _ _ _).
    + injection H as <- _. exfalso. eapply N. reflexivity.
    + injection H as <- <-. exact B.
Qed.

End Collection.

(** C5.  When the rows before [row] bind and [row] fails to bind with
    error [err], [multiResults] returns [err] at once, whatever rows
    follow, and every variable that existed before the call, the
    destination slice among them, is as it was: no partial slice is
    stored. *)
Theorem C5_failed_row_aborts_collection `{RT : GoRuntime}
    (T e : reflect.Typ) (l : reflect.loc) (pre post : list Row) (row : Row)
    (h h1 h2 : reflect.Heap) (v : reflect.val) (s1 : reflect.Value) (err : error) :
  h !! l = Some v ->
  reflect.underlying T = reflect.TSlice e ->
  multiLoop T pre (reflect.Val T (reflect.VSlice (Some []))) h = (Ok (inr s1), h1) ->
  bindElement T row h1 = (Ok (Some err), h2) ->
  multiResults (pre ++ row :: post) (ptrTo T l) h = (Ok (Some err), h2)
  /\ h2 !! l = Some v
  /\ forall l', l' < length h -> h2 !! l' = h !! l'.
Proof.
  intros Hl HT Hpre Hrow.
  assert (HR : multiResults (pre ++ row :: post) (ptrTo T l) h = (Ok (Some err), h2)).
  { unfold ptrTo. rewrite (multiResults_eq _ (reflect.TPtr T) T e) by (auto; reflexivity).
    rewrite multiLoop_app, Hpre, multiLoop_cons.
    rewrite bindElement_eq in Hrow.
    destruct (reflect.TypeElem (Some T)) as [elemT|msg|]; try discriminate Hrow.
    rewrite Hrow. reflexivity. }
  assert (HF : forall l', l' < length h -> h2 !! l' = h !! l').
  { intros l' Hl'. unfold ptrTo in HR.
    apply (multiResults_failure_leaves_heap _ (reflect.TPtr T) T e l h _ _ eq_refl HT HR);
      [discriminate|exact Hl']. }
  split; [exact HR|]. split; [|exact HF].
  rewrite HF; [exact Hl|]. eapply lookup_lt_Some. exact Hl.
Qed.

Lemma C5_failed_row_witness :
  multiResults (RT := sampleRuntime) ([aliceRow] ++ badRow :: [bobRow])
    (ptrTo (reflect.TSlice userT) 0) [reflect.VSlice (Some [user 9 "Zoe" "kept"])]
  = (Ok (Some ErrConvertValue),
     [reflect.VSlice (Some [user 9 "Zoe" "kept"]); user 1 "Alice" ""; user 0 "" ""])
  /\ [reflect.VSlice (Some [user 9 "Zoe" "kept"]); user 1 "Alice" ""; user 0 "" ""] !! 0
     = Some (reflect.VSlice (Some [user 9 "Zoe" "kept"])).
Proof.
  destruct (C5_failed_row_aborts_collection (RT := sampleRuntime)
              (reflect.TSlice userT) userT 0 [aliceRow] [bobRow] badRow
              [reflect.VSlice (Some [user 9 "Zoe" "kept"])]
              [reflect.VSlice (Some [user 9 "Zoe" "kept"]); user 1 "Alice" ""]
              [reflect.VSlice (Some [user 9 "Zoe" "kept"]); user 1 "Alice" ""; user 0 "" ""]
              (reflect.VSlice (Some [user 9 "Zoe" "kept"]))
              (reflect.Val (reflect.TSlice userT) (reflect.VSlice (Some [user 1 "Alice" ""])))
              ErrConvertValue)
    as (A & B & _).
  - reflexivity.
  - reflexivity.
  - vm_compute. reflexivity.
  - vm_compute. reflexivity.
  - split; [exact A | exact B].
Defined.

(** ** Fields without binding *)

Section Untouched.
Context `{RT : GoRuntime}.

Lemma load_of_lookup (l : reflect.loc) (path : list nat) (h h' : reflect.Heap) :
  h' !! l = h !! l -> reflect.load (l, path) h' = reflect.load (l, path) h.
Proof. unfold reflect.load. simpl. intros ->. reflexivity. Qed.

Lemma targetLoc_inv target l :
  targetLoc target = Some l -> exists PT, target = Some (PT, reflect.VPtr (Some l)).
Proof.
  destruct target as [[PT x]|]; [|discriminate].
  destruct x as [| | | | | | |[a|]| | | |]; try discriminate.
  intros [= <-]. eauto.
Qed.

Lemma MakeSlice_heap t len cap h r h' : reflect.MakeSlice t len cap h = (r, h') -> h' = h.
Proof.
  unfold reflect.MakeSlice. destruct (reflect.underlying t); try (intros [= <- <-]; reflexivity).
  destruct (cap <? len); intros [= <- <-]; reflexivity.
Qed.

(** [multiResults] writes into the variable its destination points to
    and into variables it allocates itself, and nowhere else. *)
Lemma multiResults_frame arr target h r h' :
  multiResults arr target h = (r, h') ->
  forall l', l' < length h -> targetLoc target <> Some l' -> h' !! l' = h !! l'.
Proof.
  unfold multiResults. intros H.
  apply bind_inv in H. destruct H as [(valueObj & h1 & Ev & H)|(r0 & Ev & _ & _)];
    apply getPtrObjectValue_inv in Ev; destruct Ev as [-> Hv]; [|auto].
  destruct (reflect.CanSet valueObj) eqn:HC; cbn [negb] in H.
  2:{ apply ret_inv in H. destruct H as [_ ->]. auto. }
  destruct (Hv _ eq_refl HC) as (e & l & -> & HL).
  lift_case H; [|auto].
  apply bind_inv in H. destruct H as [(s0 & h1 & Em & H)|(r0 & Em & _ & _)];
    apply MakeSlice_heap in Em; subst; [|auto].
  lift_case H; [|auto].
  apply bind_inv in H. destruct H as [(res & h1 & El & H)|(r0 & El & _ & _)];
    apply multiLoop_frame in El; destruct El as [A B]; [|auto].
  destruct res as [err|s1].
  - apply ret_inv in H. destruct H as [_ ->]. auto.
  - apply bind_ret_inv in H. destruct H as [r0 H]. apply SetValue_stores in H.
    destruct H as [->|(t0 & p0 & ro0 & x & [= <- <- <-] & Hst)]; [auto|].
    intros l' Hl' Hne. rewrite (store_lookup_ne _ _ _ _ l' Hst) by (simpl; congruence).
    auto.
Qed.

Lemma record_fields_not_pointer T fs :
  reflect.structFields T = Some fs -> reflect.kindOf T <> reflect.Ptr.
Proof.
  intros HF. rewrite <- kindOf_underlying. unfold reflect.structFields in HF.
  destruct (reflect.underlying T); try discriminate HF; discriminate.
Qed.

Lemma singleResult_unbound_field row PT T l h r h' i :
  reflect.underlying PT = reflect.TPtr T ->
  reflect.kindOf T <> reflect.Ptr ->
  unbound T i ->
  singleResult row (Some (PT, reflect.VPtr (Some l))) h = (r, h') ->
  reflect.load (l, [i]) h' = reflect.load (l, [i]) h.
Proof.
  intros HU HK HT H. unfold singleResult in H.
  rewrite (singleResultRec_record _ _ _ T) in H by auto.
  lift_case H; [|reflexivity].
  apply fieldLoop_frame in H. destruct H as (_ & _ & C). apply C. left. exact HT.
Qed.

End Untouched.

Section ScanHeap.
Context `{RT : GoRuntime} {R : Type} `{IR : IRows R}.

Lemma IsNil_heap v h r h' : reflect.IsNil v h = (r, h') -> h' = h.
Proof.
  unfold reflect.IsNil. destruct v as [|t x|t p ro].
  - intros [= <- <-]. reflexivity.
  - cbn [reflect.dataOf]. rewrite bind_ret.
    destruct (reflect.nilable _); intros [= <- <-]; reflexivity.
  - intros H. apply bind_inv in H. destruct H as [(d & h1 & E & H)|(r0 & E & _ & _)];
      apply dataOf_heap in E; subst; [|reflexivity].
    destruct (reflect.nilable _); injection H as <- <-; reflexivity.
Qed.

Lemma onHeap_inv {A : Type} (m : M reflect.Heap A) (rows rows' : R) h h' (r : Res A) :
  onHeap m (rows, h) = (r, (rows', h')) -> m h = (r, h') /\ rows' = rows.
Proof.
  unfold onHeap. cbn [fst snd]. destruct (m h) as [r0 h0]. intros [= <- <- <-]. auto.
Qed.

Lemma onRows_heap {A : Type} (m : M R A) (rows rows' : R) h h' (r : Res A) :
  onRows m (rows, h) = (r, (rows', h')) -> h' = h.
Proof.
  unfold onRows. cbn [fst snd]. destruct (m rows) as [r0 rows0]. intros [= <- <- <-]. auto.
Qed.

(** What [Scan] does to the heap is what [multiResults] or
    [singleResult] does on the destination, or nothing. *)
Lemma Scan_heap fuel target (rows rows' : R) h h' r :
  Scan fuel target (rows, h) = (r, (rows', h')) ->
  h' = h
  \/ (exists datas, multiResults datas target h = (r, h'))
  \/ (exists first, singleResult first target h = (r, h')).
Proof.
  unfold Scan. destruct target as [d|]; [|intros [= <- <- <-]; auto].
  intros H.
  apply bind_inv in H. destruct H as [(isnil & [rows1 h1] & E & H)|(r0 & E & _ & _)];
    apply onHeap_inv in E; destruct E as [E ->]; apply IsNil_heap in E; subst; [|auto].
  destruct isnil; [injection H as <- <- <-; auto|].
  apply bind_inv in H. destruct H as [(k & [rows1 h1] & E1 & H)|(r0 & E1 & _ & _)];
    apply lift_inv in E1; destruct E1 as [E1 Es];
    [injection Es as -> ->|injection Es as <- <-; auto].
  destruct (negb _); [injection H as <- <- <-; auto|].
  apply bind_inv in H. destruct H as [([datas err] & [rows1 h1] & E2 & H)|(r0 & E2 & _ & _)];
    apply onRows_heap in E2; subst; [|auto].
  destruct err as [e|]; [injection H as <- <- <-; auto|].
  apply bind_inv in H. destruct H as [(t & [rows2 h2] & E3 & H)|(r0 & E3 & _ & _)];
    apply lift_inv in E3; destruct E3 as [E3 Es];
    [injection Es as -> ->|injection Es as <- <-; auto].
  destruct (reflect.kindOf t); destruct datas as [|first rest];
    try (injection H as <- <- <-; auto; fail);
    apply onHeap_inv in H; destruct H as [H _]; eauto.
Qed.

End ScanHeap.

(** C8, as the code has it.  A field that has no [pg] tag, or an empty
    one, of a record that exists before the call is left as it was by
    every binding operation, whatever the rows hold and however the
    binding ends: by [singleResult] when the destination points to the
    record, and by [singleResult], [multiResults] and [Scan] when it
    does not, for they then store nothing in the record at all.  Read
    through a destination that is more than one pointer deep, the field
    is not kept: when the binding succeeds the destination leads to a
    new record, and the field holds the zero value there, whatever the
    record it led to before held. *)
Theorem C8_untagged_fields_untouched `{RT : GoRuntime} {R : Type} `{IR : IRows R}
    (T : reflect.Typ) (fs : list reflect.StructField) (i : nat) (f : reflect.StructField)
    (l : reflect.loc) (h : reflect.Heap) (target : reflect.iface) :
  reflect.structFields T = Some fs ->
  fs !! i = Some f ->
  reflect.Lookup (reflect.fieldTag f) DefaultTagName = None
  \/ reflect.Lookup (reflect.fieldTag f) DefaultTagName = Some "" ->
  l < length h ->
  (forall PT, target = Some (PT, reflect.VPtr (Some l)) -> reflect.underlying PT = reflect.TPtr T) ->
  (forall result r h', singleResult result target h = (r, h') ->
     reflect.load (l, [i]) h' = reflect.load (l, [i]) h)
  /\ (forall arr r h', multiResults arr target h = (r, h') ->
        reflect.load (l, [i]) h' = reflect.load (l, [i]) h)
  /\ (forall fuel (rows rows' : R) r h', Scan fuel target (rows, h) = (r, (rows', h')) ->
        reflect.load (l, [i]) h' = reflect.load (l, [i]) h)
  /\ (forall k row l0, l0 < length h ->
        (singleResult row (ptrTo (ptrN (S k) T) l0) h).1 = Ok None ->
        fieldThrough (S k) l0 i (singleResult row (ptrTo (ptrN (S k) T) l0) h).2
        = reflect.vget (reflect.zero T) [i]).
Proof.
  intros HF Hi HT Hl Htyped.
  assert (HK : reflect.kindOf T <> reflect.Ptr) by (eapply record_fields_not_pointer; eauto).
  assert (HUB : unbound T i).
  { intros f' Hf'. unfold reflect.TypeField in Hf'. rewrite HF, Hi in Hf'.
    injection Hf' as <-. exact HT. }
  assert (HS : forall result r h', singleResult result target h = (r, h') ->
                 reflect.load (l, [i]) h' = reflect.load (l, [i]) h).
  { intros result r h' H. destruct (decide (targetLoc target = Some l)) as [Ht|Ht].
    - destruct (targetLoc_inv _ _ Ht) as [PT ->]. specialize (Htyped PT eq_refl).
      eapply singleResult_unbound_field; eauto.
    - apply load_of_lookup.
      apply singleResult_frame in H. destruct H as [_ B]. apply B; assumption. }
  assert (HM : forall arr r h', multiResults arr target h = (r, h') ->
                 reflect.load (l, [i]) h' = reflect.load (l, [i]) h).
  { intros arr r h' H. destruct (decide (targetLoc target = Some l)) as [Ht|Ht].
    - destruct (targetLoc_inv _ _ Ht) as [PT ->]. specialize (Htyped PT eq_refl).
      unfold multiResults in H.
      rewrite bind_eq, (getPtrObjectValue_ptr _ _ _ _ Htyped) in H.
      cbn [reflect.CanSet negb reflect.Type_] in H. rewrite bind_lift_Ok, bind_eq in H.
      unfold reflect.MakeSlice in H. unfold reflect.structFields in HF.
      destruct (reflect.underlying T); try discriminate HF;
        injection H as _ <-; reflexivity.
    - apply load_of_lookup. eapply multiResults_frame; eauto. }
  split; [exact HS|]. split; [exact HM|]. split.
  { intros fuel rows rows' r h' H.
    destruct (Scan_heap _ _ _ _ _ _ _ H) as [->|[[datas H']|[first H']]]; eauto. }
  intros k row l0 Hl0.
  set (a := length h).
  set (h0 := h ++ replicate k (reflect.VPtr None) ++ [reflect.zero T]).
  assert (HD : singleResult row (ptrTo T (a + k)) h0
               = singleResultRec 2 row (ptrTo T (a + k)) h0).
  { unfold singleResult, ptrTo, depthOf. cbn [ptrDepth].
    rewrite (ptrDepth_not_pointer _ HK). reflexivity. }
  assert (HE : singleResult row (ptrTo (ptrN (S k) T) l0) h
               = match singleResult row (ptrTo T (a + k)) h0 with
                 | (Ok None, h1) => (Ok None, linkChain l0 a (S k) h1)
                 | (r, h1) => (r, h1)
                 end).
  { rewrite HD. unfold singleResult, ptrTo at 1, depthOf. cbn [ptrDepth].
    rewrite ptrDepth_ptrN, (ptrDepth_not_pointer _ HK).
    replace (S (S (S k + 0))) with (S k + 2) by lia.
    apply (singleResultRec_chain k 1 row T l0 h HK Hl0). }
  rewrite HE.
  destruct (singleResult row (ptrTo T (a + k)) h0) as [[[e|]|msg|] h1] eqn:Er;
    cbn [fst snd]; intros Hok; try discriminate Hok.
  assert (Hlen : length h0 = a + k + 1).
  { subst h0 a. rewrite !length_app, length_replicate. cbn [length]. lia. }
  destruct (singleResult_frame _ _ _ _ _ Er) as [Hgrow _].
  unfold fieldThrough. rewrite follow_linkChain by (subst a; lia).
  rewrite (load_of_lookup (a + k) [i] h1 (linkChain l0 a (S k) h1))
    by (apply linkChain_lookup_other; subst a; lia).
  rewrite (singleResult_unbound_field row (reflect.TPtr T) T (a + k) h0 (Ok None) h1 i
             eq_refl HK HUB Er).
  unfold reflect.load. cbn [fst snd]. subst h0 a.
  rewrite lookup_app_r by lia.
  rewrite lookup_app_r by (rewrite length_replicate; lia).
  rewrite length_replicate.
  replace (length h + k - length h - k) with 0 by lia. reflexivity.
Qed.

Lemma C8_untagged_fields_witness :
  reflect.load (0, [2])
    (singleResult (RT := sampleRuntime) aliceRow (ptrTo userT 0) [user 0 "" "kept"]).2
  = Some (reflect.VString "kept")
  /\ reflect.load (0, [2])
       (multiResults (RT := sampleRuntime) [aliceRow; bobRow] (ptrTo (reflect.TSlice userT) 1)
          [user 0 "" "kept"; reflect.VSlice None]).2
     = Some (reflect.VString "kept")
  /\ fieldThrough 1 0 2
       (singleResult (RT := sampleRuntime) aliceRow (ptrTo (reflect.TPtr userT) 0)
          [reflect.VPtr (Some 1); user 7 "old" "kept"]).2
     = Some (reflect.VString "").
Proof.
  split; [|split].
  - rewrite (proj1 (C8_untagged_fields_untouched (RT := sampleRuntime) (R := ListRows)
                      userT _ 2
                      (reflect.mkField "Note" true stringT []) 0 [user 0 "" "kept"]
                      (ptrTo userT 0) eq_refl eq_refl (or_introl eq_refl)
                      ltac:(simpl; lia) ltac:(intros PT [= <-]; reflexivity))
               aliceRow _ _ (surjective_pairing _)).
    reflexivity.
  - rewrite (proj1 (proj2 (C8_untagged_fields_untouched (RT := sampleRuntime) (R := ListRows)
                      userT _ 2
                      (reflect.mkField "Note" true stringT []) 0
                      [user 0 "" "kept"; reflect.VSlice None]
                      (ptrTo (reflect.TSlice userT) 1) eq_refl eq_refl (or_introl eq_refl)
                      ltac:(simpl; lia) ltac:(intros PT [= ])))
               [aliceRow; bobRow] _ _ (surjective_pairing _)).
    reflexivity.
  - change (reflect.TPtr userT) with (ptrN 1 userT).
    rewrite (proj2 (proj2 (proj2 (C8_untagged_fields_untouched (RT := sampleRuntime)
                      (R := ListRows) userT _ 2
                      (reflect.mkField "Note" true stringT []) 1
                      [reflect.VPtr (Some 1); user 7 "old" "kept"]
                      (ptrTo userT 1) eq_refl eq_refl (or_introl eq_refl)
                      ltac:(simpl; lia) ltac:(intros PT [= <-]; reflexivity))))
               0 aliceRow 0 ltac:(simpl; lia) ltac:(vm_compute; reflexivity)).
    reflexivity.
Defined.

(** C8 as stated fails.  The destination is a pointer to a pointer that
    leads to a record whose field [Note], which has no tag, holds
    ["kept"].  After [singleResult], and after [Scan], the record the
    destination leads to is a new one: read through the destination,
    the field holds the empty string.  The record it led to before is
    still in the heap, unchanged and no longer reached. *)
Lemma C8_counterexample :
  fieldThrough 1 0 2 [reflect.VPtr (Some 1); user 7 "old" "kept"]
  = Some (reflect.VString "kept")
  /\ singleResult (RT := sampleRuntime) aliceRow (ptrTo (reflect.TPtr userT) 0)
       [reflect.VPtr (Some 1); user 7 "old" "kept"]
     = (Ok None, [reflect.VPtr (Some 2); user 7 "old" "kept"; user 1 "Alice" ""])
  /\ fieldThrough 1 0 2
       (singleResult (RT := sampleRuntime) aliceRow (ptrTo (reflect.TPtr userT) 0)
          [reflect.VPtr (Some 1); user 7 "old" "kept"]).2
     = Some (reflect.VString "")
  /\ (Scan (RT := sampleRuntime) 5 (ptrTo (reflect.TPtr userT) 0)
        (sampleRows, [reflect.VPtr (Some 1); user 7 "old" "kept"])).1 = Ok None
  /\ fieldThrough 1 0 2
       (Scan (RT := sampleRuntime) 5 (ptrTo (reflect.TPtr userT) 0)
          (sampleRows, [reflect.VPtr (Some 1); user 7 "old" "kept"])).2.2
     = Some (reflect.VString "").
Proof. repeat split; vm_compute; reflexivity. Qed.

(** The scenario of the specification: two rows bound into a slice of
    records, in row order. *)
Example Scan_two_users :
  (Scan (RT := sampleRuntime) 5 (ptrTo (reflect.TSlice userT) 0)
     (sampleRows, [reflect.VSlice None])).1 = Ok None
  /\ (Scan (RT := sampleRuntime) 5 (ptrTo (reflect.TSlice userT) 0)
        (sampleRows, [reflect.VSlice None])).2.2 !! 0
     = Some (reflect.VSlice (Some [user 1 "Alice" ""; user 2 "Bob" ""])).
Proof. split; vm_compute; reflexivity. Qed.

(** * Further properties of the package *)

(** ** Scan: refusals and failures *)



(** X2.  When the extraction of the rows fails, [Scan] returns the
    error of the extraction and the heap is as it was, whatever the
    destination points to. *)
Theorem X2_scan_propagates_extraction_error `{RT : GoRuntime} {R : Type} `{IR : IRows R}
    (fuel : nat) (rows rows' : R) (PT T : reflect.Typ) (l : reflect.loc) (h : reflect.Heap)
    (datas : list Row) (e : error) :
  reflect.underlying PT = reflect.TPtr T ->
  ExtraDatasFromRows fuel rows = (Ok (datas, Some e), rows') ->
  Scan fuel (Some (PT, reflect.VPtr (Some l))) (rows, h) = (Ok (Some e), (rows', h)).
Proof.
  intros HU HE. rewrite (Scan_pointer _ _ _ _ _ _ HU), HE. reflexivity.
Qed.

Lemma X2_scan_propagates_witness :
  Scan (RT := sampleRuntime) 5 (ptrTo userT 0)
    (mkListRows ([], Some (ErrForeign "no columns")) [] ([], None) 0, [user 3 "x" "y"])
  = (Ok (Some (ErrForeign "no columns")),
     (mkListRows ([], Some (ErrForeign "no columns")) [] ([], None) 1, [user 3 "x" "y"])).
Proof.
  apply (X2_scan_propagates_extraction_error (RT := sampleRuntime) 5
           (mkListRows ([], Some (ErrForeign "no columns")) [] ([], None) 0)
           (mkListRows ([], Some (ErrForeign "no columns")) [] ([], None) 1)
           (reflect.TPtr userT) userT 0 [user 3 "x" "y"] []); reflexivity.
Defined.

(** X3.  When the destination points to something that is no slice and
    no row was extracted, [Scan] returns [ErrEmptyResult] and the heap
    is as it was. *)
Theorem X3_scan_empty_result `{RT : GoRuntime} {R : Type} `{IR : IRows R}
    (fuel : nat) (rows rows' : R) (PT T : reflect.Typ) (l : reflect.loc) (h : reflect.Heap) :
  reflect.underlying PT = reflect.TPtr T ->
  reflect.kindOf T <> reflect.Slice ->
  ExtraDatasFromRows fuel rows = (Ok ([], None), rows') ->
  Scan fuel (Some (PT, reflect.VPtr (Some l))) (rows, h) = (Ok (Some ErrEmptyResult), (rows', h)).
Proof.
  intros HU HK HE. rewrite (Scan_pointer _ _ _ _ _ _ HU), HE.
  destruct (reflect.kindOf T); try reflexivity. contradiction.
Qed.

Lemma X3_scan_empty_result_witness :
  Scan (RT := sampleRuntime) 3 (ptrTo userT 0)
    (mkListRows (["id"; "name"], None) [] ([], None) 0, [user 3 "x" "y"])
  = (Ok (Some ErrEmptyResult),
     (mkListRows (["id"; "name"], None) [] ([], None) 2, [user 3 "x" "y"])).
Proof.
  apply (X3_scan_empty_result (RT := sampleRuntime) 3
           (mkListRows (["id"; "name"], None) [] ([], None) 0)
           (mkListRows (["id"; "name"], None) [] ([], None) 2)
           (reflect.TPtr userT) userT 0 [user 3 "x" "y"]);
    [reflexivity | discriminate | reflexivity].
Defined.

(** ** The binders on destinations they cannot bind *)

Section BadDestinations.
Context `{RT : GoRuntime}.

Lemma getPtrObjectValue_nil PT h :
  reflect.kindOf PT = reflect.Ptr ->
  getPtrObjectValue (Some (PT, reflect.VPtr None)) h = (Ok reflect.Zero, h).
Proof.
  intros HK. unfold getPtrObjectValue, reflect.Elem. cbn [reflect.ValueOf reflect.dataOf].
  rewrite bind_ret. cbn [fst snd]. rewrite HK. reflexivity.
Qed.

End BadDestinations.

(** X4.  [singleResult] and [multiResults] called with a nil pointer
    return [ErrTargetNotSettable] and leave the heap as it was. *)
Theorem X4_binders_refuse_nil_pointer `{RT : GoRuntime}
    (PT : reflect.Typ) (row : Row) (arr : list Row) (h : reflect.Heap) :
  reflect.kindOf PT = reflect.Ptr ->
  singleResult row (Some (PT, reflect.VPtr None)) h = (Ok (Some ErrTargetNotSettable), h)
  /\ multiResults arr (Some (PT, reflect.VPtr None)) h = (Ok (Some ErrTargetNotSettable), h).
Proof.
  intros HK. split.
  - unfold singleResult. cbn [singleResultRec].
    rewrite bind_eq, (getPtrObjectValue_nil _ _ HK). reflexivity.
  - unfold multiResults. rewrite bind_eq, (getPtrObjectValue_nil _ _ HK). reflexivity.
Qed.

Lemma X4_binders_refuse_nil_pointer_witness :
  singleResult (RT := sampleRuntime) aliceRow (Some (reflect.TPtr userT, reflect.VPtr None))
    [user 3 "x" "y"]
  = (Ok (Some ErrTargetNotSettable), [user 3 "x" "y"]).
Proof.
  apply (proj1 (X4_binders_refuse_nil_pointer (RT := sampleRuntime) (reflect.TPtr userT)
                  aliceRow [] [user 3 "x" "y"] eq_refl)).
Defined.

(** X5.  [singleResult] on a pointer to something that is neither a
    pointer nor a struct (a [*int64], a [*string], a [*[]T]) panics, in
    [NumField]; the heap is as it was. *)
Theorem X5_single_result_needs_a_record `{RT : GoRuntime}
    (PT T : reflect.Typ) (row : Row) (l : reflect.loc) (h : reflect.Heap) :
  reflect.underlying PT = reflect.TPtr T ->
  reflect.kindOf T <> reflect.Ptr ->
  reflect.structFields T = None ->
  singleResult row (Some (PT, reflect.VPtr (Some l))) h
  = (Panic "reflect: call of reflect.Value.NumField on non-struct Value", h).
Proof.
  intros HU HK HF. unfold singleResult.
  rewrite (singleResultRec_record _ _ _ T) by auto.
  rewrite bind_eq. unfold reflect.NumField. rewrite HF. reflexivity.
Qed.

Lemma X5_single_result_needs_a_record_witness :
  singleResult (RT := sampleRuntime) aliceRow (ptrTo int64T 0) [reflect.VInt 7]
  = (Panic "reflect: call of reflect.Value.NumField on non-struct Value", [reflect.VInt 7]).
Proof.
  apply (X5_single_result_needs_a_record (RT := sampleRuntime) (reflect.TPtr int64T) int64T
           aliceRow 0 [reflect.VInt 7]); [reflexivity | discriminate | reflexivity].
Defined.

(** ** The value converter: what it stores and when it fails *)

Lemma vget_vset (path : list nat) :
  forall v x v', reflect.vset v path x = Some v' -> reflect.vget v' path = Some x.
Proof.
  induction path as [|i rest IH]; intros v x v' H; simpl in *.
  - congruence.
  - destruct v; try discriminate H.
    destruct (fs !! i) as [f|] eqn:Ef; [|discriminate H].
    destruct (reflect.vset f rest x) as [f'|] eqn:Es; [|discriminate H].
    injection H as <-.
    rewrite list_lookup_insert_eq by (eapply lookup_lt_Some; eauto).
    eapply IH; eauto.
Qed.

(** What was stored in a place is what is loaded from it. *)
Lemma load_store (p : reflect.place) (x : reflect.val) (h h' : reflect.Heap) :
  reflect.store p x h = Some h' -> reflect.load p h' = Some x.
Proof.
  unfold reflect.store, reflect.load.
  destruct (h !! p.1) as [v|] eqn:Hl; [|discriminate].
  destruct (reflect.vset v p.2 x) as [v'|] eqn:Hs; [|discriminate].
  intros [= <-].
  rewrite list_lookup_insert_eq by (eapply lookup_lt_Some; eauto).
  eapply vget_vset; eauto.
Qed.

Section ConverterOutcomes.
Context `{RT : GoRuntime}.

Lemma then_ret_nil_inv (m : M reflect.Heap unit) h r h' :
  bind m (fun _ => ret (@None error)) h = (r, h') -> r = Ok None \/ forall a, r <> Ok a.
Proof.
  intros H. apply bind_inv in H. destruct H as [(u & h1 & E & H)|(r0 & E & _ & N)].
  - apply ret_inv in H. left. apply H.
  - right. exact N.
Qed.

Lemma handleConvertTime_error t mvt v h e h' :
  handleConvertTime t mvt v h = (Ok (Some e), h') -> h' = h /\ conversionError e.
Proof.
  unfold handleConvertTime, conversionError. intros H.
  lift_case H; [|exfalso; eapply N0; reflexivity].
  destruct (reflect.kind_eqb _ _).
  - apply then_ret_nil_inv in H. destruct H as [H|H]; [discriminate H|].
    exfalso. eapply H. reflexivity.
  - apply ret_inv in H. destruct H as [[= <-] ->]. auto.
Qed.

Lemma handleConvertMapSliceToField_error src v h e h' :
  handleConvertMapSliceToField src v h = (Ok (Some e), h') -> h' = h /\ conversionError e.
Proof.
  unfold handleConvertMapSliceToField, conversionError. intros H.
  lift_case H; [|exfalso; eapply N0; reflexivity].
  assert (Hno : forall (m : M reflect.Heap unit),
             bind m (fun _ => ret (@None error)) h = (Ok (Some e), h') -> False).
  { intros m Hm. apply then_ret_nil_inv in Hm. destruct Hm as [Hm|Hm]; [discriminate Hm|].
    eapply Hm. reflexivity. }
  destruct (assertBytes src) as [bs|];
    [|apply ret_inv in H; destruct H as [[= <-] ->]; auto].
  destruct (reflect.kind_eqb _ _); [exfalso; eapply Hno; eauto|].
  destruct (isSignedInteger _).
  { destruct (strconv.ParseInt _); [exfalso; eapply Hno; eauto|].
    apply ret_inv in H. destruct H as [[= <-] ->]. auto. }
  destruct (isUnsignedInteger _).
  { destruct (strconv.ParseUint _); [exfalso; eapply Hno; eauto|].
    apply ret_inv in H. destruct H as [[= <-] ->]. auto. }
  destruct (isFloat _).
  { destruct (ParseFloat64 _); [exfalso; eapply Hno; eauto|].
    apply ret_inv in H. destruct H as [[= <-] ->]. auto. }
  apply ret_inv in H. destruct H as [[= <-] ->]. auto.
Qed.

Lemma valueConvert_error src v h e h' :
  valueConvert src v h = (Ok (Some e), h') -> h' = h /\ conversionError e.
Proof.
  unfold valueConvert, conversionError. intros H.
  destruct (reflect.TypeOf src) as [sT|];
    [|apply ret_inv in H; destruct H as [H _]; discriminate H].
  lift_case H; [|exfalso; eapply N0; reflexivity].
  apply bind_inv in H. destruct H as [(done & h1 & E' & H)|(r0 & E' & _ & N')];
    [|exfalso; eapply N'; reflexivity].
  apply directSet_stores in E'. destruct E' as [_ E2].
  destruct done.
  { apply ret_inv in H. destruct H as [H _]. discriminate H. }
  specialize (E2 eq_refl). subst h1.
  assert (Hno : forall (m : M reflect.Heap unit),
             bind m (fun _ => ret (@None error)) h = (Ok (Some e), h') -> False).
  { intros m Hm. apply then_ret_nil_inv in Hm. destruct Hm as [Hm|Hm]; [discriminate Hm|].
    eapply Hm. reflexivity. }
  assert (Hlift : forall (x : Res Z) (k : Z -> M reflect.Heap unit),
             bind (lift x) (fun z => bind (k z) (fun _ => ret (@None error))) h
             = (Ok (Some e), h') -> False).
  { intros x k Hm. apply bind_inv in Hm.
    destruct Hm as [(z & h1 & Ez & Hm)|(r0 & Ez & _ & N')];
      [|eapply N'; reflexivity].
    apply lift_inv in Ez. destruct Ez as [_ ->]. eapply Hno; eauto. }
  destruct (asTime src) as [t|];
    [apply handleConvertTime_error in H; exact H|].
  destruct (reflect.kindOf sT);
    try (apply ret_inv in H; destruct H as [[= <-] ->]; auto; fail);
    try (apply handleConvertMapSliceToField_error in H; exact H).
  - destruct (isSignedInteger (reflect.kindOf a)); [exfalso; eapply Hlift; exact H|].
    destruct (isUnsignedInteger (reflect.kindOf a)); [exfalso; eapply Hlift; exact H|].
    apply ret_inv in H. destruct H as [H _]. discriminate H.
  - destruct (isFloat (reflect.kindOf a)); [exfalso; eapply Hlift; exact H|].
    apply ret_inv in H. destruct H as [H _]. discriminate H.
  - destruct (isFloat (reflect.kindOf a)); [exfalso; eapply Hlift; exact H|].
    apply ret_inv in H. destruct H as [H _]. discriminate H.
Qed.

End ConverterOutcomes.

(** X6.  A conversion stores at most once, and only into its target;
    when it returns an error nothing was stored, and the error is one
    of [ErrConvertValue], [ErrUnSupportTypeConvert], [ErrSliceToString]. *)
Theorem X6_failed_conversion_stores_nothing `{RT : GoRuntime}
    (src : reflect.iface) (v : reflect.Value) (h h' : reflect.Heap) (r : Res (option error)) :
  valueConvert src v h = (r, h') ->
  stores v h h' /\ forall e, r = Ok (Some e) -> h' = h /\ conversionError e.
Proof.
  intros H. split.
  - eapply valueConvert_stores; eauto.
  - intros e ->. eapply valueConvert_error; eauto.
Qed.

Lemma X6_failed_conversion_witness :
  (valueConvert (RT := sampleRuntime) (rawBytes "x")
     (reflect.Var int64T (0, [0]) false) [user 5 "a" "b"]).2 = [user 5 "a" "b"].
Proof.
  apply (proj2 (X6_failed_conversion_stores_nothing (RT := sampleRuntime) (rawBytes "x")
                  (reflect.Var int64T (0, [0]) false) [user 5 "a" "b"] _ _
                  (surjective_pairing _)) ErrConvertValue).
  vm_compute. reflexivity.
Defined.

(** X7.  A raw value whose type is the type of the field is stored as
    it is: the conversion succeeds and the field then holds the raw
    value. *)
Theorem X7_same_type_round_trip `{RT : GoRuntime}
    (T : reflect.Typ) (x : reflect.val) (p : reflect.place) (h : reflect.Heap) :
  is_Some (reflect.load p h) ->
  exists h', valueConvert (Some (T, x)) (reflect.Var T p false) h = (Ok None, h')
             /\ reflect.load p h' = Some x.
Proof.
  intros HL. destruct (store_is_Some p x h HL) as [h' HS].
  exists h'. split; [|eapply load_store; eauto].
  apply valueConvert_direct; [apply AssignableTo_refl|].
  unfold reflect.boxFor. cbn [fst snd].
  destruct (reflect.kindOf T); exact HS.
Qed.

Lemma X7_same_type_round_trip_witness :
  exists h', valueConvert (RT := sampleRuntime) (Some (stringT, reflect.VString "Ann"))
               (reflect.Var stringT (0, [1]) false) [user 5 "a" "b"] = (Ok None, h')
             /\ reflect.load (0, [1]) h' = Some (reflect.VString "Ann").
Proof.
  apply (X7_same_type_round_trip (RT := sampleRuntime) stringT (reflect.VString "Ann")
           (0, [1]) [user 5 "a" "b"]).
  vm_compute. eauto.
Defined.

Lemma wrapS_small (b z : Z) :
  (0 < b)%Z -> (- 2 ^ (b - 1) <= z < 2 ^ (b - 1))%Z -> reflect.wrapS b z = z.
Proof.
  intros Hb Hz. unfold reflect.wrapS.
  assert (E : (2 ^ b = 2 * 2 ^ (b - 1))%Z).
  { replace b with (Z.succ (b - 1)) at 1 by lia. apply Z.pow_succ_r. lia. }
  rewrite Z.mod_small by lia. lia.
Qed.

(** X8.  An int64 raw value [z] bound to a field of a signed-integer
    kind is stored cut to the width of the field, without error; when
    [z] fits the width, the field holds [z]. *)
Theorem X8_int64_into_signed_field `{RT : GoRuntime}
    (z : Z) (T : reflect.Typ) (p : reflect.place) (h : reflect.Heap) :
  isSignedInteger (reflect.kindOf T) = true ->
  (- 2 ^ 63 <= z < 2 ^ 63)%Z ->
  let b := reflect.bitsOf (reflect.kindOf T) in
  (forall h', reflect.store p (reflect.VInt (reflect.wrapS b z)) h = Some h' ->
     valueConvert (rawInt64 z) (reflect.Var T p false) h = (Ok None, h'))
  /\ ((0 < b)%Z -> (- 2 ^ (b - 1) <= z < 2 ^ (b - 1))%Z -> reflect.wrapS b z = z).
Proof.
  intros HK Hz b. split; [|apply wrapS_small].
  intros h' HS. destruct (reflect.AssignableTo int64T T) eqn:HA.
  - assert (HK64 : reflect.kindOf T = reflect.Int64).
    { destruct (AssignableTo_kind _ _ HA) as [E|E]; [exact E|].
      rewrite E in HK. discriminate HK. }
    apply valueConvert_direct; [exact HA|].
    unfold reflect.boxFor. cbn [fst snd]. rewrite HK64.
    subst b. rewrite HK64 in HS. cbn [reflect.bitsOf] in HS.
    rewrite wrapS_small in HS by (simpl; lia). exact HS.
  - rewrite valueConvert_indirect_int64 by exact HA. rewrite HK.
    apply SetInt_ok; assumption.
Qed.

Lemma X8_int64_into_signed_witness :
  valueConvert (RT := sampleRuntime) (rawInt64 300)
    (reflect.Var (reflect.TBasic reflect.Int8) (0, []) false) [reflect.VInt 0]
  = (Ok None, [reflect.VInt 44])
  /\ valueConvert (RT := sampleRuntime) (rawInt64 (-5))
       (reflect.Var (reflect.TBasic reflect.Int16) (0, []) false) [reflect.VInt 0]
     = (Ok None, [reflect.VInt (-5)]).
Proof.
  split.
  - apply (proj1 (X8_int64_into_signed_field (RT := sampleRuntime) 300
                    (reflect.TBasic reflect.Int8) (0, []) [reflect.VInt 0]
                    eq_refl ltac:(lia))).
    vm_compute. reflexivity.
  - apply (proj1 (X8_int64_into_signed_field (RT := sampleRuntime) (-5)
                    (reflect.TBasic reflect.Int16) (0, []) [reflect.VInt 0]
                    eq_refl ltac:(lia))).
    vm_compute. reflexivity.
Defined.

(** X9.  A float64 raw value bound to a field of a float kind that is
    no [float64] itself is stored, narrowed for a field of kind
    float32; a float32 raw value bound to a field of a float kind that
    is no [float32] itself is widened to float64 first. *)
Theorem X9_float_into_float_field `{RT : GoRuntime}
    (x : Z) (T : reflect.Typ) (p : reflect.place) (h : reflect.Heap) :
  isFloat (reflect.kindOf T) = true ->
  (reflect.AssignableTo (reflect.TBasic reflect.Float64) T = false ->
   forall h', reflect.store p (floatFor (reflect.kindOf T) x) h = Some h' ->
     valueConvert (rawFloat64 x) (reflect.Var T p false) h = (Ok None, h'))
  /\ (reflect.AssignableTo (reflect.TBasic reflect.Float32) T = false ->
      forall h', reflect.store p (floatFor (reflect.kindOf T) (float64_of_float32 x)) h = Some h' ->
        valueConvert (rawFloat32 x) (reflect.Var T p false) h = (Ok None, h')).
Proof.
  intros HK. split; intros HA h' HS.
  - rewrite valueConvert_indirect_float64 by exact HA. rewrite HK.
    apply SetFloat_ok; assumption.
  - rewrite valueConvert_indirect_float32 by exact HA. rewrite HK.
    apply SetFloat_ok; assumption.
Qed.

Lemma X9_float_into_float_witness :
  valueConvert (RT := sampleRuntime) (rawFloat32 1065353216)
    (reflect.Var (reflect.TBasic reflect.Float64) (0, []) false) [reflect.VFloat64 0]
  = (Ok None,
     [reflect.VFloat64 (float64_of_float32 (GoRuntime := sampleRuntime) 1065353216)]).
Proof.
  apply (proj2 (X9_float_into_float_field (RT := sampleRuntime) 1065353216
                  (reflect.TBasic reflect.Float64) (0, []) [reflect.VFloat64 0] eq_refl)
           eq_refl).
  reflexivity.
Defined.

Section Assertions.
Context `{RT : GoRuntime}.

Lemma assertInt64_named sT sv :
  sT <> int64T -> exists msg, assertInt64 (Some (sT, sv)) = Panic msg.
Proof.
  intros HN. unfold assertInt64. destruct sT as [k| | | | | |]; eauto.
  destruct k; eauto. contradiction.
Qed.

Lemma asTime_kind sT sv :
  reflect.kindOf sT <> reflect.Struct -> asTime (Some (sT, sv)) = None.
Proof. destruct sT; simpl; try reflexivity. contradiction. Qed.

Lemma assertBytes_named sT sv :
  sT <> bytesT -> assertBytes (Some (sT, sv)) = None.
Proof.
  intros HN. unfold assertBytes. destruct sT as [| |el| | | |]; try reflexivity.
  destruct el as [k| | | | | |]; try reflexivity.
  destruct k; try reflexivity. contradiction.
Qed.

End Assertions.

(** X10.  The converter chooses the integer rule by the kind of the raw
    value and then asserts the type [int64]: a raw value of a defined
    type of kind int64, bound to an integer field that it is not
    directly assignable to, makes the conversion panic; nothing is
    stored. *)
Theorem X10_named_int64_source_panics `{RT : GoRuntime}
    (sT : reflect.Typ) (sv : reflect.val) (T : reflect.Typ) (p : reflect.place)
    (h : reflect.Heap) :
  reflect.kindOf sT = reflect.Int64 ->
  sT <> int64T ->
  reflect.AssignableTo sT T = false ->
  isInteger (reflect.kindOf T) = true ->
  exists msg, valueConvert (Some (sT, sv)) (reflect.Var T p false) h = (Panic msg, h).
Proof.
  intros HK HN HA HI. unfold valueConvert. cbn [reflect.TypeOf reflect.Type_].
  rewrite bind_lift_Ok, bind_eq, directSet_Var, HA.
  rewrite asTime_kind by (rewrite HK; discriminate). rewrite HK.
  destruct (assertInt64_named sT sv HN) as [msg Hm].
  exists msg. unfold isInteger in HI.
  destruct (isSignedInteger (reflect.kindOf T)).
  - rewrite bind_eq. unfold lift. rewrite Hm. reflexivity.
  - simpl in HI. rewrite HI, bind_eq. unfold lift. rewrite Hm. reflexivity.
Qed.

Lemma X10_named_int64_source_witness :
  exists msg,
    valueConvert (RT := sampleRuntime)
      (Some (reflect.TNamed "ID" [] int64T, reflect.VInt 7))
      (reflect.Var int64T (0, [0]) false) [user 5 "a" "b"]
    = (Panic msg, [user 5 "a" "b"]).
Proof.
  apply (X10_named_int64_source_panics (RT := sampleRuntime)
           (reflect.TNamed "ID" [] int64T) (reflect.VInt 7) int64T (0, [0]) [user 5 "a" "b"]);
    [reflexivity | discriminate | reflexivity | reflexivity].
Defined.

(** X11.  A raw value that is not directly assignable to the field and
    is no [time.Time] fails with [ErrConvertValue] when its kind is none
    of slice, int64, float32, float64 (a string, a bool, an int32), and
    with [ErrSliceToString] when it is of kind slice without being a
    [[]byte]; nothing is stored. *)
Theorem X11_unconvertible_sources `{RT : GoRuntime}
    (sT : reflect.Typ) (sv : reflect.val) (T : reflect.Typ) (p : reflect.place)
    (h : reflect.Heap) :
  reflect.AssignableTo sT T = false ->
  asTime (Some (sT, sv)) = None ->
  (reflect.kindOf sT <> reflect.Slice -> reflect.kindOf sT <> reflect.Int64 ->
   reflect.kindOf sT <> reflect.Float32 -> reflect.kindOf sT <> reflect.Float64 ->
   valueConvert (Some (sT, sv)) (reflect.Var T p false) h = (Ok (Some ErrConvertValue), h))
  /\ (reflect.kindOf sT = reflect.Slice -> sT <> bytesT ->
      valueConvert (Some (sT, sv)) (reflect.Var T p false) h = (Ok (Some ErrSliceToString), h)).
Proof.
  intros HA HT. split.
  - intros H1 H2 H3 H4. unfold valueConvert. cbn [reflect.TypeOf reflect.Type_].
    rewrite bind_lift_Ok, bind_eq, directSet_Var, HA, HT.
    destruct (reflect.kindOf sT); try reflexivity; contradiction.
  - intros HK HN. unfold valueConvert. cbn [reflect.TypeOf reflect.Type_].
    rewrite bind_lift_Ok, bind_eq, directSet_Var, HA, HT, HK.
    unfold handleConvertMapSliceToField. cbn [reflect.Type_]. rewrite bind_lift_Ok.
    rewrite assertBytes_named by exact HN. reflexivity.
Qed.

Lemma X11_unconvertible_sources_witness :
  valueConvert (RT := sampleRuntime) (Some (stringT, reflect.VString "12"))
    (reflect.Var int64T (0, [0]) false) [user 5 "a" "b"]
  = (Ok (Some ErrConvertValue), [user 5 "a" "b"])
  /\ valueConvert (RT := sampleRuntime)
       (Some (reflect.TNamed "sql.RawBytes" [] bytesT, reflect.VSlice (Some [reflect.VUint 49])))
       (reflect.Var int64T (0, [0]) false) [user 5 "a" "b"]
     = (Ok (Some ErrSliceToString), [user 5 "a" "b"]).
Proof.
  split.
  - apply (proj1 (X11_unconvertible_sources (RT := sampleRuntime) stringT
                    (reflect.VString "12") int64T (0, [0]) [user 5 "a" "b"]
                    eq_refl eq_refl)); discriminate.
  - apply (proj2 (X11_unconvertible_sources (RT := sampleRuntime)
                    (reflect.TNamed "sql.RawBytes" [] bytesT)
                    (reflect.VSlice (Some [reflect.VUint 49])) int64T (0, [0])
                    [user 5 "a" "b"] eq_refl eq_refl)); [reflexivity | discriminate].
Defined.

(** X12.  The tests on kinds, which compare the numbers of the kinds,
    pick out exactly the five signed integer kinds, the six unsigned
    ones ([uintptr] among them) and the two float kinds; no kind passes
    two of them. *)
Theorem X12_kind_tests_are_exact (k : reflect.Kind) :
  (isSignedInteger k = true <->
     k ∈ [reflect.Int; reflect.Int8; reflect.Int16; reflect.Int32; reflect.Int64])
  /\ (isUnsignedInteger k = true <->
        k ∈ [reflect.Uint; reflect.Uint8; reflect.Uint16; reflect.Uint32; reflect.Uint64;
              reflect.Uintptr])
  /\ (isFloat k = true <-> k ∈ [reflect.Float32; reflect.Float64])
  /\ (isInteger k = true <-> isSignedInteger k = true \/ isUnsignedInteger k = true)
  /\ (isSignedInteger k && isUnsignedInteger k = false)
  /\ (isInteger k && isFloat k = false).
Proof.
  repeat apply conj.
  - intros H. destruct k; try discriminate H; set_solver.
  - intros H. rewrite !elem_of_cons in H. rewrite elem_of_nil in H.
    destruct H as [->|[->|[->|[->|[->|[]]]]]]; reflexivity.
  - intros H. destruct k; try discriminate H; set_solver.
  - intros H. rewrite !elem_of_cons in H. rewrite elem_of_nil in H.
    destruct H as [->|[->|[->|[->|[->|[->|[]]]]]]]; reflexivity.
  - intros H. destruct k; try discriminate H; set_solver.
  - intros H. rewrite !elem_of_cons in H. rewrite elem_of_nil in H.
    destruct H as [->|[->|[]]]; reflexivity.
  - unfold isInteger. apply orb_true_iff.
  - unfold isInteger. apply orb_true_iff.
  - destruct k; reflexivity.
  - destruct k; reflexivity.
Qed.

(** ** The loop over the fields, turn by turn *)

Section FieldSteps.
Context `{RT : GoRuntime}.

Lemma fieldLoop_cons_typed row T l j fs f rest h :
  reflect.structFields T = Some fs ->
  fs !! j = Some f ->
  fieldLoop row T (reflect.Var T (l, []) false) (j :: rest) h =
  (if negb (reflect.fieldExported f) then fieldLoop row T (reflect.Var T (l, []) false) rest
   else
     match reflect.Lookup (reflect.fieldTag f) DefaultTagName with
     | None => fieldLoop row T (reflect.Var T (l, []) false) rest
     | Some tagName =>
         if String.eqb tagName "" then fieldLoop row T (reflect.Var T (l, []) false) rest
         else
           match row !! tagName with
           | None => fieldLoop row T (reflect.Var T (l, []) false) rest
           | Some mapValue =>
               err <- valueConvert mapValue (reflect.Var (reflect.fieldType f) (l, [j]) false) ;;
               match err with
               | Some e => ret (Some e)
               | None => fieldLoop row T (reflect.Var T (l, []) false) rest
               end
           end
     end) h.
Proof.
  intros HF Hj. cbn [fieldLoop]. unfold reflect.TypeField, reflect.Field.
  rewrite HF, Hj, !bind_lift_Ok. cbn [fst snd app reflect.CanSet orb].
  destruct (reflect.fieldExported f); reflexivity.
Qed.

(** A turn of the loop over the fields panics, or skips the field, or
    converts the value of its column into it. *)
Lemma fieldLoop_step row T l j h :
  (exists msg, forall rest,
      fieldLoop row T (reflect.Var T (l, []) false) (j :: rest) h = (Panic msg, h))
  \/ (inert T row j
      /\ forall rest,
           fieldLoop row T (reflect.Var T (l, []) false) (j :: rest) h
           = fieldLoop row T (reflect.Var T (l, []) false) rest h)
  \/ (exists f name mapValue,
        reflect.TypeField T j = Ok f
        /\ reflect.fieldExported f = true
        /\ reflect.Lookup (reflect.fieldTag f) DefaultTagName = Some name
        /\ name <> ""
        /\ row !! name = Some mapValue
        /\ forall rest,
             fieldLoop row T (reflect.Var T (l, []) false) (j :: rest) h
             = (err <- valueConvert mapValue (reflect.Var (reflect.fieldType f) (l, [j]) false) ;;
                match err with
                | Some e => ret (Some e)
                | None => fieldLoop row T (reflect.Var T (l, []) false) rest
                end) h).
Proof.
  destruct (reflect.structFields T) as [fs|] eqn:HF.
  2:{ left. eexists. intros rest. cbn [fieldLoop]. unfold reflect.TypeField.
      rewrite HF. reflexivity. }
  destruct (fs !! j) as [f|] eqn:Hj.
  2:{ left. eexists. intros rest. cbn [fieldLoop]. unfold reflect.TypeField.
      rewrite HF, Hj. reflexivity. }
  assert (HTF : reflect.TypeField T j = Ok f)
    by (unfold reflect.TypeField; rewrite HF, Hj; reflexivity).
  pose proof (fun rest => fieldLoop_cons_typed row T l j fs f rest h HF Hj) as Hc.
  destruct (reflect.fieldExported f) eqn:HE; cbn [negb] in Hc.
  2:{ right. left. split; [|exact Hc].
      intros f' Hf'. rewrite HTF in Hf'. injection Hf' as <-. left. exact HE. }
  destruct (reflect.Lookup (reflect.fieldTag f) DefaultTagName) as [name|] eqn:HT.
  2:{ right. left. split; [|exact Hc].
      intros f' Hf'. rewrite HTF in Hf'. injection Hf' as <-. right. rewrite HT. exact I. }
  destruct (String.eqb name "") eqn:HN.
  { right. left. split; [|exact Hc].
    intros f' Hf'. rewrite HTF in Hf'. injection Hf' as <-. right. rewrite HT.
    left. apply String.eqb_eq. exact HN. }
  destruct (row !! name) as [mapValue|] eqn:HR.
  2:{ right. left. split; [|exact Hc].
      intros f' Hf'. rewrite HTF in Hf'. injection Hf' as <-. right. rewrite HT.
      right. left. exact HR. }
  right. right. exists f, name, mapValue.
  repeat split; try assumption; try reflexivity.
  apply String.eqb_neq. exact HN.
Qed.

Lemma valueConvert_nil v h : valueConvert None v h = (Ok None, h).
Proof. reflexivity. Qed.

(** The loop over the fields leaves a field that the row does not bind
    as it was. *)
Lemma fieldLoop_inert row T l idxs :
  forall h r h',
  fieldLoop row T (reflect.Var T (l, []) false) idxs h = (r, h') ->
  forall i, inert T row i -> reflect.load (l, [i]) h' = reflect.load (l, [i]) h.
Proof.
  induction idxs as [|j rest IH]; intros h r h' H i Hi.
  - apply ret_inv in H. destruct H as [_ ->]. reflexivity.
  - destruct (fieldLoop_step row T l j h)
      as [[msg Hp]|[[_ Hs]|(f & name & mv & Hf & HE & HT & HN & HR & Hc)]].
    + rewrite Hp in H. injection H as _ <-. reflexivity.
    + rewrite Hs in H. eapply IH; eauto.
    + rewrite Hc in H.
      assert (Hij : i <> j \/ mv = None).
      { destruct (decide (i = j)) as [->|]; [|auto]. right.
        destruct (Hi f Hf) as [Hu|Hu]; [congruence|].
        rewrite HT in Hu. destruct Hu as [Hu|[Hu|Hu]]; congruence. }
      apply bind_inv in H. destruct H as [(err & h1 & Ec & H)|(r0 & Ec & _ & _)].
      * assert (Hstep : reflect.load (l, [i]) h1 = reflect.load (l, [i]) h).
        { destruct Hij as [Hij| ->].
          - apply valueConvert_stores in Ec.
            destruct Ec as [->|(t0 & p0 & ro0 & x & [= <- <- <-] & Hst)]; [reflexivity|].
            eapply store_load_other_field; eauto.
          - rewrite valueConvert_nil in Ec. injection Ec as _ <-. reflexivity. }
        destruct err as [e0|].
        -- apply ret_inv in H. destruct H as [_ ->]. exact Hstep.
        -- rewrite <- Hstep. eapply IH; eauto.
      * destruct Hij as [Hij| ->].
        -- apply valueConvert_stores in Ec.
           destruct Ec as [->|(t0 & p0 & ro0 & x & [= <- <- <-] & Hst)]; [reflexivity|].
           eapply store_load_other_field; eauto.
        -- rewrite valueConvert_nil in Ec. injection Ec as _ <-. reflexivity.
Qed.

(** The loop over a list of fields followed by another is the loop over
    the first, then, unless it failed, the loop over the second. *)
Lemma fieldLoop_app row T l pre :
  forall rest h,
  fieldLoop row T (reflect.Var T (l, []) false) (pre ++ rest) h =
  match fieldLoop row T (reflect.Var T (l, []) false) pre h with
  | (Ok None, h1) => fieldLoop row T (reflect.Var T (l, []) false) rest h1
  | (r, h1) => (r, h1)
  end.
Proof.
  induction pre as [|j pre IH]; intros rest h; [reflexivity|].
  rewrite <- app_comm_cons.
  destruct (fieldLoop_step row T l j h)
    as [[msg Hp]|[[_ Hs]|(f & name & mv & _ & _ & _ & _ & _ & Hc)]].
  - rewrite !Hp. reflexivity.
  - rewrite !Hs. apply IH.
  - rewrite !Hc, !bind_eq.
    destruct (valueConvert mv _ h) as [[[e|]|msg|] h1]; try reflexivity. apply IH.
Qed.

(** A turn of the loop that ends with an error has stored nothing. *)
Lemma fieldLoop_single_error row T l j h e h' :
  fieldLoop row T (reflect.Var T (l, []) false) [j] h = (Ok (Some e), h') ->
  h' = h /\ conversionError e.
Proof.
  intros H.
  destruct (fieldLoop_step row T l j h)
    as [[msg Hp]|[[_ Hs]|(f & name & mv & _ & _ & _ & _ & _ & Hc)]].
  - rewrite Hp in H. discriminate H.
  - rewrite Hs in H. discriminate H.
  - rewrite Hc in H. apply bind_inv in H.
    destruct H as [(err & h1 & Ec & H)|(r0 & Ec & _ & N)]; [|exfalso; eapply N; reflexivity].
    destruct err as [e0|]; [|discriminate H].
    apply ret_inv in H. destruct H as [[= <-] ->].
    eapply valueConvert_error; eauto.
Qed.

End FieldSteps.

(** X13.  Binding a row into a record leaves as it was every field that
    the row does not bind: an unexported field, a field without [pg]
    tag or with an empty one, a field whose column is absent from the
    row, and a field whose column holds nil: whatever the other columns
    hold and however the binding ends. *)
Theorem X13_fields_the_row_does_not_bind `{RT : GoRuntime}
    (row : Row) (T : reflect.Typ) (l : reflect.loc) (h h' : reflect.Heap)
    (r : Res (option error)) (fs : list reflect.StructField) (i : nat) (f : reflect.StructField) :
  reflect.structFields T = Some fs ->
  fs !! i = Some f ->
  reflect.fieldExported f = false
  \/ match reflect.Lookup (reflect.fieldTag f) DefaultTagName with
     | None => True
     | Some name => name = "" \/ row !! name = None \/ row !! name = Some None
     end ->
  singleResult row (ptrTo T l) h = (r, h') ->
  reflect.load (l, [i]) h' = reflect.load (l, [i]) h.
Proof.
  intros HF Hi HC H.
  assert (HK : reflect.kindOf T <> reflect.Ptr) by (eapply record_fields_not_pointer; eauto).
  unfold singleResult, ptrTo in H.
  rewrite (singleResultRec_record _ _ _ T) in H by (auto; reflexivity).
  lift_case H; [|reflexivity].
  eapply fieldLoop_inert; [exact H|].
  intros f' Hf'. unfold reflect.TypeField in Hf'. rewrite HF, Hi in Hf'.
  injection Hf' as <-. exact HC.
Qed.

Lemma X13_fields_the_row_does_not_bind_witness :
  reflect.load (0, [1])
    (singleResult (RT := sampleRuntime) (<["id" := rawInt64 4]> (<["name" := None]> ∅))
       (ptrTo userT 0) [user 0 "before" "kept"]).2
  = Some (reflect.VString "before").
Proof.
  etransitivity.
  - eapply (X13_fields_the_row_does_not_bind (RT := sampleRuntime)
              (<["id" := rawInt64 4]> (<["name" := None]> ∅)) userT 0
              [user 0 "before" "kept"] _ _ _ 1
              (reflect.mkField "Name" true stringT [("pg", "name")])).
    + reflexivity.
    + reflexivity.
    + right. right. right. vm_compute. reflexivity.
    + apply surjective_pairing.
  - reflexivity.
Defined.

(** X14.  The binding of a record stops at the first field whose
    conversion fails: when the fields before field [i] bind and field
    [i] fails with error [e], [singleResult] returns [e]; what was
    stored in the fields before [i] stays, the failed conversion has
    stored nothing, and field [i] and the fields after it are as they
    were. *)
Theorem X14_first_failing_field_stops `{RT : GoRuntime}
    (row : Row) (T : reflect.Typ) (l : reflect.loc) (h h1 h2 : reflect.Heap)
    (fs : list reflect.StructField) (i : nat) (e : error) :
  reflect.structFields T = Some fs ->
  i < length fs ->
  fieldLoop row T (reflect.Var T (l, []) false) (seq 0 i) h = (Ok None, h1) ->
  fieldLoop row T (reflect.Var T (l, []) false) [i] h1 = (Ok (Some e), h2) ->
  singleResult row (ptrTo T l) h = (Ok (Some e), h1)
  /\ h2 = h1
  /\ conversionError e
  /\ forall j, i <= j -> reflect.load (l, [j]) h1 = reflect.load (l, [j]) h.
Proof.
  intros HF Hi Hpre Hfail.
  assert (HK : reflect.kindOf T <> reflect.Ptr) by (eapply record_fields_not_pointer; eauto).
  destruct (fieldLoop_single_error _ _ _ _ _ _ _ Hfail) as [-> He].
  split; [|split; [reflexivity|split; [exact He|]]].
  - unfold singleResult, ptrTo.
    rewrite (singleResultRec_record _ _ _ T) by (auto; reflexivity).
    unfold reflect.NumField. rewrite HF, bind_lift_Ok.
    replace (length fs) with (i + (1 + (length fs - S i))) by lia.
    rewrite seq_app, fieldLoop_app, Hpre. cbn [Nat.add seq].
    change (i :: seq (S i) (length fs - S i)) with ([i] ++ seq (S i) (length fs - S i)).
    rewrite fieldLoop_app, Hfail. reflexivity.
  - intros j Hj. apply fieldLoop_frame in Hpre. destruct Hpre as (_ & _ & C).
    apply C. right. rewrite elem_of_seq. lia.
Qed.

Lemma X14_first_failing_field_witness :
  singleResult (RT := sampleRuntime)
    (<["id" := rawInt64 7]> (<["name" := Some (reflect.TBasic reflect.Bool, reflect.VBool true)]> ∅))
    (ptrTo userT 0) [user 0 "before" "kept"]
  = (Ok (Some ErrConvertValue), [user 7 "before" "kept"]).
Proof.
  apply (proj1 (X14_first_failing_field_stops (RT := sampleRuntime)
                  (<["id" := rawInt64 7]>
                     (<["name" := Some (reflect.TBasic reflect.Bool, reflect.VBool true)]> ∅))
                  userT 0 [user 0 "before" "kept"] [user 7 "before" "kept"]
                  [user 7 "before" "kept"]
                  [reflect.mkField "Id" true int64T [("pg", "id")];
                   reflect.mkField "Name" true stringT [("pg", "name")];
                   reflect.mkField "Note" true stringT []]
                  1 ErrConvertValue eq_refl ltac:(simpl; lia)
                  ltac:(vm_compute; reflexivity) ltac:(vm_compute; reflexivity))).
Defined.

(** ** The calls of singleResult end *)

Lemma ptrDepth_underlying (t : reflect.Typ) : ptrDepth (reflect.underlying t) = ptrDepth t.
Proof. induction t; simpl; auto. Qed.

Section Termination.
Context `{RT : GoRuntime}.

Lemma noFuel_ret {St A : Type} (a : A) : noFuel (ret (St := St) a).
Proof. intros s. discriminate. Qed.

Lemma noFuel_panic {St A : Type} msg : noFuel (panic (St := St) (A := A) msg).
Proof. intros s. discriminate. Qed.

Lemma noFuel_lift {St A : Type} (x : Res A) : x <> OutOfFuel -> noFuel (lift (St := St) x).
Proof. intros Hx s. exact Hx. Qed.

Lemma noFuel_bind {St A B : Type} (m : M St A) (k : A -> M St B) :
  noFuel m -> (forall a, noFuel (k a)) -> noFuel (bind m k).
Proof.
  intros Hm Hk s. unfold bind. specialize (Hm s).
  destruct (m s) as [[a|msg|] s1]; simpl in *; [apply Hk|discriminate|contradiction].
Qed.

Lemma noFuel_write p x : noFuel (reflect.write p x).
Proof. intros h. unfold reflect.write. destruct (reflect.store p x h); discriminate. Qed.

Lemma noFuel_read p : noFuel (reflect.read p).
Proof. intros h. unfold reflect.read. destruct (reflect.load p h); discriminate. Qed.

Lemma noFuel_dataOf v : noFuel (reflect.dataOf v).
Proof.
  destruct v; simpl; [apply noFuel_panic|apply noFuel_ret|].
  apply noFuel_bind; [apply noFuel_read|intros; apply noFuel_ret].
Qed.

Lemma noFuel_Type v : reflect.Type_ v <> OutOfFuel.
Proof. destruct v; discriminate. Qed.

Lemma noFuel_SetString v s : noFuel (reflect.SetString v s).
Proof.
  destruct v as [| |t p [|]]; simpl; try apply noFuel_panic.
  destruct (reflect.kindOf t); first [apply noFuel_panic|apply noFuel_write].
Qed.

Lemma noFuel_SetInt v x : noFuel (reflect.SetInt v x).
Proof.
  destruct v as [| |t p [|]]; simpl; try apply noFuel_panic.
  destruct (reflect.kindOf t); first [apply noFuel_panic|apply noFuel_write].
Qed.

Lemma noFuel_SetUint v x : noFuel (reflect.SetUint v x).
Proof.
  destruct v as [| |t p [|]]; simpl; try apply noFuel_panic.
  destruct (reflect.kindOf t); first [apply noFuel_panic|apply noFuel_write].
Qed.

Lemma noFuel_SetFloat v x : noFuel (reflect.SetFloat v x).
Proof.
  destruct v as [| |t p [|]]; simpl; try apply noFuel_panic.
  destruct (reflect.kindOf t); first [apply noFuel_panic|apply noFuel_write].
Qed.

Lemma noFuel_SetValue v x : noFuel (reflect.SetValue v x).
Proof.
  destruct v as [| |t p [|]]; simpl; try apply noFuel_panic.
  destruct (reflect.isRO x); [apply noFuel_panic|].
  apply noFuel_bind; [apply noFuel_dataOf|]. intros d.
  destruct (reflect.AssignableTo d.1 t); [apply noFuel_write|apply noFuel_panic].
Qed.

Lemma noFuel_then_ret {A : Type} (m : M reflect.Heap unit) (a : A) :
  noFuel m -> noFuel (bind m (fun _ => ret a)).
Proof. intros Hm. apply noFuel_bind; [exact Hm|intros; apply noFuel_ret]. Qed.

Lemma noFuel_valueConvert src v : noFuel (valueConvert src v).
Proof.
  unfold valueConvert. destruct (reflect.TypeOf src) as [sT|]; [|apply noFuel_ret].
  apply noFuel_bind; [apply noFuel_lift, noFuel_Type|]. intros targetType.
  apply noFuel_bind.
  { unfold directSet. destruct (reflect.TypeOf src); [|apply noFuel_ret].
    apply noFuel_bind; [apply noFuel_lift, noFuel_Type|]. intros tt'.
    destruct (reflect.AssignableTo _ _); [|apply noFuel_ret].
    apply noFuel_then_ret, noFuel_SetValue. }
  intros [|]; [apply noFuel_ret|].
  destruct (asTime src).
  { unfold handleConvertTime.
    apply noFuel_bind; [apply noFuel_lift, noFuel_Type|]. intros t'.
    destruct (reflect.kind_eqb _ _); [|apply noFuel_ret].
    apply noFuel_then_ret, noFuel_SetString. }
  assert (HA : forall (x : Res Z) (k : Z -> M reflect.Heap unit),
             x <> OutOfFuel -> (forall z, noFuel (k z)) ->
             noFuel (bind (lift x) (fun z => bind (k z) (fun _ => ret (@None error))))).
  { intros x k Hx Hk. apply noFuel_bind; [apply noFuel_lift, Hx|].
    intros z. apply noFuel_then_ret, Hk. }
  destruct (reflect.kindOf sT); try apply noFuel_ret.
  - destruct (isSignedInteger _).
    { apply HA; [unfold assertInt64; destruct src as [[[[]| | | | | |] []]|]; discriminate|].
      intros z. apply noFuel_SetInt. }
    destruct (isUnsignedInteger _); [|apply noFuel_ret].
    apply HA; [unfold assertInt64; destruct src as [[[[]| | | | | |] []]|]; discriminate|].
    intros z. apply noFuel_SetUint.
  - destruct (isFloat _); [|apply noFuel_ret].
    apply HA; [unfold assertFloat32; destruct src as [[[[]| | | | | |] []]|]; discriminate|].
    intros z. apply noFuel_SetFloat.
  - destruct (isFloat _); [|apply noFuel_ret].
    apply HA; [unfold assertFloat64; destruct src as [[[[]| | | | | |] []]|]; discriminate|].
    intros z. apply noFuel_SetFloat.
  - unfold handleConvertMapSliceToField.
    apply noFuel_bind; [apply noFuel_lift, noFuel_Type|]. intros t'.
    destruct (assertBytes src); [|apply noFuel_ret].
    destruct (reflect.kind_eqb _ _); [apply noFuel_then_ret, noFuel_SetString|].
    destruct (isSignedInteger _).
    { destruct (strconv.ParseInt _); [apply noFuel_then_ret, noFuel_SetInt|apply noFuel_ret]. }
    destruct (isUnsignedInteger _).
    { destruct (strconv.ParseUint _); [apply noFuel_then_ret, noFuel_SetUint|apply noFuel_ret]. }
    destruct (isFloat _); [|apply noFuel_ret].
    destruct (ParseFloat64 _); [apply noFuel_then_ret, noFuel_SetFloat|apply noFuel_ret].
Qed.

Lemma noFuel_fieldLoop row T v idxs : noFuel (fieldLoop row T v idxs).
Proof.
  induction idxs as [|j rest IH]; cbn [fieldLoop]; [apply noFuel_ret|].
  apply noFuel_bind.
  { apply noFuel_lift. unfold reflect.TypeField.
    destruct (reflect.structFields T) as [fs|]; [destruct (fs !! j)|]; discriminate. }
  intros f. apply noFuel_bind.
  { apply noFuel_lift. unfold reflect.Field.
    destruct v as [|t x|t p ro]; try discriminate;
      destruct (reflect.structFields t) as [fs|]; try discriminate.
    - destruct (fs !! j); [destruct (reflect.vget x [j])|]; discriminate.
    - destruct (fs !! j); discriminate. }
  intros valueI. destruct (negb _); [exact IH|].
  destruct (reflect.Lookup _ _) as [name|]; [|exact IH].
  destruct (String.eqb _ _); [exact IH|].
  destruct (row !! name) as [mv|]; [|exact IH].
  apply noFuel_bind; [apply noFuel_valueConvert|].
  intros [e|]; [apply noFuel_ret|exact IH].
Qed.

(** A destination that can be set is a pointer that is not nil. *)
Lemma getPtrObjectValue_settable target h v h' :
  getPtrObjectValue target h = (Ok v, h') ->
  reflect.CanSet v = true ->
  exists PT e l, target = Some (PT, reflect.VPtr (Some l))
                 /\ reflect.underlying PT = reflect.TPtr e
                 /\ v = reflect.Var e (l, []) false.
Proof.
  unfold getPtrObjectValue, reflect.Elem.
  destruct target as [[t x]|]; cbn [reflect.ValueOf reflect.dataOf]; [|discriminate].
  rewrite bind_ret. cbn [fst snd reflect.isRO].
  destruct (reflect.kindOf t); try discriminate.
  - destruct x as [| | | | | | | | | |[[t' x']|]|];
      intros [= <- <-] HC; discriminate HC.
  - destruct x as [| | | | | | |[a|]| | | |];
      try (intros [= <- <-] HC; discriminate HC).
    destruct (reflect.underlying t) eqn:HU;
      intros [= <- <-] HC; try discriminate HC.
    eauto 6.
Qed.

Lemma singleResultRec_enough d1 :
  forall d2 row target h,
  depthOf target < d1 -> depthOf target < d2 ->
  singleResultRec d1 row target h = singleResultRec d2 row target h
  /\ (singleResultRec d1 row target h).1 <> OutOfFuel.
Proof.
  induction d1 as [|d1 IH]; intros d2 row target h H1 H2; [lia|].
  destruct d2 as [|d2]; [lia|].
  cbn [singleResultRec]. rewrite !bind_eq.
  destruct (getPtrObjectValue target h) as [[v|msg|] h0] eqn:Ev.
  2:{ split; [reflexivity|discriminate]. }
  2:{ exfalso. unfold getPtrObjectValue in Ev.
      assert (N : noFuel (reflect.Elem (reflect.ValueOf target))).
      { unfold reflect.Elem. destruct (reflect.ValueOf target); [apply noFuel_panic| |];
          (apply noFuel_bind; [apply noFuel_dataOf|]; intros d;
           destruct (reflect.kindOf d.1); try apply noFuel_panic;
           [destruct d.2 as [| | | | | | | | | |[[? ?]|]|]; apply noFuel_ret
           |destruct d.2 as [| | | | | | |[?|]| | | |]; try apply noFuel_ret;
            destruct (reflect.underlying d.1); apply noFuel_ret]). }
      specialize (N h). rewrite Ev in N. apply N. reflexivity. }
  destruct (reflect.CanSet v) eqn:HC; cbn [negb]; [|split; [reflexivity|discriminate]].
  destruct (getPtrObjectValue_settable _ _ _ _ Ev HC) as (PT & e & l & -> & HU & ->).
  pose proof (getPtrObjectValue_inv _ _ _ _ Ev) as [-> _].
  unfold getPtrObjectType. cbn [reflect.TypeOf reflect.TypeElem]. rewrite HU, !bind_lift_Ok.
  cbn [depthOf] in H1, H2. rewrite <- ptrDepth_underlying, HU in H1, H2. cbn [ptrDepth] in H1, H2.
  destruct (reflect.kind_eqb (reflect.kindOf e) reflect.Ptr) eqn:HK.
  - apply kind_eqb_eq in HK. rewrite <- kindOf_underlying in HK.
    rewrite <- (ptrDepth_underlying e) in H1, H2. cbn [reflect.TypeElem].
    destruct (reflect.underlying e) as [k| el | | | | |] eqn:HUe; try discriminate HK;
      [split; [reflexivity|discriminate]| |split; [reflexivity|discriminate]].
    cbn [ptrDepth] in H1, H2.
    rewrite !bind_lift_Ok, !bind_eq. unfold reflect.New.
    rewrite !bind_eq. unfold reflect.Interface_.
    cbn [reflect.isRO reflect.dataOf]. rewrite !bind_ret. cbn [fst snd reflect.kindOf ret].
    rewrite !bind_eq.
    destruct (IH d2 row (Some (reflect.TPtr el, reflect.VPtr (Some (length h))))
                (h ++ [reflect.zero el])) as [Eq Hn];
      [cbn [depthOf ptrDepth]; lia | cbn [depthOf ptrDepth]; lia|].
    rewrite <- Eq.
    destruct (singleResultRec d1 row _ _) as [[[e0|]|msg|] h1];
      [split; [reflexivity|cbn; discriminate] | | split; [reflexivity|cbn; discriminate]
      | exfalso; apply Hn; reflexivity].
    split; [reflexivity|].
    apply (noFuel_then_ret _ None (noFuel_SetValue _ _)).
  - split; [reflexivity|].
    apply (noFuel_bind (lift (reflect.NumField (reflect.Var e (l, []) false)))).
    + apply noFuel_lift. unfold reflect.NumField.
      destruct (reflect.structFields e); discriminate.
    + intros n. apply noFuel_fieldLoop.
Qed.

End Termination.

(** X15.  The calls of [singleResult] nest no deeper than the pointer
    types of the destination do: [singleResult] returns or panics, and
    any bound on the nesting above that depth gives the same outcome. *)
Theorem X15_single_result_ends `{RT : GoRuntime}
    (d : nat) (row : Row) (target : reflect.iface) (h : reflect.Heap) :
  depthOf target < d ->
  singleResultRec d row target h = singleResult row target h
  /\ (singleResult row target h).1 <> OutOfFuel.
Proof.
  intros Hd. unfold singleResult.
  destruct (singleResultRec_enough d (S (depthOf target)) row target h Hd ltac:(lia)) as [E N].
  split; [exact E|]. rewrite <- E. exact N.
Qed.

Lemma X15_single_result_ends_witness :
  singleResultRec (RT := sampleRuntime) 9 aliceRow (ptrTo (reflect.TPtr userT) 0)
    [reflect.VPtr None]
  = singleResult (RT := sampleRuntime) aliceRow (ptrTo (reflect.TPtr userT) 0)
      [reflect.VPtr None].
Proof.
  apply (proj1 (X15_single_result_ends (RT := sampleRuntime) 9 aliceRow
                  (ptrTo (reflect.TPtr userT) 0) [reflect.VPtr None] ltac:(simpl; lia))).
Defined.

(** ** A binding depends on the record only *)

Section Locality.
Context `{RT : GoRuntime}.

Lemma SetString_eq t p s :
  reflect.kind_eqb (reflect.kindOf t) reflect.String = true ->
  reflect.SetString (reflect.Var t p false) s = reflect.write p (reflect.VString s).
Proof. intros HK. apply kind_eqb_eq in HK. unfold reflect.SetString. rewrite HK. reflexivity. Qed.

Lemma SetInt_eq t p x :
  isSignedInteger (reflect.kindOf t) = true ->
  reflect.SetInt (reflect.Var t p false) x
  = reflect.write p (reflect.VInt (reflect.wrapS (reflect.bitsOf (reflect.kindOf t)) x)).
Proof.
  intros HK. unfold reflect.SetInt. destruct (reflect.kindOf t); try discriminate HK; reflexivity.
Qed.

Lemma SetUint_eq t p x :
  isUnsignedInteger (reflect.kindOf t) = true ->
  reflect.SetUint (reflect.Var t p false) x
  = reflect.write p (reflect.VUint (reflect.wrapU (reflect.bitsOf (reflect.kindOf t)) x)).
Proof.
  intros HK. unfold reflect.SetUint. destruct (reflect.kindOf t); try discriminate HK; reflexivity.
Qed.

Lemma SetFloat_eq t p x :
  isFloat (reflect.kindOf t) = true ->
  reflect.SetFloat (reflect.Var t p false) x = reflect.write p (floatFor (reflect.kindOf t) x).
Proof.
  intros HK. unfold reflect.SetFloat. destruct (reflect.kindOf t); try discriminate HK; reflexivity.
Qed.

(** What [valueConvert] does to a field depends on the raw value and on
    the type of the field only. *)
Lemma valueConvert_effect src t :
  exists c, forall p h, valueConvert src (reflect.Var t p false) h = runEffect c p h.
Proof.
  destruct src as [[sT sv]|]; [|exists (Returns (Ok None)); reflexivity].
  destruct (reflect.AssignableTo sT t) eqn:HA.
  { exists (Stores (reflect.boxFor t (sT, sv))). intros p h.
    unfold valueConvert. cbn [reflect.TypeOf reflect.Type_].
    rewrite bind_lift_Ok, bind_eq, directSet_Var, HA.
    unfold runEffect. rewrite bind_eq. unfold reflect.write.
    destruct (reflect.store _ _ _); reflexivity. }
  assert (Hred : forall p h,
             valueConvert (Some (sT, sv)) (reflect.Var t p false) h =
             match asTime (Some (sT, sv)) with
             | Some assertT => handleConvertTime assertT sT (reflect.Var t p false) h
             | None =>
                 match reflect.kindOf sT with
                 | reflect.Slice =>
                     handleConvertMapSliceToField (Some (sT, sv)) (reflect.Var t p false) h
                 | reflect.Int64 =>
                     if isSignedInteger (reflect.kindOf t) then
                       (x <- lift (assertInt64 (Some (sT, sv))) ;;
                        reflect.SetInt (reflect.Var t p false) x ;;; ret None) h
                     else if isUnsignedInteger (reflect.kindOf t) then
                       (x <- lift (assertInt64 (Some (sT, sv))) ;;
                        reflect.SetUint (reflect.Var t p false) (reflect.wrapU 64 x) ;;; ret None) h
                     else (Ok None, h)
                 | reflect.Float32 =>
                     if isFloat (reflect.kindOf t) then
                       (x <- lift (assertFloat32 (Some (sT, sv))) ;;
                        reflect.SetFloat (reflect.Var t p false) (float64_of_float32 x) ;;; ret None) h
                     else (Ok None, h)
                 | reflect.Float64 =>
                     if isFloat (reflect.kindOf t) then
                       (x <- lift (assertFloat64 (Some (sT, sv))) ;;
                        reflect.SetFloat (reflect.Var t p false) x ;;; ret None) h
                     else (Ok None, h)
                 | _ => (Ok (Some ErrConvertValue), h)
                 end
             end).
  { intros p h. unfold valueConvert. cbn [reflect.TypeOf reflect.Type_].
    rewrite bind_lift_Ok, bind_eq, directSet_Var, HA.
    destruct (asTime _); [reflexivity|].
    destruct (reflect.kindOf sT); try reflexivity.
    - destruct (isSignedInteger _); [reflexivity|]. destruct (isUnsignedInteger _); reflexivity.
    - destruct (isFloat _); reflexivity.
    - destruct (isFloat _); reflexivity. }
  assert (Hassert : forall (x : Res Z) (w : Z -> reflect.val),
             exists c, forall p h,
               (z <- lift x ;; reflect.write p (w z) ;;; ret (@None error)) h = runEffect c p h).
  { intros [z|msg|] w.
    - exists (Stores (w z)). reflexivity.
    - exists (Returns (Panic msg)). reflexivity.
    - exists (Returns OutOfFuel). reflexivity. }
  destruct (asTime (Some (sT, sv))) as [tm|] eqn:HT.
  { destruct (reflect.kind_eqb (reflect.kindOf t) reflect.String) eqn:HK.
    - exists (Stores (reflect.VString (time_Format tm DefaultTimeFormat))). intros p h.
      rewrite Hred. unfold handleConvertTime. cbn [reflect.Type_].
      rewrite bind_lift_Ok, HK, SetString_eq by exact HK. reflexivity.
    - exists (Returns (Ok (Some ErrConvertValue))). intros p h.
      rewrite Hred. unfold handleConvertTime. cbn [reflect.Type_].
      rewrite bind_lift_Ok, HK. reflexivity. }
  destruct (reflect.kindOf sT) eqn:HKs;
    try (exists (Returns (Ok (Some ErrConvertValue))); intros p h; rewrite Hred; reflexivity).
  - destruct (isSignedInteger (reflect.kindOf t)) eqn:K1.
    { destruct (Hassert (assertInt64 (Some (sT, sv)))
                  (fun z => reflect.VInt (reflect.wrapS (reflect.bitsOf (reflect.kindOf t)) z)))
        as [c Hc].
      exists c. intros p h. rewrite Hred, <- Hc, !bind_eq.
      unfold lift. destruct (assertInt64 _); try reflexivity.
      rewrite SetInt_eq by exact K1. reflexivity. }
    destruct (isUnsignedInteger (reflect.kindOf t)) eqn:K2.
    { destruct (Hassert (assertInt64 (Some (sT, sv)))
                  (fun z => reflect.VUint (reflect.wrapU (reflect.bitsOf (reflect.kindOf t))
                                             (reflect.wrapU 64 z))))
        as [c Hc].
      exists c. intros p h. rewrite Hred, <- Hc, !bind_eq.
      unfold lift. destruct (assertInt64 _); try reflexivity.
      rewrite SetUint_eq by exact K2. reflexivity. }
    exists (Returns (Ok None)). intros p h. rewrite Hred. reflexivity.
  - destruct (isFloat (reflect.kindOf t)) eqn:K1.
    { destruct (Hassert (assertFloat32 (Some (sT, sv)))
                  (fun z => floatFor (reflect.kindOf t) (float64_of_float32 z))) as [c Hc].
      exists c. intros p h. rewrite Hred, <- Hc, !bind_eq.
      unfold lift. destruct (assertFloat32 _); try reflexivity.
      rewrite SetFloat_eq by exact K1. reflexivity. }
    exists (Returns (Ok None)). intros p h. rewrite Hred. reflexivity.
  - destruct (isFloat (reflect.kindOf t)) eqn:K1.
    { destruct (Hassert (assertFloat64 (Some (sT, sv)))
                  (fun z => floatFor (reflect.kindOf t) z)) as [c Hc].
      exists c. intros p h. rewrite Hred, <- Hc, !bind_eq.
      unfold lift. destruct (assertFloat64 _); try reflexivity.
      rewrite SetFloat_eq by exact K1. reflexivity. }
    exists (Returns (Ok None)). intros p h. rewrite Hred. reflexivity.
  - destruct (assertBytes (Some (sT, sv))) as [bs|] eqn:HB.
    2:{ exists (Returns (Ok (Some ErrSliceToString))). intros p h. rewrite Hred.
        unfold handleConvertMapSliceToField. cbn [reflect.Type_].
        rewrite bind_lift_Ok, HB. reflexivity. }
    destruct (reflect.kind_eqb (reflect.kindOf t) reflect.String) eqn:K0.
    { exists (Stores (reflect.VString (stringOfBytes bs))). intros p h. rewrite Hred.
      unfold handleConvertMapSliceToField. cbn [reflect.Type_].
      rewrite bind_lift_Ok, HB, K0, SetString_eq by exact K0. reflexivity. }
    destruct (isSignedInteger (reflect.kindOf t)) eqn:K1.
    { destruct (strconv.ParseInt (stringOfBytes bs)) as [n|] eqn:HP.
      - exists (Stores (reflect.VInt (reflect.wrapS (reflect.bitsOf (reflect.kindOf t)) n))).
        intros p h. rewrite Hred.
        unfold handleConvertMapSliceToField. cbn [reflect.Type_].
        rewrite bind_lift_Ok, HB, K0, K1, HP, SetInt_eq by exact K1. reflexivity.
      - exists (Returns (Ok (Some ErrConvertValue))). intros p h. rewrite Hred.
        unfold handleConvertMapSliceToField. cbn [reflect.Type_].
        rewrite bind_lift_Ok, HB, K0, K1, HP. reflexivity. }
    destruct (isUnsignedInteger (reflect.kindOf t)) eqn:K2.
    { destruct (strconv.ParseUint (stringOfBytes bs)) as [n|] eqn:HP.
      - exists (Stores (reflect.VUint (reflect.wrapU (reflect.bitsOf (reflect.kindOf t)) n))).
        intros p h. rewrite Hred.
        unfold handleConvertMapSliceToField. cbn [reflect.Type_].
        rewrite bind_lift_Ok, HB, K0, K1, K2, HP, SetUint_eq by exact K2. reflexivity.
      - exists (Returns (Ok (Some ErrConvertValue))). intros p h. rewrite Hred.
        unfold handleConvertMapSliceToField. cbn [reflect.Type_].
        rewrite bind_lift_Ok, HB, K0, K1, K2, HP. reflexivity. }
    destruct (isFloat (reflect.kindOf t)) eqn:K3.
    { destruct (ParseFloat64 (stringOfBytes bs)) as [x|] eqn:HP.
      - exists (Stores (floatFor (reflect.kindOf t) x)).
        intros p h. rewrite Hred.
        unfold handleConvertMapSliceToField. cbn [reflect.Type_].
        rewrite bind_lift_Ok, HB, K0, K1, K2, K3, HP, SetFloat_eq by exact K3. reflexivity.
      - exists (Returns (Ok (Some ErrConvertValue))). intros p h. rewrite Hred.
        unfold handleConvertMapSliceToField. cbn [reflect.Type_].
        rewrite bind_lift_Ok, HB, K0, K1, K2, K3, HP. reflexivity. }
    exists (Returns (Ok (Some ErrUnSupportTypeConvert))). intros p h. rewrite Hred.
    unfold handleConvertMapSliceToField. cbn [reflect.Type_].
    rewrite bind_lift_Ok, HB, K0, K1, K2, K3. reflexivity.
Qed.

End Locality.

Section LocalBinding.
Context `{RT : GoRuntime}.

(** What the loop over the fields returns, and what it leaves in the
    record, depend on what the record held only: not on where the
    record is, nor on the rest of the heap. *)
Lemma fieldLoop_local row T idxs :
  exists F : reflect.val -> Res (option error) * reflect.val,
    forall l h v, h !! l = Some v ->
      fieldLoop row T (reflect.Var T (l, []) false) idxs h = ((F v).1, <[l := (F v).2]> h).
Proof.
  induction idxs as [|j rest [Frest IH]].
  { exists (fun v => (Ok None, v)). intros l h v Hl. cbn [fst snd].
    rewrite list_insert_id by exact Hl. reflexivity. }
  assert (Hpanic : forall msg,
             (forall l h, fieldLoop row T (reflect.Var T (l, []) false) (j :: rest) h
                          = (Panic msg, h)) ->
             exists F : reflect.val -> Res (option error) * reflect.val,
               forall l h v, h !! l = Some v ->
                 fieldLoop row T (reflect.Var T (l, []) false) (j :: rest) h
                 = ((F v).1, <[l := (F v).2]> h)).
  { intros msg Hp. exists (fun v => (Panic msg, v)). intros l h v Hl. cbn [fst snd].
    rewrite list_insert_id by exact Hl. apply Hp. }
  destruct (reflect.structFields T) as [fs|] eqn:HF.
  2:{ eapply Hpanic. intros l h. cbn [fieldLoop]. unfold reflect.TypeField.
      rewrite HF. reflexivity. }
  destruct (fs !! j) as [f|] eqn:Hj.
  2:{ eapply Hpanic. intros l h. cbn [fieldLoop]. unfold reflect.TypeField.
      rewrite HF, Hj. reflexivity. }
  pose proof (fun l h => fieldLoop_cons_typed row T l j fs f rest h HF Hj) as Hc.
  destruct (negb (reflect.fieldExported f)).
  { exists Frest. intros l h v Hl. rewrite Hc. auto. }
  destruct (reflect.Lookup (reflect.fieldTag f) DefaultTagName) as [name|].
  2:{ exists Frest. intros l h v Hl. rewrite Hc. auto. }
  destruct (String.eqb name "").
  { exists Frest. intros l h v Hl. rewrite Hc. auto. }
  destruct (row !! name) as [mv|].
  2:{ exists Frest. intros l h v Hl. rewrite Hc. auto. }
  destruct (valueConvert_effect mv (reflect.fieldType f)) as [[r|x] He].
  - exists (fun v => match r with
                     | Ok None => Frest v
                     | _ => (r, v)
                     end).
    intros l h v Hl. rewrite Hc, bind_eq, He. cbn [runEffect lift].
    destruct r as [[e|]|msg|]; cbn [fst snd];
      try (rewrite list_insert_id by exact Hl; reflexivity).
    auto.
  - exists (fun v => match reflect.vset v [j] x with
                     | Some v' => Frest v'
                     | None => (Panic "invalid memory address", v)
                     end).
    intros l h v Hl. rewrite Hc, bind_eq, He. cbn [runEffect].
    rewrite bind_eq. unfold reflect.write, reflect.store. cbn [fst snd]. rewrite Hl.
    destruct (reflect.vset v [j] x) as [v'|]; cbn [fst snd].
    + cbn [ret]. rewrite (IH l (<[l := v']> h) v').
      * rewrite list_insert_insert_eq. reflexivity.
      * apply list_lookup_insert_eq. eapply lookup_lt_Some; eauto.
    + rewrite list_insert_id by exact Hl. reflexivity.
Qed.

(** Binding a row into a record gives, wherever the record is, what it
    gives for a record with the same contents alone in the heap. *)
Lemma singleResult_relocate row T l h v r0 v0 :
  reflect.kindOf T <> reflect.Ptr ->
  h !! l = Some v ->
  singleResult row (ptrTo T 0) [v] = (r0, [v0]) ->
  singleResult row (ptrTo T l) h = (r0, <[l := v0]> h).
Proof.
  intros HK Hl H0. unfold singleResult, ptrTo in *.
  rewrite (singleResultRec_record _ _ _ T) in H0 by (auto; reflexivity).
  rewrite (singleResultRec_record _ _ _ T) by (auto; reflexivity).
  rewrite bind_eq in *. unfold lift in *.
  destruct (reflect.NumField (reflect.Var T (0, []) false)) as [n|msg|] eqn:HN0;
    unfold reflect.NumField in HN0 |- *;
    destruct (reflect.structFields T) as [fs|]; try discriminate HN0;
    try (injection HN0 as <-).
  - destruct (fieldLoop_local row T (seq 0 (length fs))) as [F HF].
    rewrite (HF 0 [v] v eq_refl) in H0. rewrite (HF l h v Hl).
    cbn [insert list_insert] in H0. injection H0 as <- <-. reflexivity.
  - injection H0 as <- <-. rewrite list_insert_id by exact Hl. reflexivity.
Qed.

Lemma insert_app_last (h : reflect.Heap) (x y : reflect.val) :
  <[length h := y]> (h ++ [x]) = h ++ [y].
Proof.
  rewrite insert_app_r_alt by lia. rewrite Nat.sub_diag. reflexivity.
Qed.

(** The loop of [multiResults] when every row binds: the records bound
    are allocated one after the other and appended in the order of the
    rows. *)
Lemma multiLoop_bound T e fs rows :
  forall vs acc h,
  reflect.underlying T = reflect.TSlice e ->
  reflect.structFields e = Some fs ->
  Forall2 (fun row v => singleResult row (ptrTo e 0) [reflect.zero e] = (Ok None, [v])) rows vs ->
  multiLoop T rows (reflect.Val T (reflect.VSlice (Some acc))) h
  = (Ok (inr (reflect.Val T (reflect.VSlice (Some (acc ++ vs))))), h ++ vs).
Proof.
  induction rows as [|row rows IH]; intros vs acc h HT HF Hall.
  - apply Forall2_nil_inv_l in Hall. subst vs. rewrite !app_nil_r. reflexivity.
  - apply Forall2_cons_inv_l in Hall. destruct Hall as (v & vs' & Hrow & Hrest & ->).
    assert (HK : reflect.kindOf e <> reflect.Ptr) by (eapply record_fields_not_pointer; eauto).
    assert (HKe : reflect.kindOf e = reflect.Struct).
    { rewrite <- kindOf_underlying. unfold reflect.structFields in HF.
      destruct (reflect.underlying e); try discriminate HF; reflexivity. }
    rewrite multiLoop_cons. unfold reflect.TypeElem. rewrite HT.
    rewrite (singleResult_relocate row e (length h) (h ++ [reflect.zero e])
               (reflect.zero e) (Ok None) v HK)
      by (try exact Hrow; apply list_lookup_middle; reflexivity).
    rewrite insert_app_last.
    rewrite bind_eq. unfold reflect.Elem. cbn [reflect.dataOf].
    rewrite bind_ret. cbn [fst snd reflect.kindOf reflect.underlying reflect.isRO ret].
    rewrite bind_eq. unfold reflect.Append. cbn [reflect.dataOf].
    rewrite bind_ret. cbn [fst snd reflect.isRO]. rewrite HT.
    rewrite bind_eq. unfold bind at 1, reflect.read, reflect.load. cbn [fst snd].
    rewrite list_lookup_middle by reflexivity. cbn [reflect.vget ret fst snd].
    rewrite AssignableTo_refl. unfold reflect.boxFor. cbn [fst snd]. rewrite HKe.
    cbn [ret]. rewrite (IH vs' (acc ++ [v]) (h ++ [v]) HT HF Hrest).
    rewrite <- !app_assoc. reflexivity.
Qed.

End LocalBinding.

(** [multiResults] when every row binds. *)
Lemma multiResults_bound `{RT : GoRuntime}
    (T e : reflect.Typ) (fs : list reflect.StructField) (l : reflect.loc)
    (rows : list Row) (vs : list reflect.val) (h : reflect.Heap) (old : reflect.val) :
  reflect.underlying T = reflect.TSlice e ->
  reflect.structFields e = Some fs ->
  h !! l = Some old ->
  Forall2 (fun row v => singleResult row (ptrTo e 0) [reflect.zero e] = (Ok None, [v])) rows vs ->
  multiResults rows (ptrTo T l) h
  = (Ok None, <[l := reflect.VSlice (Some vs)]> (h ++ vs))
  /\ length vs = length rows.
Proof.
  intros HT HF Hl Hall. split; [|symmetry; eapply Forall2_length; eauto].
  unfold ptrTo. rewrite (multiResults_eq _ (reflect.TPtr T) T e) by (auto; reflexivity).
  rewrite (multiLoop_bound T e fs rows vs [] h HT HF Hall). cbn [app].
  rewrite bind_eq. unfold reflect.SetValue. cbn [reflect.isRO reflect.dataOf].
  rewrite bind_ret. cbn [fst snd]. rewrite AssignableTo_refl.
  assert (HKT : reflect.kindOf T = reflect.Slice)
    by (rewrite <- kindOf_underlying, HT; reflexivity).
  unfold reflect.boxFor. cbn [fst snd]. rewrite HKT.
  unfold reflect.write.
  rewrite (store_root l _ old) by (rewrite lookup_app_l; [exact Hl|eapply lookup_lt_Some; eauto]).
  reflexivity.
Qed.

(** X16.  When every row binds, [multiResults] replaces the destination
    slice by the records bound, one per row and in the order of the
    rows; each record is what [singleResult] makes of the row on a zero
    record, whatever the destination held before. *)
Theorem X16_collection_in_row_order `{RT : GoRuntime}
    (T e : reflect.Typ) (fs : list reflect.StructField) (l : reflect.loc)
    (rows : list Row) (vs : list reflect.val) (h : reflect.Heap) (old : reflect.val) :
  reflect.underlying T = reflect.TSlice e ->
  reflect.structFields e = Some fs ->
  h !! l = Some old ->
  Forall2 (fun row v => singleResult row (ptrTo e 0) [reflect.zero e] = (Ok None, [v])) rows vs ->
  multiResults rows (ptrTo T l) h
  = (Ok None, <[l := reflect.VSlice (Some vs)]> (h ++ vs))
  /\ length vs = length rows.
Proof.
  apply multiResults_bound.
Qed.

Lemma X16_collection_in_row_order_witness :
  multiResults (RT := sampleRuntime) [aliceRow; bobRow] (ptrTo (reflect.TSlice userT) 0)
    [reflect.VSlice (Some [user 9 "Zoe" "kept"])]
  = (Ok None,
     [reflect.VSlice (Some [user 1 "Alice" ""; user 2 "Bob" ""]);
      user 1 "Alice" ""; user 2 "Bob" ""]).
Proof.
  apply (proj1 (X16_collection_in_row_order (RT := sampleRuntime)
                  (reflect.TSlice userT) userT
                  [reflect.mkField "Id" true int64T [("pg", "id")];
                   reflect.mkField "Name" true stringT [("pg", "name")];
                   reflect.mkField "Note" true stringT []]
                  0 [aliceRow; bobRow] [user 1 "Alice" ""; user 2 "Bob" ""]
                  [reflect.VSlice (Some [user 9 "Zoe" "kept"])]
                  (reflect.VSlice (Some [user 9 "Zoe" "kept"]))
                  eq_refl eq_refl eq_refl
                  ltac:(repeat constructor; vm_compute; reflexivity))).
Defined.

(** ** The rows read from a cursor *)

Section Extraction.
Context {R : Type} `{IR : IRows R}.

Lemma fill_length slots new : length (fill slots new) = length slots.
Proof.
  revert new. induction slots as [|s slots IH]; intros [|n new]; cbn [fill length];
    try reflexivity.
  rewrite IH. reflexivity.
Qed.

Lemma foldl_insert_dom (l : list (string * reflect.iface)) : forall mp : Row,
  dom (foldl (fun mp '(name, v) => <[name := v]> mp) mp l) = dom mp ∪ list_to_set l.*1.
Proof.
  induction l as [|[name v] l IH]; intros mp; cbn [foldl fmap list_fmap list_to_set fst].
  - symmetry. apply union_empty_r_L.
  - rewrite IH, dom_insert_L, (comm_L (∪) {[name]} (dom mp)), (assoc_L (∪)). reflexivity.
Qed.

Lemma rowMap_dom columns values :
  length values = length columns ->
  dom (rowMap columns values) = list_to_set columns.
Proof.
  intros HL. unfold rowMap. rewrite foldl_insert_dom, fst_zip by lia.
  rewrite dom_empty_L. apply union_empty_l_L.
Qed.

Lemma extraLoop_rows fuel columns : forall values result rows ds err,
  length values = length columns ->
  Forall (fun row : Row => dom row = list_to_set columns) result ->
  (extraLoop fuel columns values result rows).1 = Ok (ds, err) ->
  Forall (fun row : Row => dom row = list_to_set columns) ds
  /\ (err <> None -> ds = []).
Proof.
  induction fuel as [|fuel IH]; intros values result rows ds err HL HR H.
  - discriminate H.
  - cbn [extraLoop] in H. destruct (rows_Next rows) as [[|] rows1].
    + destruct (rows_Scan values rows1) as [[new [e|]] rows2].
      * cbn in H. injection H as <- <-. split; [constructor|reflexivity].
      * apply IH in H; [exact H|rewrite fill_length; exact HL|].
        apply Forall_app. split; [exact HR|]. constructor; [|constructor].
        apply rowMap_dom. rewrite fill_length. exact HL.
    + cbn in H. injection H as <- <-. split; [exact HR|]. intros N. contradiction.
Qed.

Lemma ExtraDatasFromRows_rows fuel rows ds err :
  (ExtraDatasFromRows fuel rows).1 = Ok (ds, err) ->
  Forall (fun row : Row => dom row = list_to_set (rows_Columns rows).1.1) ds
  /\ (err <> None -> ds = []).
Proof.
  unfold ExtraDatasFromRows. destruct (rows_Columns rows) as [[columns [e|]] rows1];
    cbn [fst snd]; intros H.
  - injection H as <- <-. split; [constructor|reflexivity].
  - eapply extraLoop_rows; [| |exact H]; [apply length_replicate|constructor].
Qed.

Lemma foldl_insert_absent (l : list (string * reflect.iface)) name : forall mp : Row,
  name ∉ l.*1 ->
  foldl (fun mp '(name, v) => <[name := v]> mp) mp l !! name = mp !! name.
Proof.
  induction l as [|[k x] l IH]; intros mp HN; cbn [foldl]; [reflexivity|].
  cbn [fmap list_fmap fst] in HN. apply not_elem_of_cons in HN. destruct HN as [Hk HN].
  rewrite IH by exact HN. apply lookup_insert_ne. congruence.
Qed.

Lemma foldl_insert_last (l : list (string * reflect.iface)) name v : forall i (mp : Row),
  l !! i = Some (name, v) ->
  (forall j, i < j -> l.*1 !! j <> Some name) ->
  foldl (fun mp '(name, v) => <[name := v]> mp) mp l !! name = Some v.
Proof.
  induction l as [|[k x] l IH]; intros i mp Hi HN; [discriminate Hi|].
  destruct i as [|i]; cbn [foldl].
  - injection Hi as -> ->. rewrite foldl_insert_absent.
    + apply lookup_insert_eq.
    + intros Hin. apply list_elem_of_lookup in Hin. destruct Hin as [j Hj].
      apply (HN (S j)); [lia|exact Hj].
  - apply (IH i); [exact Hi|]. intros j Hj. apply (HN (S j)). lia.
Qed.

End Extraction.

(** X17.  On any cursor, when [ExtraDatasFromRows] returns an error it
    returns no row with it: the rows read before the failure are
    dropped. *)
Theorem X17_extraction_error_returns_no_rows {R : Type} `{IR : IRows R}
    (fuel : nat) (rows : R) (ds : list Row) (e : error) :
  (ExtraDatasFromRows fuel rows).1 = Ok (ds, Some e) ->
  ds = [].
Proof.
  intros H. apply ExtraDatasFromRows_rows in H. apply H. discriminate.
Qed.

Lemma X17_extraction_error_witness :
  exists ds,
    (ExtraDatasFromRows 5
       (mkListRows (["id"; "name"], None)
          [([rawInt64 1; rawBytes "Alice"], None); ([], Some (ErrForeign "bad row"))]
          ([], None) 0)).1
    = Ok (ds, Some (ErrForeign "bad row"))
    /\ ds = [].
Proof.
  eexists. split; [vm_compute; reflexivity|].
  apply (X17_extraction_error_returns_no_rows 5
           (mkListRows (["id"; "name"], None)
              [([rawInt64 1; rawBytes "Alice"], None); ([], Some (ErrForeign "bad row"))]
              ([], None) 0)
           [] (ErrForeign "bad row")).
  vm_compute. reflexivity.
Defined.

(** X18.  On any cursor, every row [ExtraDatasFromRows] returns has an
    entry for each column the cursor reports and for nothing else,
    however many values a call of [rows.Scan] stored. *)
Theorem X18_rows_bind_every_column {R : Type} `{IR : IRows R}
    (fuel : nat) (rows : R) (ds : list Row) (err : option error) :
  (ExtraDatasFromRows fuel rows).1 = Ok (ds, err) ->
  Forall (fun row : Row => dom row = list_to_set (rows_Columns rows).1.1) ds.
Proof.
  intros H. apply ExtraDatasFromRows_rows in H. apply H.
Qed.

Lemma X18_rows_bind_every_column_witness :
  Forall (fun row : Row => dom row = list_to_set ["id"; "name"]) [aliceRow; bobRow].
Proof.
  assert (E : (ExtraDatasFromRows 5 sampleRows).1 = Ok ([aliceRow; bobRow], None))
    by (vm_compute; reflexivity).
  exact (X18_rows_bind_every_column 5 sampleRows [aliceRow; bobRow] None E).
Defined.

(** X19.  When a column name occurs more than once, the row built for
    the map holds the value of its last occurrence. *)
Theorem X19_last_duplicate_column_wins
    (columns : list string) (values : list reflect.iface)
    (i : nat) (name : string) (v : reflect.iface) :
  columns !! i = Some name ->
  values !! i = Some v ->
  (forall j, i < j -> columns !! j <> Some name) ->
  rowMap columns values !! name = Some v.
Proof.
  intros Hc Hv HN. unfold rowMap. apply (foldl_insert_last _ name v i).
  - apply lookup_zip_with_Some. exists name, v. auto.
  - intros j Hj Hz. apply (HN j Hj).
    rewrite list_lookup_fmap in Hz.
    destruct (zip columns values !! j) as [[c x]|] eqn:Hzj; [|discriminate Hz].
    injection Hz as ->. apply lookup_zip_with_Some in Hzj.
    destruct Hzj as (c & y & [= -> ->] & Hcj & _). exact Hcj.
Qed.

Lemma X19_last_duplicate_column_witness :
  rowMap ["id"; "name"; "id"] [rawInt64 1; rawBytes "Alice"; rawInt64 7] !! "id"
  = Some (rawInt64 7).
Proof.
  apply (X19_last_duplicate_column_wins ["id"; "name"; "id"]
           [rawInt64 1; rawBytes "Alice"; rawInt64 7] 2 "id" (rawInt64 7) eq_refl eq_refl).
  intros [|[|[|j]]] Hj; try lia; cbn; discriminate.
Defined.

(** ** Reading a cursor held in memory *)

(** The loop over a run of rows whose [Scan] succeeds: [Next] and [Scan]
    are called once for each, the same slots are passed to every call. *)
Lemma extraLoop_good (cols : list string) (good : list (list reflect.iface * option error)) :
  forall fuel values result pend cur n,
  Forall (fun p => p.2 = None) good ->
  extraLoop (length good + fuel) cols values result
    (mkListRows (cols, None) (good ++ pend) cur n)
  = extraLoop fuel cols (foldl fill values good.*1)
      (result ++ extracted cols values good.*1)
      (mkListRows (cols, None) pend (default cur (last good)) (n + 2 * length good)).
Proof.
  induction good as [|[new err] good IH]; intros fuel values result pend cur n HG.
  - cbn [length Nat.add app fmap list_fmap foldl extracted last default Nat.mul].
    rewrite app_nil_r, Nat.add_0_r. reflexivity.
  - apply Forall_cons in HG. destruct HG as [Herr HG]. cbn [snd] in Herr. subst err.
    cbn [length Nat.add app extraLoop rows_Next rows_Scan ListRows_IRows
         lr_pending lr_columns lr_current lr_calls fmap list_fmap fst foldl extracted].
    rewrite (IH fuel (fill values new) (result ++ [rowMap cols (fill values new)])
               pend (new, None) (S (S n)) HG).
    rewrite <- app_assoc. cbn [app].
    replace (S (S n) + 2 * length good) with (n + 2 * S (length good)) by lia.
    replace (default (new, None) (last good)) with (default cur (last ((new, None) :: good)))
      by (rewrite last_cons; destruct (last good); reflexivity).
    reflexivity.
Qed.

(** [ExtraDatasFromRows] on a cursor whose rows all scan. *)
Lemma ExtraDatasFromRows_read
    (cols : list string) (pend : list (list reflect.iface * option error))
    (cur : list reflect.iface * option error) (n fuel : nat) :
  length pend < fuel ->
  Forall (fun p => p.2 = None) pend ->
  ExtraDatasFromRows fuel (mkListRows (cols, None) pend cur n)
  = (Ok (extracted cols (replicate (length cols) None) pend.*1, None),
     mkListRows (cols, None) [] (default cur (last pend)) (n + 2 * length pend + 2)).
Proof.
  intros Hfuel HG. unfold ExtraDatasFromRows.
  cbn [rows_Columns ListRows_IRows lr_columns lr_pending lr_current lr_calls].
  replace fuel with (length pend + S (fuel - length pend - 1)) by lia.
  pose proof (extraLoop_good cols pend (S (fuel - length pend - 1))
                (replicate (length cols) None) [] [] cur (S n) HG) as HL.
  rewrite app_nil_r in HL. rewrite HL.
  cbn [extraLoop rows_Next ListRows_IRows lr_columns lr_pending lr_current lr_calls app].
  repeat f_equal. lia.
Qed.

(** X20.  A cursor held in memory whose rows all scan is read to its
    end: [Columns] is called once, [Next] and [Scan] once a row and
    [Next] once more, and the rows come back in order.  The slots passed
    to [Scan] are made once and used for every row: a slot a call leaves
    alone still holds what the row before stored. *)
Theorem X20_cursor_is_read_to_the_end
    (cols : list string) (pend : list (list reflect.iface * option error))
    (cur : list reflect.iface * option error) (n fuel : nat) :
  length pend < fuel ->
  Forall (fun p => p.2 = None) pend ->
  ExtraDatasFromRows fuel (mkListRows (cols, None) pend cur n)
  = (Ok (extracted cols (replicate (length cols) None) pend.*1, None),
     mkListRows (cols, None) [] (default cur (last pend)) (n + 2 * length pend + 2)).
Proof.
  apply ExtraDatasFromRows_read.
Qed.

Lemma X20_cursor_is_read_witness :
  ExtraDatasFromRows 3
    (mkListRows (["id"; "name"], None)
       [([rawInt64 1; rawBytes "Alice"], None); ([rawInt64 2], None)] ([], None) 0)
  = (Ok ([aliceRow; rowMap ["id"; "name"] [rawInt64 2; rawBytes "Alice"]], None),
     mkListRows (["id"; "name"], None) [] ([rawInt64 2], None) 6).
Proof.
  rewrite (X20_cursor_is_read_to_the_end ["id"; "name"]
             [([rawInt64 1; rawBytes "Alice"], None); ([rawInt64 2], None)] ([], None) 0 3
             ltac:(simpl; lia) ltac:(repeat constructor)).
  vm_compute. reflexivity.
Defined.

(** X21.  At the first row whose [Scan] fails, [ExtraDatasFromRows]
    returns that error and no row, and calls the cursor no more: the
    rows after it are still pending. *)
Theorem X21_extraction_stops_at_failed_row
    (cols : list string) (good rest : list (list reflect.iface * option error))
    (new : list reflect.iface) (e : error)
    (cur : list reflect.iface * option error) (n fuel : nat) :
  length good < fuel ->
  Forall (fun p => p.2 = None) good ->
  ExtraDatasFromRows fuel (mkListRows (cols, None) (good ++ (new, Some e) :: rest) cur n)
  = (Ok ([], Some e),
     mkListRows (cols, None) rest (new, Some e) (n + 2 * length good + 3)).
Proof.
  intros Hfuel HG. unfold ExtraDatasFromRows.
  cbn [rows_Columns ListRows_IRows lr_columns lr_pending lr_current lr_calls].
  replace fuel with (length good + S (fuel - length good - 1)) by lia.
  rewrite (extraLoop_good cols good _ _ [] ((new, Some e) :: rest) cur (S n) HG).
  cbn [extraLoop rows_Next rows_Scan ListRows_IRows lr_columns lr_pending lr_current lr_calls].
  repeat f_equal. lia.
Qed.

Lemma X21_extraction_stops_witness :
  ExtraDatasFromRows 2
    (mkListRows (["id"; "name"], None)
       [([rawInt64 1; rawBytes "Alice"], None); ([], Some (ErrForeign "bad row"));
        ([rawInt64 3; rawBytes "Carol"], None)] ([], None) 0)
  = (Ok ([], Some (ErrForeign "bad row")),
     mkListRows (["id"; "name"], None) [([rawInt64 3; rawBytes "Carol"], None)]
       ([], Some (ErrForeign "bad row")) 5).
Proof.
  apply (X21_extraction_stops_at_failed_row ["id"; "name"]
           [([rawInt64 1; rawBytes "Alice"], None)]
           [([rawInt64 3; rawBytes "Carol"], None)] [] (ErrForeign "bad row") ([], None) 0 2).
  - simpl. lia.
  - repeat constructor.
Defined.

(** X22.  [Scan] into a slice of records, from a cursor held in memory
    whose rows all scan and all bind: the cursor is read to its end and
    the destination then holds one record a row, in the order of the
    rows, each bound from a zero record. *)
Theorem X22_scan_fills_a_slice `{RT : GoRuntime}
    (cols : list string) (pend : list (list reflect.iface * option error))
    (cur : list reflect.iface * option error) (n fuel : nat)
    (T e : reflect.Typ) (fs : list reflect.StructField) (l : reflect.loc)
    (h : reflect.Heap) (old : reflect.val) (vs : list reflect.val) :
  length pend < fuel ->
  pend <> [] ->
  Forall (fun p => p.2 = None) pend ->
  reflect.underlying T = reflect.TSlice e ->
  reflect.structFields e = Some fs ->
  h !! l = Some old ->
  Forall2 (fun row v => singleResult row (ptrTo e 0) [reflect.zero e] = (Ok None, [v]))
    (extracted cols (replicate (length cols) None) pend.*1) vs ->
  Scan fuel (ptrTo T l) (mkListRows (cols, None) pend cur n, h)
  = (Ok None,
     (mkListRows (cols, None) [] (default cur (last pend)) (n + 2 * length pend + 2),
      <[l := reflect.VSlice (Some vs)]> (h ++ vs))).
Proof.
  intros Hfuel Hne HG HT HF Hl Hall. unfold ptrTo.
  rewrite (Scan_pointer fuel _ (reflect.TPtr T) T l h eq_refl).
  rewrite (ExtraDatasFromRows_read cols pend cur n fuel Hfuel HG).
  assert (HKT : reflect.kindOf T = reflect.Slice)
    by (rewrite <- kindOf_underlying, HT; reflexivity).
  rewrite HKT.
  destruct (extracted cols (replicate (length cols) None) pend.*1) as [|d ds] eqn:HE.
  { destruct pend; [contradiction|discriminate HE]. }
  unfold onHeap. cbn [fst snd].
  pose proof (multiResults_bound T e fs l (d :: ds) vs h old HT HF Hl Hall) as [HM _].
  unfold ptrTo in HM. rewrite HM. reflexivity.
Qed.

Lemma X22_scan_fills_a_slice_witness :
  Scan (RT := sampleRuntime) 5 (ptrTo (reflect.TSlice userT) 0)
    (sampleRows, [reflect.VSlice (Some [user 9 "Zoe" "kept"])])
  = (Ok None,
     (mkListRows (["id"; "name"], None) [] ([rawInt64 2; rawBytes "Bob"], None) 6,
      [reflect.VSlice (Some [user 1 "Alice" ""; user 2 "Bob" ""]);
       user 1 "Alice" ""; user 2 "Bob" ""])).
Proof.
  apply (X22_scan_fills_a_slice (RT := sampleRuntime) ["id"; "name"]
           [([rawInt64 1; rawBytes "Alice"], None); ([rawInt64 2; rawBytes "Bob"], None)]
           ([], None) 0 5 (reflect.TSlice userT) userT
           [reflect.mkField "Id" true int64T [("pg", "id")];
            reflect.mkField "Name" true stringT [("pg", "name")];
            reflect.mkField "Note" true stringT []]
           0 [reflect.VSlice (Some [user 9 "Zoe" "kept"])]
           (reflect.VSlice (Some [user 9 "Zoe" "kept"]))
           [user 1 "Alice" ""; user 2 "Bob" ""]).
  - simpl. lia.
  - discriminate.
  - repeat constructor.
  - reflexivity.
  - reflexivity.
  - reflexivity.
  - repeat constructor; vm_compute; reflexivity.
Defined.
